(** * Domain substitution: pattern table, file transformer, cache writer,
      cache verifier and revert engine of [utils/domain_substitution.py].

    The Python module is embedded shallowly.  Python [str] values are lists
    of Unicode code points, [bytes] values are lists of [Byte.byte], the
    source tree is a finite map from tree-relative paths to file nodes, and
    the functions that touch the file system are written in a small
    state-and-exception monad over a [world] record (source tree, cache
    archive file, logger output). *)

From Stdlib Require Import ZArith NArith Lia Strings.Byte.
From stdpp Require Import base option list gmap sets strings.

Local Open Scope N_scope.

(** ** Python values *)

(** A Python [str]: a sequence of code points.  Lists holding a number above
    [0x10FFFF] do not denote Python strings; the codecs below reject them. *)
Abbreviation text := (list N).

(** A Python [bytes] object. *)
Abbreviation bytes := (list byte).

(** ASCII literals of the development, as [str] and as [bytes]. *)
Definition py (s : string) : list N :=
  Byte.to_N <$> String.list_byte_of_string s.

Definition pyb (s : string) : list byte :=
  String.list_byte_of_string s.

(** ** Constants of the module *)

Inductive encoding := UTF_8 | ISO_8859_1.

Definition ENCODING : encoding := UTF_8.
Definition TREE_ENCODINGS : list encoding := [UTF_8; ISO_8859_1].

Definition INDEX_LIST_FILENAME : list N := py "cache_index.list".
Definition INDEX_HASH_DELIMITER : N := 124.   (* '|' *)
Definition ORIG_DIR_NAME : list N := py "orig".

Definition TIMESTAMP_DELTA : Z := (1 * 10 ^ 9)%Z.

Definition PATTERN_REPLACE_DELIMITER : N := 35. (* '#' *)

(** ** [str] methods used by the module *)

(** The line boundaries of [str.splitlines]: LF, CR, VT, FF, FS, GS, RS,
    NEL, LS and PS; CR LF counts as one boundary. *)
Definition is_linebreak (c : N) : bool :=
  (c =? 10) || (c =? 13) || (c =? 11) || (c =? 12) || (c =? 28) ||
  (c =? 29) || (c =? 30) || (c =? 133) || (c =? 8232) || (c =? 8233).

Fixpoint splitlines (s : list N) : list (list N) :=
  match s with
  | [] => []
  | c :: s' =>
      if is_linebreak c then
        [] :: match s' with
              | c' :: s'' =>
                  if (c =? 13) && (c' =? 10) then splitlines s''
                  else splitlines s'
              | [] => []
              end
      else match splitlines s' with
           | [] => [[c]]
           | l :: ls => (c :: l) :: ls
           end
  end.

(** [s.split(sep, 1)] for a one-character separator: one piece when [sep]
    does not occur, otherwise the text before the first [sep] and the whole
    remainder after it. *)
Fixpoint str_split1 (sep : N) (s : list N) : list (list N) :=
  match s with
  | [] => [[]]
  | c :: s' =>
      if c =? sep then [[]; s']
      else match str_split1 sep s' with
           | a :: rest => (c :: a) :: rest
           | [] => [[c]]
           end
  end.

(** [sep.join(pieces)] *)
Fixpoint str_join (sep : list N) (pieces : list (list N)) : list N :=
  match pieces with
  | [] => []
  | [p] => p
  | p :: ps => p ++ sep ++ str_join sep ps
  end.

(** [filter(len, lines)] *)
Definition filter_len (lines : list (list N)) : list (list N) :=
  filter (λ l : list N, l ≠ []) lines.

(** ** Exceptions and results *)

Inductive regex_error_reason :=
| Invalid_regex_line_format (line : list N)
| Failed_to_compile (pattern : list N).

Inductive exn :=
| FileNotFoundError
| FileExistsError
| DomainRegexError (r : regex_error_reason)
| FileProcessingError (path : list N)
| ValueError (relative_path : list N)
| UnicodeEncodeError
| TypeError
| ReError
| AttributeError
| KeyError.

Inductive outcome (A : Type) :=
| Ok (a : A)
| Raise (e : exn).
Arguments Ok {A} a.
Arguments Raise {A} e.

(** ** The regular-expression library

    Python's [re] module is outside the repository.  The development is
    parametric in it: [re_compile] is [re.compile] ([None] stands for
    [re.error]) and [re_subn p repl s] is [p.subn(repl, s)] ([None] again
    for [re.error], raised for a bad replacement template).  Other
    exceptions of [re] ([OverflowError], [RecursionError], [IndexError])
    are not represented. *)
Class RegexEngine := {
  re_pattern : Type;
  re_compile : list N → option re_pattern;
  re_subn : re_pattern → list N → list N → option (list N * nat)
}.

(** ** Pattern Table: class [DomainRegexList] *)

Section PatternTable.
Context `{RegexEngine}.

(** [__init__]: the non-empty lines of the rule file.  The argument is
    the decoded text of the file, [None] when the file does not exist. *)
Definition DomainRegexList (path : option (list N)) : outcome (list (list N)) :=
  match path with
  | None => Raise FileNotFoundError
  | Some contents => Ok (filter_len (splitlines contents))
  end.

Definition _compile_regex (line : list N) : outcome (re_pattern * list N) :=
  match str_split1 PATTERN_REPLACE_DELIMITER line with
  | [pattern; replacement] =>
      match re_compile pattern with
      | Some compiled_pattern => Ok (compiled_pattern, replacement)
      | None => Raise (DomainRegexError (Failed_to_compile pattern))
      end
  | _ => Raise (DomainRegexError (Invalid_regex_line_format line))
  end.

(** [tuple(map(self._compile_regex, self._data))]: the first failing line
    raises. *)
Fixpoint regex_pairs (_data : list (list N)) : outcome (list (re_pattern * list N)) :=
  match _data with
  | [] => Ok []
  | line :: rest =>
      match _compile_regex line with
      | Raise e => Raise e
      | Ok regex_pair =>
          match regex_pairs rest with
          | Raise e => Raise e
          | Ok pairs => Ok (regex_pair :: pairs)
          end
      end
  end.

Definition pattern_strings (_data : list (list N)) : list (list N) :=
  (λ line, default [] (head (str_split1 PATTERN_REPLACE_DELIMITER line))) <$> _data.

Definition combined_pattern (_data : list (list N)) : list N :=
  str_join [124] (pattern_strings _data).

Definition search_regex (_data : list (list N)) : option re_pattern :=
  re_compile (combined_pattern _data).
End PatternTable.

(** ** Codecs: [bytes.decode] and [str.encode] *)

Definition byte_of_N (n : N) : byte := default x00 (Byte.of_N n).

(** One code point in UTF-8.  Lone surrogates and numbers beyond U+10FFFF
    have no encoding ([UnicodeEncodeError]). *)
Definition utf8_encode_char (c : N) : option bytes :=
  if c <? 0x80 then Some [byte_of_N c]
  else if c <? 0x800 then
    Some [byte_of_N (0xC0 + c / 64); byte_of_N (0x80 + c mod 64)]
  else if c <? 0x10000 then
    if (0xD800 <=? c) && (c <=? 0xDFFF) then None
    else Some [byte_of_N (0xE0 + c / 4096);
               byte_of_N (0x80 + (c / 64) mod 64);
               byte_of_N (0x80 + c mod 64)]
  else if c <? 0x110000 then
    Some [byte_of_N (0xF0 + c / 262144);
          byte_of_N (0x80 + (c / 4096) mod 64);
          byte_of_N (0x80 + (c / 64) mod 64);
          byte_of_N (0x80 + c mod 64)]
  else None.

Fixpoint utf8_encode (s : text) : option bytes :=
  match s with
  | [] => Some []
  | c :: s' =>
      match utf8_encode_char c, utf8_encode s' with
      | Some b, Some bs => Some (b ++ bs)
      | _, _ => None
      end
  end.

Definition is_continuation (n : N) : bool := (0x80 <=? n) && (n <=? 0xBF).

(** Strict UTF-8 decoding: overlong forms, surrogates, numbers beyond
    U+10FFFF and truncated sequences are errors ([UnicodeDecodeError]). *)
Fixpoint utf8_decode (bs : bytes) : option text :=
  match bs with
  | [] => Some []
  | b0 :: r0 =>
      let n0 := Byte.to_N b0 in
      if n0 <? 0x80 then cons n0 <$> utf8_decode r0
      else if (0xC2 <=? n0) && (n0 <=? 0xDF) then
        match r0 with
        | b1 :: r1 =>
            let n1 := Byte.to_N b1 in
            if is_continuation n1
            then cons ((n0 - 0xC0) * 64 + (n1 - 0x80)) <$> utf8_decode r1
            else None
        | _ => None
        end
      else if (0xE0 <=? n0) && (n0 <=? 0xEF) then
        match r0 with
        | b1 :: b2 :: r2 =>
            let n1 := Byte.to_N b1 in
            let n2 := Byte.to_N b2 in
            let lo := if n0 =? 0xE0 then 0xA0 else 0x80 in
            let hi := if n0 =? 0xED then 0x9F else 0xBF in
            if (lo <=? n1) && (n1 <=? hi) && is_continuation n2
            then cons ((n0 - 0xE0) * 4096 + (n1 - 0x80) * 64 + (n2 - 0x80))
                   <$> utf8_decode r2
            else None
        | _ => None
        end
      else if (0xF0 <=? n0) && (n0 <=? 0xF4) then
        match r0 with
        | b1 :: b2 :: b3 :: r3 =>
            let n1 := Byte.to_N b1 in
            let n2 := Byte.to_N b2 in
            let n3 := Byte.to_N b3 in
            let lo := if n0 =? 0xF0 then 0x90 else 0x80 in
            let hi := if n0 =? 0xF4 then 0x8F else 0xBF in
            if (lo <=? n1) && (n1 <=? hi) && is_continuation n2 && is_continuation n3
            then cons ((n0 - 0xF0) * 262144 + (n1 - 0x80) * 4096
                       + (n2 - 0x80) * 64 + (n3 - 0x80))
                   <$> utf8_decode r3
            else None
        | _ => None
        end
      else None
  end.

(** ISO-8859-1 maps every byte to the code point of the same number. *)
Definition latin1_decode (bs : bytes) : option text :=
  Some (Byte.to_N <$> bs).

Definition latin1_encode (s : text) : option bytes :=
  mapM Byte.of_N s.

Definition bytes_decode (e : encoding) (bs : bytes) : option text :=
  match e with
  | UTF_8 => utf8_decode bs
  | ISO_8859_1 => latin1_decode bs
  end.

Definition str_encode (e : encoding) (s : text) : option bytes :=
  match e with
  | UTF_8 => utf8_encode s
  | ISO_8859_1 => latin1_encode s
  end.

(** ** [zlib.crc32]

    The reflected CRC-32 of zlib (polynomial [0xEDB88320], initial value and
    final complement [0xFFFFFFFF]), computed one bit at a time. *)
Definition crc32_step (c : N) : N :=
  if N.odd c then N.lxor (N.shiftr c 1) 0xEDB88320 else N.shiftr c 1.

Definition crc32_update (c : N) (b : byte) : N :=
  Nat.iter 8 crc32_step (N.lxor c (Byte.to_N b)).

Definition crc32 (data : bytes) : N :=
  N.lxor (fold_left crc32_update data 0xFFFFFFFF) 0xFFFFFFFF.

(** ** Hash text: ['{:08x}'.format], the CRC32 pattern and [int(_, 16)] *)

Definition hex_digit (d : N) : N := if d <? 10 then 48 + d else 87 + d.

Fixpoint hex_digits (fuel : nat) (n : N) (acc : text) : text :=
  match fuel with
  | O => acc
  | S fuel' =>
      if n =? 0 then acc
      else hex_digits fuel' (n / 16) (hex_digit (n mod 16) :: acc)
  end.

(** ['{:x}'.format(n)] *)
Definition format_x (n : N) : text :=
  if n =? 0 then [48] else hex_digits (S (N.to_nat (N.log2 n))) n [].

(** ['{:08x}'.format(n)]: zero-padded on the left to at least 8 digits. *)
Definition format_08x (n : N) : text :=
  let digits := format_x n in
  replicate (8 - length digits)%nat 48 ++ digits.

Definition is_alnum (c : N) : bool :=
  ((97 <=? c) && (c <=? 122)) || ((65 <=? c) && (c <=? 90)) ||
  ((48 <=? c) && (c <=? 57)).

(** [re.compile(r'^[a-zA-Z0-9]{8}$').match(s)]: eight ASCII letters or
    digits; [$] also matches just before one final newline. *)
Definition crc32_regex_match (s : text) : bool :=
  forallb is_alnum (take 8 s) && (length (take 8 s) =? 8)%nat &&
  match drop 8 s with
  | [] => true
  | [10] => true
  | _ => false
  end.

Definition hex_value (c : N) : option N :=
  if (48 <=? c) && (c <=? 57) then Some (c - 48)
  else if (97 <=? c) && (c <=? 102) then Some (c - 87)
  else if (65 <=? c) && (c <=? 70) then Some (c - 55)
  else None.

Fixpoint parse_hex (acc : N) (s : text) : option N :=
  match s with
  | [] => Some acc
  | c :: s' =>
      match hex_value c with
      | Some d => parse_hex (acc * 16 + d) s'
      | None => None
      end
  end.

(** [int(s, 16)] on the strings that pass [crc32_regex_match] (no sign, no
    underscore, no blank other than the final newline [$] lets through):
    an optional [0x]/[0X] prefix, then at least one hexadecimal digit;
    [None] stands for [ValueError]. *)
Definition int_base16 (s : text) : option N :=
  let body := match reverse s with
              | c :: r => if c =? 10 then reverse r else s
              | [] => s
              end in
  let digits := match body with
                | c :: x :: rest =>
                    if (c =? 48) && ((x =? 120) || (x =? 88)) then rest else body
                | _ => body
                end in
  match digits with
  | [] => None
  | _ => parse_hex 0 digits
  end.

(** ** File Transformer: decoding *)

(** The loop of [_decode_file_content] over [TREE_ENCODINGS].  The statement
    after the loop builds a [UnicodeDecodeError] from a single argument,
    which Python answers with a [TypeError]. *)
Fixpoint decode_with (encodings : list encoding) (content_bytes : bytes)
  : outcome text :=
  match encodings with
  | [] => Raise TypeError
  | e :: rest =>
      match bytes_decode e content_bytes with
      | Some s => Ok s
      | None => decode_with rest content_bytes
      end
  end.

Definition _decode_file_content (content_bytes : bytes) : outcome text :=
  decode_with TREE_ENCODINGS content_bytes.

(** ** The file system, the archive and the logger *)

Inductive node_kind := Regular | Symlink | Directory.

(** What the module can observe of a path below the tree root: its kind,
    the bytes read through it, the timestamps [os.stat] reports and whether
    [os.access(path, os.W_OK)] holds.  A path names one file: two spellings
    of one file are not modelled, nor are the time stamps the kernel sets
    on its own on a read or a write (every write of the module is followed
    by its own [os.utime]).

    The keys of the tree are the relative paths of the files, written with
    [/] and without empty, [.] or [..] components, one key per file.  A
    line of a list or of an index names the file with the key of the same
    text only when it is written in that way and passes no symbolic link
    to a directory ([own_name] below); hard links are not represented, and
    the node of a symbolic link carries what is read through the link.  A
    time stamp of the model is the one the file has when [os.utime] of the
    module set it last; what the kernel does to the access time on a read,
    to the modification time on a write or to a directory on a rename is
    not represented.  The statements below speak of paths, of bytes behind
    links and of time stamps only within these bounds. *)
Record node := {
  kind : node_kind;
  content : bytes;
  st_atime_ns : Z;
  st_mtime_ns : Z;
  writable : bool
}.

Inductive level := DEBUG | INFO | WARNING | ERROR.

Inductive message :=
| Adding_write_permission (path : text)
| Skipping_nonexistant_path (path : text)
| Skipping_symlink (path : text)
| Path_has_no_substitutions (path : text)
| Cannot_read_or_decode_index
| Could_not_split_entry (entry : text)
| Invalid_index_entry (entry : text)
| Not_a_CRC32_hash (path : text)
| File_does_not_exist (path : text)
| Hash_mismatch (path : text)
| Cannot_verify_hash (path : text)
| Appears_multiple_times (path : text)
| Cannot_get_stats (path : text)
| Cannot_update_timestamp (path : text)
| Cache_file_must_be_specified
| Extracting_cache
| Validating_substituted_files
| Moving_original_files
| Unused_file_from_cache (name : text)
| Cache_contains_unused_files.

(** A tar archive: its members in the order they were added. *)
Abbreviation archive := (list (list N * list byte)).

(** [source_tree_exists]: the tree root exists; [tree]: the nodes below it
    by relative path; [cache]: the file at the cache path, [None] when
    there is none; [log]: the records handed to the logger, oldest first.
    The cache path is taken to lie outside the tree. *)
Record world := {
  source_tree_exists : bool;
  tree : gmap (list N) node;
  cache : option archive;
  log : list (level * message)
}.

Definition set_tree (t : gmap (list N) node) (w : world) : world :=
  {| source_tree_exists := source_tree_exists w; tree := t;
     cache := cache w; log := log w |}.

Definition set_cache (c : option archive) (w : world) : world :=
  {| source_tree_exists := source_tree_exists w; tree := tree w;
     cache := c; log := log w |}.

Definition add_log (l : level) (m : message) (w : world) : world :=
  {| source_tree_exists := source_tree_exists w; tree := tree w;
     cache := cache w; log := log w ++ [(l, m)] |}.

(** ** The monad of the effectful functions *)

Definition M (A : Type) : Type := world → outcome A * world.

Definition ret {A} (a : A) : M A := λ w, (Ok a, w).

Definition raise {A} (e : exn) : M A := λ w, (Raise e, w).

Definition bind {A B} (m : M A) (k : A → M B) : M B :=
  λ w, match m w with
       | (Ok a, w') => k a w'
       | (Raise e, w') => (Raise e, w')
       end.

Notation "'let!' x ':=' m 'in' k" := (bind m (λ x, k))
  (at level 10, x pattern, m at level 100, k at level 200).

Definition get_world : M world := λ w, (Ok w, w).

Definition modify (f : world → world) : M unit := λ w, (Ok tt, f w).

(** [get_logger().<level>(...)] *)
Definition logger (l : level) (m : message) : M unit := modify (add_log l m).

(** [os.utime(path, ns=(atime, mtime))]; a missing path is the [OSError]
    that [_update_timestamp] turns into a warning. *)
Definition os_utime (path : text) (ns : Z * Z) (w : world) : world :=
  match tree w !! path with
  | Some f =>
      set_tree (<[path := {| kind := kind f; content := content f;
                             st_atime_ns := ns.1; st_mtime_ns := ns.2;
                             writable := writable f |}]> (tree w)) w
  | None => add_log WARNING (Cannot_update_timestamp path) w
  end.

(** The context manager [_update_timestamp], applied to the body of its
    [with] block: the new time stamps are computed from the [os.stat] taken
    before the body and set after it, also when the body raises. *)
Definition _update_timestamp {A} (path : text) (set_new : bool) (body : M A)
  : M A :=
  λ w, match tree w !! path with
       | None => body (add_log WARNING (Cannot_get_stats path) w)
       | Some stats =>
           let new_timestamp :=
             if set_new
             then (st_atime_ns stats + TIMESTAMP_DELTA,
                   st_mtime_ns stats + TIMESTAMP_DELTA)%Z
             else (st_atime_ns stats - TIMESTAMP_DELTA,
                   st_mtime_ns stats - TIMESTAMP_DELTA)%Z in
           match body w with
           | (r, w') => (r, os_utime path new_timestamp w')
           end
       end.

(** [path.chmod(path.stat().st_mode | stat.S_IWUSR)] *)
Definition chmod_add_write (path : text) : M unit :=
  modify (λ w,
    match tree w !! path with
    | Some f =>
        set_tree (<[path := {| kind := kind f; content := content f;
                               st_atime_ns := st_atime_ns f;
                               st_mtime_ns := st_mtime_ns f;
                               writable := true |}]> (tree w)) w
    | None => w
    end).

(** [if not os.access(path, os.W_OK): ... path.chmod(...)] for the node
    [f] found at [path]. *)
Definition ensure_writable (path : text) (f : node) : M unit :=
  if writable f then ret tt
  else let! _ := logger DEBUG (Adding_write_permission path) in
       chmod_add_write path.

(** [seek(0); write(data); truncate()] on the open file.  The time stamps
    stay as they are in the model: what the kernel sets on the read and on
    the write is replaced by the [os.utime] of [_update_timestamp] when
    the block of [apply_substitution] ends. *)
Definition write_file (path : text) (data : bytes) : M unit :=
  modify (λ w,
    match tree w !! path with
    | Some f =>
        set_tree (<[path := {| kind := kind f; content := data;
                               st_atime_ns := st_atime_ns f;
                               st_mtime_ns := st_mtime_ns f;
                               writable := writable f |}]> (tree w)) w
    | None => w
    end).

(** ** File Transformer *)

Section Transformer.
Context `{RegexEngine}.

(** The loop of [_apply_regex_substitutions]; [None] is an [re.error]
    raised by [subn]. *)
Fixpoint apply_regex_loop (regex_iter : list (re_pattern * text))
    (content : text) (total_subs : nat) : option (text * nat) :=
  match regex_iter with
  | [] => Some (content, total_subs)
  | (pattern, replacement) :: rest =>
      match re_subn pattern replacement content with
      | Some (content', sub_count) =>
          apply_regex_loop rest content' (total_subs + sub_count)%nat
      | None => None
      end
  end.

Definition _apply_regex_substitutions (content : text)
    (regex_iter : list (re_pattern * text)) : option (text * nat) :=
  apply_regex_loop regex_iter content 0%nat.

(** The block under [with path.open('r+b')] of [_substitute_path], for
    the node [f] found at [path]. *)
Definition rewrite_opened (path : text) (f : node)
    (regex_iter : list (re_pattern * text)) : M (option (N * bytes)) :=
  match kind f with
  | Directory => raise (FileProcessingError path)
  | _ =>
      let original_content := content f in
      match original_content with
      | [] => ret None
      | _ =>
          match _decode_file_content original_content with
          | Raise e => raise e
          | Ok content =>
              match _apply_regex_substitutions content regex_iter with
              | None => raise ReError
              | Some (substituted_content, total_subs) =>
                  if (0 <? total_subs)%nat then
                    match str_encode UTF_8 substituted_content with
                    | None => raise UnicodeEncodeError
                    | Some encoded_content =>
                        let! _ := write_file path encoded_content in
                        ret (Some (crc32 encoded_content, original_content))
                    end
                  else ret None
              end
          end
      end
  end.

(** [_substitute_path]: [Some (crc, original)] for a rewritten file,
    [None] for the pair [(None, None)]. *)
Definition _substitute_path (path : text)
    (regex_iter : list (re_pattern * text)) : M (option (N * bytes)) :=
  let! w := get_world in
  match tree w !! path with
  | None => raise FileNotFoundError
  | Some f =>
      let! _ := ensure_writable path f in
      rewrite_opened path f regex_iter
  end.
End Transformer.

(** ** Cache Writer: [apply_substitution] *)

(** [str(Path(a) / b)] for relative [b] *)
Definition path_join (a b : text) : text := a ++ [47] ++ b.

(** [cache_tar.addfile(tarinfo, file)] with [tarinfo.name = name] *)
Definition tar_addfile (name : text) (data : bytes) : M unit :=
  modify (λ w, set_cache (Some (default [] (cache w) ++ [(name, data)])) w).

(** The line ['{}{}{:08x}\n'.format(relative_path, INDEX_HASH_DELIMITER, crc)] *)
Definition index_line (relative_path : text) (crc32_hash : N) : text :=
  relative_path ++ [INDEX_HASH_DELIMITER] ++ format_08x crc32_hash ++ [10].

Section CacheWriter.
Context `{RegexEngine}.

(** One turn of the loop over the substitution list; the result is the
    content index written so far ([fileindex_content]).  The path
    [resolved_tree / relative_path] is the key [relative_path] of the
    tree, which is the file the line names when [own_name] holds. *)
Definition apply_entry (regex_pairs : list (re_pattern * text))
    (domainsub_cache : bool) (relative_path : text)
    (fileindex_content : bytes) : M bytes :=
  if bool_decide (INDEX_HASH_DELIMITER ∈ relative_path) then
    let! _ := (if domainsub_cache then modify (set_cache None) else ret tt) in
    raise (ValueError relative_path)
  else
    let! w := get_world in
    match tree w !! relative_path with
    | None =>
        let! _ := logger WARNING (Skipping_nonexistant_path relative_path) in
        ret fileindex_content
    | Some f =>
        match kind f with
        | Symlink =>
            let! _ := logger WARNING (Skipping_symlink relative_path) in
            ret fileindex_content
        | _ =>
            let! r := _update_timestamp relative_path true
                        (_substitute_path relative_path regex_pairs) in
            match r with
            | None =>
                let! _ := logger INFO (Path_has_no_substitutions relative_path) in
                ret fileindex_content
            | Some (crc32_hash, orig_content) =>
                if domainsub_cache then
                  match str_encode ENCODING (index_line relative_path crc32_hash) with
                  | None => raise UnicodeEncodeError
                  | Some line =>
                      let! _ := tar_addfile (path_join ORIG_DIR_NAME relative_path)
                                  orig_content in
                      ret (fileindex_content ++ line)
                  end
                else ret fileindex_content
            end
        end
    end.

Fixpoint apply_loop (regex_pairs : list (re_pattern * text))
    (domainsub_cache : bool) (paths : list text)
    (fileindex_content : bytes) : M bytes :=
  match paths with
  | [] => ret fileindex_content
  | relative_path :: rest =>
      let! fileindex_content' :=
        apply_entry regex_pairs domainsub_cache relative_path fileindex_content in
      apply_loop regex_pairs domainsub_cache rest fileindex_content'
  end.

(** [regex_path] and [files_path] are the decoded contents of the rule
    file and of the list file ([None]: no such file); [domainsub_cache]
    tells whether a cache path was given.  [tarfile.open(..., 'w')]
    creates the archive file at once; the compression its suffix selects
    is not part of the model, which takes the suffix to be one that
    [tarfile.open] accepts together with [compresslevel] ([.gz],
    [.bz2]). *)
Definition apply_substitution (regex_path files_path : option text)
    (domainsub_cache : bool) : M unit :=
  let! w := get_world in
  if negb (source_tree_exists w) then raise FileNotFoundError else
  match regex_path with
  | None => raise FileNotFoundError
  | Some _ =>
  match files_path with
  | None => raise FileNotFoundError
  | Some files_text =>
  if domainsub_cache && bool_decide (is_Some (cache w)) then raise FileExistsError else
  match DomainRegexList regex_path with
  | Raise e => raise e
  | Ok _data =>
  match regex_pairs _data with
  | Raise e => raise e
  | Ok pairs =>
      let! _ := (if domainsub_cache then modify (set_cache (Some [])) else ret tt) in
      let! fileindex_content :=
        apply_loop pairs domainsub_cache (filter_len (splitlines files_text)) [] in
      if domainsub_cache
      then tar_addfile INDEX_LIST_FILENAME fileindex_content
      else ret tt
  end end end end.
End CacheWriter.

(** ** Cache Verifier *)

(** [_validate_index_entry]: the verdict and the updated set
    [cache_index_files].  [exists()] and [read_bytes()] are look-ups in
    the tree under the text of [relative_path]; what the read does to the
    access time and the [OSError] of [exists()] for a name the file system
    refuses are not represented. *)
Definition _validate_index_entry (entry : text) (cache_index_files : gset (list N))
  : M (bool * gset (list N)) :=
  match str_split1 INDEX_HASH_DELIMITER entry with
  | [relative_path; file_hash] =>
      if bool_decide (relative_path = []) || bool_decide (file_hash = []) then
        let! _ := logger ERROR (Invalid_index_entry entry) in
        ret (false, cache_index_files)
      else if negb (crc32_regex_match file_hash) then
        let! _ := logger ERROR (Not_a_CRC32_hash relative_path) in
        ret (false, cache_index_files)
      else
        let! w := get_world in
        match tree w !! relative_path with
        | None =>
            let! _ := logger ERROR (File_does_not_exist relative_path) in
            ret (false, cache_index_files)
        | Some f =>
            match kind f with
            | Directory =>
                let! _ := logger ERROR (Cannot_verify_hash relative_path) in
                ret (false, cache_index_files)
            | _ =>
                let actual_hash := crc32 (content f) in
                match int_base16 file_hash with
                | None =>
                    let! _ := logger ERROR (Cannot_verify_hash relative_path) in
                    ret (false, cache_index_files)
                | Some recorded =>
                    if negb (actual_hash =? recorded) then
                      let! _ := logger ERROR (Hash_mismatch relative_path) in
                      ret (false, cache_index_files)
                    else if bool_decide (relative_path ∈ cache_index_files) then
                      let! _ := logger ERROR (Appears_multiple_times relative_path) in
                      ret (false, cache_index_files)
                    else ret (true, {[relative_path]} ∪ cache_index_files)
                end
            end
        end
  | _ =>
      let! _ := logger ERROR (Could_not_split_entry entry) in
      ret (false, cache_index_files)
  end.

(** The loop of [_validate_file_index] over the lines of the index. *)
Fixpoint validate_entries (entries : list text) (all_hashes_valid : bool)
    (cache_index_files : gset (list N)) : M (bool * gset (list N)) :=
  match entries with
  | [] => ret (all_hashes_valid, cache_index_files)
  | entry :: rest =>
      let! (valid, cache_index_files') :=
        _validate_index_entry entry cache_index_files in
      validate_entries rest (if valid then all_hashes_valid else false)
        cache_index_files'
  end.

Definition _validate_file_index (index_file : bytes)
    (cache_index_files : gset (list N)) : M (bool * gset (list N)) :=
  match bytes_decode ENCODING index_file with
  | None =>
      let! _ := logger ERROR Cannot_read_or_decode_index in
      ret (false, cache_index_files)
  | Some index_content =>
      validate_entries (splitlines index_content) true cache_index_files
  end.

(** ** Revert Engine: [revert_substitution] *)

(** Modelled from the spec: [extract_tar_file] of the module [_extraction],
    which is not part of the sources at hand ("unpacks a tar-format cache
    into a directory").  The directory is a map from member names to their
    bytes; of two members of one name the later one stays. *)
Definition extract_tar_file (a : archive) : gmap (list N) (list byte) :=
  list_to_map (reverse a).

(** [src.replace(dst)]: the extracted file is renamed over the tree file.
    The renamed file keeps the time stamps and mode extraction gave it.
    [src] and [dst] are taken by their texts, and the modification time
    the rename gives to the directory of [dst] is not represented. *)
Definition replace_file (extracted : gmap (list N) (list byte))
    (src dst : text) : M (gmap (list N) (list byte)) :=
  match extracted !! src with
  | None => raise FileNotFoundError
  | Some data =>
      let! w := get_world in
      match kind <$> tree w !! dst with
      | Some Directory => raise (FileProcessingError dst)
      | _ =>
          let! _ := modify (λ w,
            set_tree (<[dst := {| kind := Regular; content := data;
                                  st_atime_ns := 0; st_mtime_ns := 0;
                                  writable := true |}]> (tree w)) w) in
          ret (delete src extracted)
      end
  end.

(** The loop that moves the originals over the substituted files. *)
Fixpoint revert_loop (paths : list text)
    (extracted : gmap (list N) (list byte)) : M (gmap (list N) (list byte)) :=
  match paths with
  | [] => ret extracted
  | relative_path :: rest =>
      let! extracted' :=
        _update_timestamp relative_path false
          (replace_file extracted (path_join ORIG_DIR_NAME relative_path)
             relative_path) in
      revert_loop rest extracted'
  end.

(** The names [(extract_path / ORIG_DIR_NAME).rglob('*')] finds: the files
    left below the directory of the originals. *)
Definition orig_files (extracted : gmap (list N) (list byte)) : list text :=
  filter (λ name : list N, (ORIG_DIR_NAME ++ [47]) `prefix_of` name)
         (map_to_list extracted).*1.

Fixpoint warn_unused (names : list text) : M unit :=
  match names with
  | [] => ret tt
  | name :: rest =>
      let! _ := logger WARNING (Unused_file_from_cache name) in
      warn_unused rest
  end.

(** [domainsub_cache] tells whether a cache path was given ([None]
    otherwise, on which [.exists()] is an [AttributeError]).  The temporary
    directory of the extraction lives in [extracted]; it is removed on
    every way out.  The set [cache_index_files] is walked in the order of
    [elements]. *)
Definition revert_substitution (domainsub_cache : bool) : M unit :=
  if negb domainsub_cache then
    let! _ := logger ERROR Cache_file_must_be_specified in
    raise AttributeError
  else
    let! w := get_world in
    match cache w with
    | None => raise FileNotFoundError
    | Some cache_tar =>
        if negb (source_tree_exists w) then raise FileNotFoundError else
        let! _ := logger DEBUG Extracting_cache in
        let extracted := extract_tar_file cache_tar in
        let! _ := logger DEBUG Validating_substituted_files in
        match extracted !! INDEX_LIST_FILENAME with
        | None => raise FileNotFoundError
        | Some index_file =>
            let! (valid, cache_index_files) := _validate_file_index index_file ∅ in
            if negb valid then raise KeyError else
            let! _ := logger DEBUG Moving_original_files in
            let! extracted' := revert_loop (elements cache_index_files) extracted in
            let unused := orig_files extracted' in
            let! _ := warn_unused unused in
            match unused with
            | _ :: _ => logger WARNING Cache_contains_unused_files
            | [] => modify (set_cache None)
            end
        end
    end.

(** ** A regular-expression engine for literal rules

    The instance used to run the module on concrete inputs.  It covers the
    rules whose pattern is a literal text (a metacharacter only after a
    backslash) and whose replacement has no backslash; there it computes
    what Python's [re] computes, the empty pattern included (it matches
    before every character and at the end).  Everything else is refused by
    the instance. *)

Definition is_metachar (c : N) : bool :=
  bool_decide (c ∈ [46; 94; 36; 42; 43; 63; 123; 125; 91; 93; 92; 124; 40; 41]).

Fixpoint literal_of_pattern (p : text) : option text :=
  match p with
  | [] => Some []
  | 92 :: c :: rest =>
      if is_alnum c then None else cons c <$> literal_of_pattern rest
  | c :: rest =>
      if is_metachar c then None else cons c <$> literal_of_pattern rest
  end.

Fixpoint literal_subn_from (lit repl : text) (skip : nat) (s : text)
  : text * nat :=
  match s with
  | [] =>
      match lit with
      | [] => (repl, 1%nat)
      | _ => ([], 0%nat)
      end
  | c :: s' =>
      match skip with
      | S k => literal_subn_from lit repl k s'
      | O =>
          if bool_decide (lit `prefix_of` s) then
            match lit with
            | [] =>
                let '(out, n) := literal_subn_from lit repl 0 s' in
                (repl ++ c :: out, S n)
            | _ =>
                let '(out, n) := literal_subn_from lit repl (length lit - 1) s' in
                (repl ++ out, S n)
            end
          else
            let '(out, n) := literal_subn_from lit repl 0 s' in
            (c :: out, n)
      end
  end.

Definition literal_subn (lit repl s : text) : option (text * nat) :=
  if bool_decide (92 ∈ repl) then None
  else Some (literal_subn_from lit repl 0 s).

#[export] Instance literal_engine : RegexEngine := {|
  re_pattern := list N;
  re_compile := literal_of_pattern;
  re_subn := literal_subn
|}.

(** ** Concrete trees and rule files for the examples *)

Definition regular_file (data : string) (atime mtime : Z) : node :=
  {| kind := Regular; content := pyb data; st_atime_ns := atime;
     st_mtime_ns := mtime; writable := true |}.

(** A tree holding [config.txt] with the text of the example scenario. *)
Definition config_world : world :=
  {| source_tree_exists := true;
     tree := {[ py "config.txt" := regular_file "Visit example.com today" 7000 5000 ]};
     cache := None;
     log := [] |}.

Definition config_rules : text := py "example\.com#example.invalid".

(** A tree with two files [a] and [b] that both hold [foo]. *)
Definition two_files_world : world :=
  {| source_tree_exists := true;
     tree := {[ py "a" := regular_file "foo" 7000 5000;
                py "b" := regular_file "foo" 8000 6000 ]};
     cache := None;
     log := [] |}.

Definition foo_bar_rules : text := py "foo#bar".

(** [lines ls] is the text of a file with the lines [ls]. *)
Definition lines (ls : list text) : text :=
  concat ((λ l, l ++ [10]) <$> ls).

(** The index of two lines that are no index entries, and an archive that
    holds one original more than its index names. *)
Definition broken_index : bytes := pyb "bad" ++ [x0a] ++ pyb "alsobad" ++ [x0a].

Definition archive_with_unused : archive :=
  [(py "orig/a", pyb "foo"); (py "orig/extra", pyb "spare");
   (py "cache_index.list", pyb "a|76ff8caa" ++ [x0a])].

Definition substituted_a_world : world :=
  {| source_tree_exists := true;
     tree := {[ py "a" := regular_file "bar" 1000007000 1000005000 ]};
     cache := Some archive_with_unused;
     log := [] |}.

(** Nanoseconds in a second and in a year of 365 days. *)
Definition ns_per_second : Z := 1000000000.
Definition ns_per_year : Z := 365 * 24 * 3600 * ns_per_second.

(** ** Predicates used in the statements *)

(** [w'] has the tree of [w] except possibly at [p]. *)
Definition tree_same_except (p : text) (w w' : world) : Prop :=
  ∀ q, q ≠ p → tree w' !! q = tree w !! q.

(** [f'] is [f] up to its bytes and its write permission. *)
Definition same_meta (f f' : node) : Prop :=
  kind f' = kind f ∧ st_atime_ns f' = st_atime_ns f ∧
  st_mtime_ns f' = st_mtime_ns f.

Definition is_lower_hex (c : N) : Prop :=
  (48 ≤ c ∧ c ≤ 57) ∨ (97 ≤ c ∧ c ≤ 102).

Definition no_linebreak (l : text) : Prop :=
  Forall (λ c, is_linebreak c = false) l.

(** What apply records for one rewritten file: its path, its bytes before
    the rewrite, the checksum of its bytes after it, and the encoded line
    of the content index. *)
Record index_entry := {
  ie_path : text;
  ie_orig : bytes;
  ie_crc : N;
  ie_line : bytes
}.

Definition orig_member (e : index_entry) : list N * list byte :=
  (path_join ORIG_DIR_NAME (ie_path e), ie_orig e).

(** The text of an index line without its line end. *)
Definition entry_text (relative_path : text) (crc32_hash : N) : text :=
  relative_path ++ [INDEX_HASH_DELIMITER] ++ format_08x crc32_hash.

(** Every recorded path has a record whose checksum is that of the bytes
    now in the tree. *)
Definition matches_tree (S : list index_entry) (w : world) : Prop :=
  ∀ e, e ∈ S →
    ∃ e' f, e' ∈ S ∧ ie_path e' = ie_path e ∧
            tree w !! ie_path e = Some f ∧ crc32 (content f) = ie_crc e'.

(** [p] is a file that apply rewrote: the archive at the cache path holds
    its original. *)
Definition substituted (w : world) (p : text) : Prop :=
  ∃ data, (path_join ORIG_DIR_NAME p, data) ∈ default [] (cache w).

(** The world after one byte of the file at [p] was changed. *)
Definition mutate_byte (p : text) (i : nat) (b : byte) (w : world) : world :=
  match tree w !! p with
  | Some f =>
      set_tree (<[p := {| kind := kind f; content := <[i := b]> (content f);
                          st_atime_ns := st_atime_ns f;
                          st_mtime_ns := st_mtime_ns f;
                          writable := writable f |}]> (tree w)) w
  | None => w
  end.

(** The revert comes to a Verifier that answers "invalid". *)
Definition verification_fails (w : world) : Prop :=
  ∃ cache_tar index_file files wv,
    cache w = Some cache_tar ∧ source_tree_exists w = true ∧
    extract_tar_file cache_tar !! INDEX_LIST_FILENAME = Some index_file ∧
    _validate_file_index index_file ∅
      (add_log DEBUG Validating_substituted_files (add_log DEBUG Extracting_cache w))
      = (Ok (false, files), wv).

(** [w] is the world a successful apply with a cache left behind, but for
    one byte of one rewritten file. *)
Definition mutated_after_apply `{RegexEngine} (w : world) : Prop :=
  ∃ regex_text files_text w0 w1 p f i b b',
    apply_substitution (Some regex_text) (Some files_text) true w0 = (Ok (), w1) ∧
    substituted w1 p ∧ tree w1 !! p = Some f ∧
    content f !! i = Some b ∧ b' ≠ b ∧
    w = mutate_byte p i b' w1.

(** A tree with a cache archive whose index holds no valid entry. *)
Definition broken_cache_world : world :=
  {| source_tree_exists := true;
     tree := tree two_files_world;
     cache := Some [(INDEX_LIST_FILENAME, broken_index)];
     log := [] |}.

(** The example scenario after apply. *)
Definition config_applied : world :=
  (apply_substitution (Some config_rules) (Some (py "config.txt")) true
     config_world).2.

(** The list that names the file [a] twice, and the world after apply. *)
Definition twice_a_applied : world :=
  (apply_substitution (Some foo_bar_rules) (Some (lines [py "a"; py "a"])) true
     two_files_world).2.

(** ** Further predicates and examples *)

(** The node after [chmod] has added the owner's write permission. *)
Definition make_writable (f : node) : node :=
  {| kind := kind f; content := content f; st_atime_ns := st_atime_ns f;
     st_mtime_ns := st_mtime_ns f; writable := true |}.

(** The node with other bytes. *)
Definition with_content (f : node) (data : bytes) : node :=
  {| kind := kind f; content := data; st_atime_ns := st_atime_ns f;
     st_mtime_ns := st_mtime_ns f; writable := writable f |}.

(** The exceptions of the checks [apply_substitution] makes before its
    loop, and those a file transform can end with. *)
Definition precondition_error (e : exn) : Prop :=
  e = FileNotFoundError ∨ e = FileExistsError ∨ ∃ r, e = DomainRegexError r.

Definition transform_error (e : exn) : Prop :=
  (∃ p, e = FileProcessingError p) ∨ e = ReError ∨ e = UnicodeEncodeError.

(** A tree with the file [a] and the directory [d]. *)
Definition dir_world : world :=
  {| source_tree_exists := true;
     tree := {[ py "a" := regular_file "foo" 7000 5000;
                py "d" := {| kind := Directory; content := [];
                             st_atime_ns := 100; st_mtime_ns := 200;
                             writable := true |} ]};
     cache := None;
     log := [] |}.

(** A read-only file holding [foo]. *)
Definition readonly_world : world :=
  {| source_tree_exists := true;
     tree := {[ py "a" := {| kind := Regular; content := pyb "foo";
                             st_atime_ns := 7000; st_mtime_ns := 5000;
                             writable := false |} ]};
     cache := None;
     log := [] |}.

(** The node with other time stamps. *)
Definition with_times (f : node) (atime mtime : Z) : node :=
  {| kind := kind f; content := content f; st_atime_ns := atime;
     st_mtime_ns := mtime; writable := writable f |}.

(** The node [g] with the time stamps of [f] moved by [d]. *)
Definition moved_times (f g : node) (d : Z) : node :=
  with_times g (st_atime_ns f + d) (st_mtime_ns f + d).

(** Every member of the archive is an original below [orig/]. *)
Definition only_originals (a : archive) : Prop :=
  Forall (λ m, ∃ p, m.1 = path_join ORIG_DIR_NAME p) a.

(** The paths the substitution list names. *)
Definition listed_paths (files_path : option text) : list text :=
  filter_len (splitlines (default [] files_path)).

(** The index line [entry] names the path [p] and the checksum of the
    bytes the file at [p] holds in the tree of [w]. *)
Definition entry_matches (w : world) (entry p : text) : Prop :=
  ∃ h f, entry = p ++ INDEX_HASH_DELIMITER :: h ∧
         (INDEX_HASH_DELIMITER ∉ p) ∧ p ≠ [] ∧
         crc32_regex_match h = true ∧
         tree w !! p = Some f ∧ kind f ≠ Directory ∧
         int_base16 h = Some (crc32 (content f)).

(** The text before the first [INDEX_HASH_DELIMITER] of every line of the
    content index in the archive of [w]. *)
Definition index_paths (w : world) : list text :=
  match cache w with
  | Some cache_tar =>
      match extract_tar_file cache_tar !! INDEX_LIST_FILENAME with
      | Some index_file =>
          match bytes_decode ENCODING index_file with
          | Some index_content =>
              (λ entry, default [] (head (str_split1 INDEX_HASH_DELIMITER entry)))
                <$> splitlines index_content
          | None => []
          end
      | None => []
      end
  | None => []
  end.

(** An archive whose index names the file [b], of which it holds no
    original. *)
Definition archive_without_original : archive :=
  [(py "orig/a", pyb "foo");
   (py "cache_index.list", pyb "a|76ff8caa" ++ [x0a] ++ pyb "b|8c736521" ++ [x0a])].

Definition missing_original_world : world :=
  {| source_tree_exists := true;
     tree := {[ py "a" := regular_file "bar" 1000007000 1000005000;
                py "b" := regular_file "foo" 8000 6000;
                py "c" := regular_file "foo" 9000 4000 ]};
     cache := Some archive_without_original;
     log := [] |}.

(** A tree with the file [a] and the symbolic link [l] to it. *)
Definition symlink_world : world :=
  {| source_tree_exists := true;
     tree := {[ py "a" := regular_file "foo" 7000 5000;
                py "l" := {| kind := Symlink; content := pyb "foo";
                             st_atime_ns := 300; st_mtime_ns := 400;
                             writable := true |} ]};
     cache := None;
     log := [] |}.


(** ** Paths that are keys of the tree *)

(** [s.split(sep)] for a one-character separator. *)
Fixpoint str_split (sep : N) (s : list N) : list (list N) :=
  match s with
  | [] => [[]]
  | c :: s' =>
      if c =? sep then [] :: str_split sep s'
      else match str_split sep s' with
           | a :: rest => (c :: a) :: rest
           | [] => [[c]]
           end
  end.

(** A component that [pathlib] and the file system keep as it is: not
    empty, not [.] and not [..]. *)
Definition plain_component (c : text) : bool :=
  negb (bool_decide (c = [])) && negb (bool_decide (c = [46]))
  && negb (bool_decide (c = [46; 46])).

(** A relative path with plain components only: it does not start or end
    with [/], and [Path(a) / p] is the text [a/p]. *)
Definition plain_path (p : text) : bool :=
  forallb plain_component (str_split 47 p).

(** The directories above [p]: the texts before each [/] of [p]. *)
Fixpoint parents_from (before rest : text) : list text :=
  match rest with
  | [] => []
  | c :: rest' =>
      (if c =? 47 then [before] else []) ++ parents_from (before ++ [c]) rest'
  end.

Definition parents (p : text) : list text := parents_from [] p.

Definition is_symlink (w : world) (p : text) : bool :=
  match tree w !! p with
  | Some f => match kind f with Symlink => true | _ => false end
  | None => false
  end.

(** [p] is written as the key of the file it names in the tree of [w]: a
    plain path that passes no symbolic link on its way. *)
Definition own_name (w : world) (p : text) : bool :=
  plain_path p && forallb (λ d, negb (is_symlink w d)) (parents p).

(** The archive at the cache path has plain member names, and the lines
    of its index name their files by their keys. *)
Definition plain_archive (w : world) : bool :=
  forallb (λ m : list N * list byte, plain_path m.1) (default [] (cache w))
  && forallb (own_name w) (index_paths w).

(** * Properties *)

(** ** Sanity checks of the library models *)

Example crc32_check_value : crc32 (pyb "123456789") = 0xCBF43926.
Proof. vm_compute. reflexivity. Qed.

Example format_08x_small : format_08x 0x1a2b = py "00001a2b".
Proof. vm_compute. reflexivity. Qed.

Example utf8_decode_rejects : utf8_decode [xff] = None.
Proof. reflexivity. Qed.

Example utf8_decode_euro : utf8_decode [xe2; x82; xac] = Some [0x20AC].
Proof. vm_compute. reflexivity. Qed.

Example utf8_encode_euro : utf8_encode [0x20AC] = Some [xe2; x82; xac].
Proof. vm_compute. reflexivity. Qed.

Example splitlines_crlf :
  splitlines [97; 13; 10; 98; 10; 10; 99] = [[97]; [98]; []; [99]].
Proof. reflexivity. Qed.

Example literal_subn_empty_pattern :
  literal_subn [] (py "X") (py "abc") = Some (py "XaXbXcX", 4%nat).
Proof. vm_compute. reflexivity. Qed.

(** ** [str.split] and [str.splitlines] *)

Lemma str_split1_absent sep s :
  sep ∉ s → str_split1 sep s = [s].
Proof.
  induction s as [|c s IH]; intros Hn; simpl; [done|].
  apply not_elem_of_cons in Hn as [Hc Hs].
  destruct (N.eqb_spec c sep) as [->|_]; [done|].
  by rewrite (IH Hs).
Qed.

Lemma str_split1_first sep a b :
  sep ∉ a → str_split1 sep (a ++ sep :: b) = [a; b].
Proof.
  induction a as [|c a IH]; intros Hn; simpl.
  - by rewrite N.eqb_refl.
  - apply not_elem_of_cons in Hn as [Hc Ha].
    destruct (N.eqb_spec c sep) as [->|_]; [done|].
    by rewrite (IH Ha).
Qed.

Lemma elem_of_filter_len (l : list N) ls :
  l ∈ filter_len ls ↔ l ≠ [] ∧ l ∈ ls.
Proof. unfold filter_len. by rewrite list_elem_of_filter. Qed.

(** ** Pattern Table *)

Section PatternTableFacts.
Context `{RegexEngine}.

Lemma regex_pairs_raises_regex_error _data e :
  regex_pairs _data = Raise e → ∃ r, e = DomainRegexError r.
Proof.
  revert e. induction _data as [|line rest IH]; intros e; simpl; [done|].
  destruct (_compile_regex line) as [p|e'] eqn:Hc.
  - destruct (regex_pairs rest) as [ps|e'']; [done|].
    intros [= <-]. by apply IH.
  - intros [= <-]. unfold _compile_regex in Hc.
    destruct (str_split1 _ line) as [|pat [|repl [|? ?]]]; simplify_eq; eauto.
    destruct (re_compile pat); simplify_eq; eauto.
Qed.

Lemma regex_pairs_ok_all _data pairs line :
  regex_pairs _data = Ok pairs → line ∈ _data →
  ∃ p, _compile_regex line = Ok p.
Proof.
  revert pairs. induction _data as [|l rest IH]; intros pairs; simpl.
  - intros _ Hin. by apply elem_of_nil in Hin.
  - destruct (_compile_regex l) as [p|e] eqn:Hc; [|done].
    destruct (regex_pairs rest) as [ps|e]; [|done].
    intros _ [->|Hin]%elem_of_cons; eauto.
Qed.

Lemma _compile_regex_no_delimiter line :
  PATTERN_REPLACE_DELIMITER ∉ line →
  _compile_regex line = Raise (DomainRegexError (Invalid_regex_line_format line)).
Proof. intros Hn. unfold _compile_regex. by rewrite str_split1_absent. Qed.

Lemma _compile_regex_first_delimiter pattern replacement :
  PATTERN_REPLACE_DELIMITER ∉ pattern →
  _compile_regex (pattern ++ PATTERN_REPLACE_DELIMITER :: replacement) =
    match re_compile pattern with
    | Some compiled_pattern => Ok (compiled_pattern, replacement)
    | None => Raise (DomainRegexError (Failed_to_compile pattern))
    end.
Proof. intros Hn. unfold _compile_regex. by rewrite str_split1_first. Qed.

(** C5, as the code has it: a rule-file line that begins with [#] is
    not a comment.  It is kept among the lines of the table, it is
    compiled as the rule with the empty pattern and the rest of the line
    as replacement, and it puts the empty alternative into the combined
    search expression. *)
Theorem C5_hash_line_is_a_rule (file rest : text) (_data : list text) :
  DomainRegexList (Some file) = Ok _data →
  (PATTERN_REPLACE_DELIMITER :: rest) ∈ splitlines file →
  (PATTERN_REPLACE_DELIMITER :: rest) ∈ _data ∧
  _compile_regex (PATTERN_REPLACE_DELIMITER :: rest) =
    match re_compile [] with
    | Some compiled_pattern => Ok (compiled_pattern, rest)
    | None => Raise (DomainRegexError (Failed_to_compile []))
    end ∧
  [] ∈ pattern_strings _data.
Proof.
  intros [= <-] Hin.
  assert (Hd : (PATTERN_REPLACE_DELIMITER :: rest) ∈ filter_len (splitlines file))
    by (by apply elem_of_filter_len).
  split; [done|]. split.
  - apply (_compile_regex_first_delimiter [] rest), not_elem_of_nil.
  - unfold pattern_strings. apply list_elem_of_fmap.
    exists (PATTERN_REPLACE_DELIMITER :: rest). split; [|done].
    reflexivity.
Qed.

(** C6, as the code has it: a non-empty rule line without the delimiter
    aborts the construction of the table with the rule-format error; a
    line with one or more delimiters is split at the first one only, the
    rest of the line, further delimiters included, being the replacement,
    and no format error is raised for it. *)
Theorem C6_split_at_first_delimiter (line : text) :
  (PATTERN_REPLACE_DELIMITER ∉ line →
   _compile_regex line = Raise (DomainRegexError (Invalid_regex_line_format line)) ∧
   ∀ _data, line ∈ _data → ∃ r, regex_pairs _data = Raise (DomainRegexError r)) ∧
  (∀ pattern replacement,
     line = pattern ++ PATTERN_REPLACE_DELIMITER :: replacement →
     PATTERN_REPLACE_DELIMITER ∉ pattern →
     _compile_regex line =
       match re_compile pattern with
       | Some compiled_pattern => Ok (compiled_pattern, replacement)
       | None => Raise (DomainRegexError (Failed_to_compile pattern))
       end).
Proof.
  split.
  - intros Hn. split; [by apply _compile_regex_no_delimiter|].
    intros _data Hin.
    destruct (regex_pairs _data) as [pairs|e] eqn:Hp.
    + destruct (regex_pairs_ok_all _ _ _ Hp Hin) as [p Hc].
      by rewrite _compile_regex_no_delimiter in Hc.
    + destruct (regex_pairs_raises_regex_error _ _ Hp) as [r ->]. eauto.
  - intros pattern replacement -> Hn.
    by apply _compile_regex_first_delimiter.
Qed.
End PatternTableFacts.

(** C5, witness: the rule file of the two lines [a#b] and [#foo]. *)
Lemma C5_hash_line_is_a_rule_witness :
  let file := py "a#b" ++ [10] ++ py "#foo" in
  py "#foo" ∈ filter_len (splitlines file) ∧
  _compile_regex (py "#foo") = Ok ([], py "foo") ∧
  [] ∈ pattern_strings (filter_len (splitlines file)).
Proof.
  intros file.
  assert (H1 : DomainRegexList (Some file) = Ok (filter_len (splitlines file)))
    by reflexivity.
  assert (H2 : (PATTERN_REPLACE_DELIMITER :: py "foo") ∈ splitlines file)
    by compute_done.
  exact (C5_hash_line_is_a_rule file (py "foo") _ H1 H2).
Defined.

(** C5, counterexample: the rule file made of the one line [#foo] yields a
    table with one pair and a search expression with one alternative. *)
Lemma C5_comment_line_counterexample :
  DomainRegexList (Some (py "#foo")) = Ok [py "#foo"] ∧
  regex_pairs [py "#foo"] = Ok [([], py "foo")] ∧
  pattern_strings [py "#foo"] = [[]] ∧
  ¬ (regex_pairs [py "#foo"] = Ok [] ∧ pattern_strings [py "#foo"] = []).
Proof.
  split; [reflexivity|]. split; [reflexivity|]. split; [reflexivity|].
  intros [Hp _]. vm_compute in Hp. discriminate Hp.
Qed.

(** C6, witness: the line [ab] has no delimiter, the line [a#b#c] has
    two. *)
Lemma C6_split_at_first_delimiter_witness :
  (_compile_regex (py "ab")
     = Raise (DomainRegexError (Invalid_regex_line_format (py "ab"))) ∧
   ∃ r, regex_pairs [py "x#y"; py "ab"] = Raise (DomainRegexError r)) ∧
  _compile_regex (py "a#b#c") = Ok (py "a", py "b#c").
Proof.
  split.
  - assert (Hn : PATTERN_REPLACE_DELIMITER ∉ py "ab") by compute_done.
    destruct (proj1 (C6_split_at_first_delimiter (py "ab")) Hn) as [H1 H2].
    split; [exact H1|]. apply H2. compute_done.
  - assert (Hn : PATTERN_REPLACE_DELIMITER ∉ py "a") by compute_done.
    exact (proj2 (C6_split_at_first_delimiter (py "a#b#c"))
             (py "a") (py "b#c") eq_refl Hn).
Defined.

(** C6, counterexample: the line [a#b#c] holds two delimiters, and the
    table is built from it without an error. *)
Lemma C6_two_delimiters_counterexample :
  length (filter (λ c, c = PATTERN_REPLACE_DELIMITER) (py "a#b#c")) = 2%nat ∧
  _compile_regex (py "a#b#c") = Ok (py "a", py "b#c") ∧
  regex_pairs [py "a#b#c"] = Ok [(py "a", py "b#c")].
Proof. split; [reflexivity|]. split; reflexivity. Qed.

(** ** Codecs *)

Lemma to_N_byte_of_N n : n < 256 → Byte.to_N (byte_of_N n) = n.
Proof.
  intros Hn. unfold byte_of_N.
  destruct (Byte.of_N n) as [b|] eqn:E; simpl.
  - by apply Byte.to_of_N.
  - apply Byte.of_N_None_iff in E. lia.
Qed.

Local Ltac Zify.zify_post_hook ::= Z.to_euclidean_division_equations.

Local Ltac decide_test :=
  idtac;
  first [ rewrite (proj2 (N.ltb_lt _ _)) by lia
        | rewrite (proj2 (N.ltb_ge _ _)) by lia
        | rewrite (proj2 (N.leb_le _ _)) by lia
        | rewrite (proj2 (N.leb_gt _ _)) by lia
        | rewrite (proj2 (N.eqb_eq _ _)) by lia
        | rewrite (proj2 (N.eqb_neq _ _)) by lia ];
  cbn [andb orb negb]; cbv beta iota.

Local Ltac decide_tests := repeat decide_test.

Lemma utf8_decode_1 b r :
  Byte.to_N b < 0x80 →
  utf8_decode (b :: r) = cons (Byte.to_N b) <$> utf8_decode r.
Proof. intros. simpl. decide_tests. done. Qed.

Lemma utf8_decode_2 b0 b1 r :
  0xC2 ≤ Byte.to_N b0 ≤ 0xDF → 0x80 ≤ Byte.to_N b1 ≤ 0xBF →
  utf8_decode (b0 :: b1 :: r) =
    cons ((Byte.to_N b0 - 0xC0) * 64 + (Byte.to_N b1 - 0x80)) <$> utf8_decode r.
Proof.
  intros. cbn [utf8_decode]. unfold is_continuation.
  decide_tests. done.
Qed.

Lemma utf8_decode_3 b0 b1 b2 r :
  0xE0 ≤ Byte.to_N b0 ≤ 0xEF →
  (if Byte.to_N b0 =? 0xE0 then 0xA0 else 0x80) ≤ Byte.to_N b1 →
  Byte.to_N b1 ≤ (if Byte.to_N b0 =? 0xED then 0x9F else 0xBF) →
  0x80 ≤ Byte.to_N b2 ≤ 0xBF →
  utf8_decode (b0 :: b1 :: b2 :: r) =
    cons ((Byte.to_N b0 - 0xE0) * 4096 + (Byte.to_N b1 - 0x80) * 64
          + (Byte.to_N b2 - 0x80)) <$> utf8_decode r.
Proof.
  intros ? Hlo Hhi ?. cbn [utf8_decode]. unfold is_continuation.
  do 5 decide_test.
  rewrite (proj2 (N.leb_le _ _) Hlo), (proj2 (N.leb_le _ _) Hhi).
  decide_tests. done.
Qed.

Lemma utf8_decode_4 b0 b1 b2 b3 r :
  0xF0 ≤ Byte.to_N b0 ≤ 0xF4 →
  (if Byte.to_N b0 =? 0xF0 then 0x90 else 0x80) ≤ Byte.to_N b1 →
  Byte.to_N b1 ≤ (if Byte.to_N b0 =? 0xF4 then 0x8F else 0xBF) →
  0x80 ≤ Byte.to_N b2 ≤ 0xBF → 0x80 ≤ Byte.to_N b3 ≤ 0xBF →
  utf8_decode (b0 :: b1 :: b2 :: b3 :: r) =
    cons ((Byte.to_N b0 - 0xF0) * 262144 + (Byte.to_N b1 - 0x80) * 4096
          + (Byte.to_N b2 - 0x80) * 64 + (Byte.to_N b3 - 0x80)) <$> utf8_decode r.
Proof.
  intros ? Hlo Hhi ? ?. cbn [utf8_decode]. unfold is_continuation.
  do 7 decide_test.
  rewrite (proj2 (N.leb_le _ _) Hlo), (proj2 (N.leb_le _ _) Hhi).
  decide_tests. done.
Qed.

Local Ltac encoded_bytes :=
  idtac; rewrite ?to_N_byte_of_N by lia; decide_tests;
  repeat match goal with
         | |- context [N.eqb ?a ?b] => destruct (N.eqb_spec a b)
         end;
  first [ done | lia
        | match goal with
          | |- cons ?x <$> _ = cons ?c <$> _ => replace x with c by lia; done
          end ].

Lemma utf8_decode_encode_char c bs rest :
  utf8_encode_char c = Some bs →
  utf8_decode (bs ++ rest) = cons c <$> utf8_decode rest.
Proof.
  unfold utf8_encode_char.
  destruct (N.ltb_spec c 0x80) as [H1|H1].
  { intros [= <-]. cbn [app]. rewrite utf8_decode_1; encoded_bytes. }
  destruct (N.ltb_spec c 0x800) as [H2|H2].
  { intros [= <-]. cbn [app]. rewrite utf8_decode_2; encoded_bytes. }
  destruct (N.ltb_spec c 0x10000) as [H3|H3].
  { destruct (N.leb_spec 0xD800 c) as [H4|H4];
      [destruct (N.leb_spec c 0xDFFF) as [H5|H5]|]; cbn [andb]; try done.
    all: intros [= <-]; cbn [app]; rewrite utf8_decode_3; encoded_bytes. }
  destruct (N.ltb_spec c 0x110000) as [H4|H4]; [|done].
  intros [= <-]. cbn [app]. rewrite utf8_decode_4; encoded_bytes.
Qed.

Lemma utf8_decode_encode s bs :
  utf8_encode s = Some bs → utf8_decode bs = Some s.
Proof.
  revert bs. induction s as [|c s IH]; intros bs; simpl.
  - by intros [= <-].
  - destruct (utf8_encode_char c) as [b|] eqn:Hc; [|done].
    destruct (utf8_encode s) as [bs'|] eqn:Hs; [|done].
    intros [= <-]. rewrite (utf8_decode_encode_char _ _ _ Hc).
    by rewrite (IH _ eq_refl).
Qed.

Lemma utf8_encode_app s1 s2 b1 b2 :
  utf8_encode s1 = Some b1 → utf8_encode s2 = Some b2 →
  utf8_encode (s1 ++ s2) = Some (b1 ++ b2).
Proof.
  revert b1. induction s1 as [|c s1 IH]; intros b1; simpl.
  - by intros [= <-].
  - destruct (utf8_encode_char c) as [b|]; [|done].
    destruct (utf8_encode s1) as [bs|]; [|done].
    intros [= <-] H2. rewrite (IH _ eq_refl H2). by rewrite <-(assoc_L (++)).
Qed.

(** ** File Transformer: decoding *)

(** C10: for every byte string the decoding of the File Transformer
    succeeds.  It returns the UTF-8 reading of the bytes when there is one
    and their ISO-8859-1 reading otherwise, so the statement after the loop
    over the encodings is never reached and no exception leaves
    [_decode_file_content]. *)
Theorem C10_decode_file_content_total (content_bytes : bytes) :
  _decode_file_content content_bytes =
    Ok (default (Byte.to_N <$> content_bytes) (utf8_decode content_bytes)) ∧
  (∃ s, _decode_file_content content_bytes = Ok s) ∧
  (∀ e, _decode_file_content content_bytes ≠ Raise e).
Proof.
  assert (Heq : _decode_file_content content_bytes =
    Ok (default (Byte.to_N <$> content_bytes) (utf8_decode content_bytes))).
  { unfold _decode_file_content, TREE_ENCODINGS. simpl.
    by destruct (utf8_decode content_bytes). }
  split; [exact Heq|]. split; [eauto|].
  intros e. by rewrite Heq.
Qed.

(** ** [zlib.crc32]: range, and detection of a changed byte *)

Lemma lxor_lt_pow2 a b n : 0 < n → a < 2 ^ n → b < 2 ^ n → N.lxor a b < 2 ^ n.
Proof.
  intros Hn Ha Hb.
  destruct (N.eq_dec (N.lxor a b) 0) as [->|Hx].
  { apply N.neq_0_lt_0, N.pow_nonzero. lia. }
  apply N.log2_lt_pow2; [lia|].
  eapply N.le_lt_trans; [apply N.log2_lxor|].
  apply N.max_lub_lt.
  - destruct (N.eq_dec a 0) as [->|]; [done|]. apply N.log2_lt_pow2; lia.
  - destruct (N.eq_dec b 0) as [->|]; [done|]. apply N.log2_lt_pow2; lia.
Qed.

Lemma lxor_cancel_r a b c : N.lxor a c = N.lxor b c → a = b.
Proof.
  intros Heq.
  assert (Ha : N.lxor (N.lxor a c) c = a)
    by (by rewrite N.lxor_assoc, N.lxor_nilpotent, N.lxor_0_r).
  assert (Hb : N.lxor (N.lxor b c) c = b)
    by (by rewrite N.lxor_assoc, N.lxor_nilpotent, N.lxor_0_r).
  by rewrite <-Ha, Heq, Hb.
Qed.

Lemma lxor_cancel_l a b c : N.lxor c a = N.lxor c b → a = b.
Proof. rewrite !(N.lxor_comm c). apply lxor_cancel_r. Qed.

Lemma shiftr_1 c : N.shiftr c 1 = c / 2.
Proof. by rewrite N.shiftr_div_pow2. Qed.

Lemma crc32_step_lt c : c < 2 ^ 32 → crc32_step c < 2 ^ 32.
Proof.
  intros Hc. unfold crc32_step. rewrite shiftr_1.
  destruct (N.odd c).
  - apply lxor_lt_pow2; [done| |done]. change (2 ^ 32) with 4294967296 in *. lia.
  - change (2 ^ 32) with 4294967296 in *. lia.
Qed.

Lemma lxor_poly_high x : x < 2 ^ 31 → 2 ^ 31 ≤ N.lxor x 0xEDB88320.
Proof.
  intros Hx. apply N.le_ngt. intros Hlt.
  assert (H : N.lxor (N.lxor x 0xEDB88320) x < 2 ^ 31)
    by (by apply lxor_lt_pow2).
  rewrite (N.lxor_comm x), N.lxor_assoc, N.lxor_nilpotent, N.lxor_0_r in H.
  revert H. by vm_compute.
Qed.

Lemma odd_half c : N.odd c = true → c = 2 * (c / 2) + 1.
Proof. intros [m ->]%N.odd_spec. lia. Qed.

Lemma even_half c : N.odd c = false → c = 2 * (c / 2).
Proof.
  intros Ho. assert (He : N.even c = true).
  { rewrite <-N.negb_odd, Ho. done. }
  apply N.even_spec in He as [m ->]. lia.
Qed.

Lemma crc32_step_inj c c' :
  c < 2 ^ 32 → c' < 2 ^ 32 → crc32_step c = crc32_step c' → c = c'.
Proof.
  intros Hc Hc'. unfold crc32_step. rewrite !shiftr_1.
  assert (H2 : c / 2 < 2 ^ 31)
    by (change (2 ^ 32) with 4294967296 in *; change (2 ^ 31) with 2147483648; lia).
  assert (H2' : c' / 2 < 2 ^ 31)
    by (change (2 ^ 32) with 4294967296 in *; change (2 ^ 31) with 2147483648; lia).
  destruct (N.odd c) eqn:Ho, (N.odd c') eqn:Ho'; intros Heq.
  - apply lxor_cancel_r in Heq.
    rewrite (odd_half c Ho), (odd_half c' Ho'), Heq. done.
  - pose proof (lxor_poly_high _ H2). lia.
  - pose proof (lxor_poly_high _ H2'). lia.
  - rewrite (even_half c Ho), (even_half c' Ho'), Heq. done.
Qed.

Lemma iter_crc32_step_lt k c : c < 2 ^ 32 → Nat.iter k crc32_step c < 2 ^ 32.
Proof. intros Hc. induction k; simpl; [done|]. by apply crc32_step_lt. Qed.

Lemma iter_crc32_step_inj k c c' :
  c < 2 ^ 32 → c' < 2 ^ 32 →
  Nat.iter k crc32_step c = Nat.iter k crc32_step c' → c = c'.
Proof.
  intros Hc Hc'. induction k; simpl; [done|].
  intros Heq. apply IHk. apply crc32_step_inj; [by apply iter_crc32_step_lt..|done].
Qed.

Lemma byte_lt_pow2_32 (b : byte) : Byte.to_N b < 2 ^ 32.
Proof. pose proof (Byte.to_N_bounded b). change (2 ^ 32) with 4294967296. lia. Qed.

Lemma crc32_update_lt c b : c < 2 ^ 32 → crc32_update c b < 2 ^ 32.
Proof.
  intros Hc. apply iter_crc32_step_lt, lxor_lt_pow2; [done..|apply byte_lt_pow2_32].
Qed.

Lemma crc32_update_inj_state c c' b :
  c < 2 ^ 32 → c' < 2 ^ 32 → crc32_update c b = crc32_update c' b → c = c'.
Proof.
  intros Hc Hc' Heq. apply iter_crc32_step_inj in Heq.
  - by apply lxor_cancel_r in Heq.
  - apply lxor_lt_pow2; [done..|apply byte_lt_pow2_32].
  - apply lxor_lt_pow2; [done..|apply byte_lt_pow2_32].
Qed.

Lemma byte_to_N_inj (b b' : byte) : Byte.to_N b = Byte.to_N b' → b = b'.
Proof.
  intros Heq. pose proof (Byte.of_to_N b) as H1. pose proof (Byte.of_to_N b') as H2.
  rewrite Heq in H1. congruence.
Qed.

Lemma crc32_update_inj_byte c b b' :
  c < 2 ^ 32 → crc32_update c b = crc32_update c b' → b = b'.
Proof.
  intros Hc Heq. apply iter_crc32_step_inj in Heq.
  - by apply lxor_cancel_l, byte_to_N_inj in Heq.
  - apply lxor_lt_pow2; [done..|apply byte_lt_pow2_32].
  - apply lxor_lt_pow2; [done..|apply byte_lt_pow2_32].
Qed.

Lemma fold_crc32_update_lt data c :
  c < 2 ^ 32 → fold_left crc32_update data c < 2 ^ 32.
Proof.
  revert c. induction data as [|b data IH]; intros c Hc; simpl; [done|].
  by apply IH, crc32_update_lt.
Qed.

Lemma fold_crc32_update_inj data c c' :
  c < 2 ^ 32 → c' < 2 ^ 32 →
  fold_left crc32_update data c = fold_left crc32_update data c' → c = c'.
Proof.
  revert c c'. induction data as [|b data IH]; intros c c' Hc Hc'; simpl; [done|].
  intros Heq. apply IH in Heq; [|by apply crc32_update_lt..].
  by apply crc32_update_inj_state in Heq.
Qed.

Lemma crc32_lt data : crc32 data < 2 ^ 32.
Proof.
  unfold crc32. apply lxor_lt_pow2; [done| |done].
  by apply fold_crc32_update_lt.
Qed.

(** Two byte strings that differ in exactly one position have different
    checksums. *)
Lemma crc32_changed_byte (data : bytes) (i : nat) (b b' : byte) :
  data !! i = Some b → b' ≠ b → crc32 (<[i := b']> data) ≠ crc32 data.
Proof.
  intros Hi Hne Heq.
  assert (Hlen : (i < length data)%nat) by (by eapply lookup_lt_Some).
  rewrite (insert_take_drop data i b' Hlen) in Heq.
  rewrite <-(take_drop_middle data i b Hi) in Heq at 3.
  unfold crc32 in Heq. apply lxor_cancel_r in Heq.
  rewrite !fold_left_app in Heq. simpl in Heq.
  assert (Hs : fold_left crc32_update (take i data) 4294967295 < 2 ^ 32)
    by (by apply fold_crc32_update_lt).
  apply fold_crc32_update_inj in Heq; [|by apply crc32_update_lt..].
  by apply crc32_update_inj_byte in Heq.
Qed.

(** ** Hash text *)

Lemma hex_digit_lower d : d < 16 → is_lower_hex (hex_digit d).
Proof.
  intros Hd. unfold hex_digit, is_lower_hex.
  destruct (N.ltb_spec d 10); lia.
Qed.

Lemma hex_value_digit d : d < 16 → hex_value (hex_digit d) = Some d.
Proof.
  intros Hd. unfold hex_digit, hex_value.
  destruct (N.ltb_spec d 10).
  - destruct (N.leb_spec 48 (48 + d)); [|lia].
    destruct (N.leb_spec (48 + d) 57); [|lia]. simpl. f_equal. lia.
  - destruct (N.leb_spec 48 (87 + d)); [|lia].
    destruct (N.leb_spec (87 + d) 57); [lia|]. simpl.
    destruct (N.leb_spec 97 (87 + d)); [|lia].
    destruct (N.leb_spec (87 + d) 102); [|lia]. simpl. f_equal. lia.
Qed.

Lemma hex_digits_acc fuel n acc :
  hex_digits fuel n acc = hex_digits fuel n [] ++ acc.
Proof.
  revert n acc. induction fuel as [|fuel IH]; intros n acc; simpl; [done|].
  destruct (n =? 0); [done|].
  rewrite (IH _ (_ :: acc)), (IH _ [_]). by rewrite <-(assoc_L (++)).
Qed.

Lemma hex_digits_lower fuel n : Forall is_lower_hex (hex_digits fuel n []).
Proof.
  revert n. induction fuel as [|fuel IH]; intros n; simpl; [done|].
  destruct (n =? 0); [done|].
  rewrite hex_digits_acc. apply Forall_app. split; [done|].
  apply Forall_singleton, hex_digit_lower. lia.
Qed.

Lemma hex_digits_length fuel n k :
  n < 16 ^ N.of_nat k → (length (hex_digits fuel n []) ≤ k)%nat.
Proof.
  revert n k. induction fuel as [|fuel IH]; intros n k Hn; simpl; [lia|].
  destruct (N.eqb_spec n 0) as [->|Hn0]; [simpl; lia|].
  rewrite hex_digits_acc, length_app. simpl.
  destruct k as [|k]; [simpl in Hn; lia|].
  assert (n / 16 < 16 ^ N.of_nat k).
  { rewrite Nat2N.inj_succ, N.pow_succ_r' in Hn. lia. }
  specialize (IH (n / 16) k). lia.
Qed.

Lemma parse_hex_app a l1 l2 :
  parse_hex a (l1 ++ l2) = parse_hex a l1 ≫= λ a', parse_hex a' l2.
Proof.
  revert a. induction l1 as [|c l1 IH]; intros a; simpl; [done|].
  destruct (hex_value c); [|done]. apply IH.
Qed.

Lemma parse_hex_digits fuel n :
  n < 16 ^ N.of_nat fuel → parse_hex 0 (hex_digits fuel n []) = Some n.
Proof.
  revert n. induction fuel as [|fuel IH]; intros n Hn; simpl.
  - simpl in Hn. f_equal. lia.
  - destruct (N.eqb_spec n 0) as [->|Hn0]; [done|].
    rewrite hex_digits_acc, parse_hex_app.
    rewrite Nat2N.inj_succ, N.pow_succ_r' in Hn.
    rewrite IH by lia. simpl.
    rewrite hex_value_digit by lia. simpl. f_equal. lia.
Qed.

Lemma parse_hex_zeros k l : parse_hex 0 (replicate k 48 ++ l) = parse_hex 0 l.
Proof. induction k; simpl; done. Qed.

Lemma lt_pow16_log2 n : n ≠ 0 → n < 16 ^ N.of_nat (S (N.to_nat (N.log2 n))).
Proof.
  intros Hn. rewrite Nat2N.inj_succ, N2Nat.id.
  eapply N.lt_le_trans; [apply N.log2_spec; lia|].
  apply N.pow_le_mono_l. lia.
Qed.

Lemma format_x_lower n : Forall is_lower_hex (format_x n).
Proof.
  unfold format_x. destruct (n =? 0); [|apply hex_digits_lower].
  apply Forall_singleton. unfold is_lower_hex. lia.
Qed.

Lemma format_x_parse n : parse_hex 0 (format_x n) = Some n.
Proof.
  unfold format_x. destruct (N.eqb_spec n 0) as [->|Hn]; [done|].
  by apply parse_hex_digits, lt_pow16_log2.
Qed.

Lemma format_x_length n : n < 2 ^ 32 → (1 ≤ length (format_x n) ≤ 8)%nat.
Proof.
  intros Hn. unfold format_x. destruct (N.eqb_spec n 0) as [->|Hn0]; [simpl; lia|].
  split; [|by apply hex_digits_length].
  simpl. destruct (N.eqb_spec n 0); [done|].
  rewrite hex_digits_acc, length_app. simpl. lia.
Qed.

Lemma format_08x_lower n : Forall is_lower_hex (format_08x n).
Proof.
  unfold format_08x. apply Forall_app. split; [|apply format_x_lower].
  apply Forall_replicate. unfold is_lower_hex. lia.
Qed.

Lemma format_08x_length n : n < 2 ^ 32 → length (format_08x n) = 8%nat.
Proof.
  intros Hn. unfold format_08x. rewrite length_app, length_replicate.
  pose proof (format_x_length n Hn). lia.
Qed.

Lemma format_08x_parse n : parse_hex 0 (format_08x n) = Some n.
Proof. unfold format_08x. rewrite parse_hex_zeros. apply format_x_parse. Qed.

Lemma is_lower_hex_alnum c : is_lower_hex c → is_alnum c = true.
Proof.
  unfold is_lower_hex, is_alnum. intros Hc.
  destruct (N.leb_spec 97 c), (N.leb_spec c 122), (N.leb_spec 65 c),
    (N.leb_spec c 90), (N.leb_spec 48 c), (N.leb_spec c 57); simpl; try done; lia.
Qed.

Lemma forallb_Forall_true {A} (f : A → bool) (l : list A) :
  Forall (λ x, f x = true) l → forallb f l = true.
Proof. induction 1 as [|x l Hx _ IH]; simpl; [done|]. by rewrite Hx, IH. Qed.

Lemma crc32_regex_match_format n :
  n < 2 ^ 32 → crc32_regex_match (format_08x n) = true.
Proof.
  intros Hn. unfold crc32_regex_match.
  pose proof (format_08x_length n Hn) as Hlen.
  rewrite take_ge, drop_ge by lia. rewrite Hlen. simpl.
  rewrite !andb_true_r. apply forallb_Forall_true.
  eapply Forall_impl; [apply format_08x_lower|].
  intros c Hc. by apply is_lower_hex_alnum.
Qed.

Lemma int_base16_format n : n < 2 ^ 32 → int_base16 (format_08x n) = Some n.
Proof.
  intros Hn.
  pose proof (format_08x_length n Hn) as Hlen.
  pose proof (format_08x_lower n) as Hlow.
  pose proof (format_08x_parse n) as Hp.
  destruct (format_08x n) as [|c0 [|c1 [|c2 [|c3 [|c4 [|c5 [|c6 [|c7 [|? ?]]]]]]]]];
    simplify_eq/=.
  repeat match goal with H : Forall _ (_ :: _) |- _ => apply Forall_cons in H as [? H] end.
  unfold int_base16, reverse. simpl.
  destruct (N.eqb_spec c7 10) as [->|_].
  { unfold is_lower_hex in *. lia. }
  destruct (N.eqb_spec c1 120) as [->|_].
  { unfold is_lower_hex in *. lia. }
  destruct (N.eqb_spec c1 88) as [->|_].
  { unfold is_lower_hex in *. lia. }
  rewrite andb_false_r. exact Hp.
Qed.

(** ** The effect of the file-system steps on the world *)

Local Ltac unfold_M :=
  unfold bind, ret, raise, get_world, modify, logger in *.

Lemma tree_same_except_refl p w : tree_same_except p w w.
Proof. by intros q _. Qed.

Lemma tree_same_except_eq p w w' : tree w' = tree w → tree_same_except p w w'.
Proof. intros Heq q _. by rewrite Heq. Qed.

Lemma tree_same_except_trans p w1 w2 w3 :
  tree_same_except p w1 w2 → tree_same_except p w2 w3 → tree_same_except p w1 w3.
Proof. intros H12 H23 q Hq. by rewrite H23, H12. Qed.

Lemma os_utime_lookup path ns w f :
  tree w !! path = Some f →
  tree (os_utime path ns w) !! path =
    Some {| kind := kind f; content := content f; st_atime_ns := ns.1;
            st_mtime_ns := ns.2; writable := writable f |}.
Proof. intros Hf. unfold os_utime. rewrite Hf. simpl. by rewrite lookup_insert_eq. Qed.

Lemma os_utime_missing path ns w :
  tree w !! path = None → tree (os_utime path ns w) = tree w.
Proof. intros Hf. unfold os_utime. by rewrite Hf. Qed.

Lemma os_utime_other path ns w q :
  q ≠ path → tree (os_utime path ns w) !! q = tree w !! q.
Proof.
  intros Hq. unfold os_utime. destruct (tree w !! path); simpl; [|done].
  by rewrite lookup_insert_ne.
Qed.

Lemma os_utime_cache path ns w : cache (os_utime path ns w) = cache w.
Proof. unfold os_utime. by destruct (tree w !! path). Qed.

Lemma os_utime_exists path ns w :
  source_tree_exists (os_utime path ns w) = source_tree_exists w.
Proof. unfold os_utime. by destruct (tree w !! path). Qed.

Lemma ensure_writable_spec path f w :
  tree w !! path = Some f →
  ∃ wa fa, ensure_writable path f w = (Ok (), wa) ∧
    source_tree_exists wa = source_tree_exists w ∧ cache wa = cache w ∧
    tree_same_except path w wa ∧
    tree wa !! path = Some fa ∧ same_meta f fa ∧ content fa = content f.
Proof.
  intros Hf. unfold ensure_writable. destruct (writable f).
  - exists w, f. by repeat split.
  - unfold chmod_add_write. unfold_M. simpl. rewrite Hf.
    eexists _, {| kind := kind f; content := content f;
                  st_atime_ns := st_atime_ns f; st_mtime_ns := st_mtime_ns f;
                  writable := true |}.
    split; [done|]. simpl. split; [done|]. split; [done|]. split.
    { intros q Hq. simpl. by rewrite lookup_insert_ne. }
    split; [by rewrite lookup_insert_eq|]. done.
Qed.

Section TransformerFacts.
Context `{RegexEngine}.

Lemma rewrite_opened_spec path f fa regex_iter wa r w' :
  tree wa !! path = Some fa → same_meta f fa → content fa = content f →
  rewrite_opened path f regex_iter wa = (r, w') →
  source_tree_exists w' = source_tree_exists wa ∧ cache w' = cache wa ∧
  tree_same_except path wa w' ∧
  ∃ f', tree w' !! path = Some f' ∧ same_meta f f' ∧
        match r with
        | Ok (Some (crc, orig)) =>
            orig = content f ∧ crc = crc32 (content f') ∧
            kind f ≠ Directory
        | _ => content f' = content f
        end.
Proof.
  intros Hfa Hmeta Hco. unfold rewrite_opened.
  assert (Hkeep : ∀ r0 : outcome (option (N * bytes)),
            match r0 with Ok (Some _) => False | _ => True end →
            (r0, wa) = (r, w') →
            source_tree_exists w' = source_tree_exists wa ∧ cache w' = cache wa ∧
            tree_same_except path wa w' ∧
            ∃ f', tree w' !! path = Some f' ∧ same_meta f f' ∧
                  match r with
                  | Ok (Some (crc, orig)) =>
                      orig = content f ∧ crc = crc32 (content f') ∧
                      kind f ≠ Directory
                  | _ => content f' = content f
                  end).
  { intros r0 Hr0 [= <- <-]. split; [done|]. split; [done|].
    split; [apply tree_same_except_refl|]. exists fa.
    split; [done|]. split; [done|]. destruct r0 as [[[? ?]|]|]; done. }
  unfold_M.
  destruct (kind f) eqn:Hkf; [| |by apply Hkeep].
  all: destruct (content f) as [|b0 bs] eqn:Hcf; [by apply Hkeep|].
  all: destruct (_decode_file_content (b0 :: bs)) as [s|e]; [|by apply Hkeep].
  all: destruct (_apply_regex_substitutions s regex_iter) as [[s' n]|];
    [|by apply Hkeep].
  all: destruct (0 <? n)%nat; [|by apply Hkeep].
  all: destruct (str_encode UTF_8 s') as [enc|]; [|by apply Hkeep].
  all: unfold write_file; unfold_M; rewrite Hfa; intros [= <- <-]; simpl.
  all: repeat split; try done.
  all: try (intros q Hq; simpl; by rewrite lookup_insert_ne).
  all: rewrite lookup_insert_eq; eexists; split; [done|].
  all: destruct Hmeta as (Hk & Ha & Hm); unfold same_meta; simpl.
  all: rewrite Hk, Ha, Hm, Hkf; done.
Qed.

(** What [_substitute_path] does to the world: nothing outside [path];
    at [path] the kind and the time stamps stay, and the bytes change
    only when a checksum is returned. *)
Lemma _substitute_path_spec path regex_iter w r w' :
  _substitute_path path regex_iter w = (r, w') →
  source_tree_exists w' = source_tree_exists w ∧ cache w' = cache w ∧
  tree_same_except path w w' ∧
  match tree w !! path with
  | None => tree w' !! path = None ∧ r = Raise FileNotFoundError
  | Some f =>
      ∃ f', tree w' !! path = Some f' ∧ same_meta f f' ∧
            match r with
            | Ok (Some (crc, orig)) =>
                orig = content f ∧ crc = crc32 (content f') ∧
                kind f ≠ Directory
            | _ => content f' = content f
            end
  end.
Proof.
  unfold _substitute_path, bind at 1, get_world.
  destruct (tree w !! path) as [f|] eqn:Hf.
  2:{ intros [= <- <-]. by rewrite Hf. }
  destruct (ensure_writable_spec path f w Hf)
    as (wa & fa & Hew & He & Hc & Ht & Hfa & Hmeta & Hco).
  unfold bind. rewrite Hew. intros Hr.
  destruct (rewrite_opened_spec _ _ _ _ _ _ _ Hfa Hmeta Hco Hr)
    as (He' & Hc' & Ht' & f' & Hf' & Hmeta' & Hres).
  split; [congruence|]. split; [congruence|].
  split; [by eapply tree_same_except_trans|].
  by exists f'.
Qed.
End TransformerFacts.

(** ** Cache Writer: one entry of the substitution list *)

Section CacheWriterFacts.
Context `{RegexEngine}.

(** [_update_timestamp] around [_substitute_path] on an existing path. *)
Lemma substitute_with_timestamp_spec path regex_iter w f r w' :
  tree w !! path = Some f →
  _update_timestamp path true (_substitute_path path regex_iter) w = (r, w') →
  source_tree_exists w' = source_tree_exists w ∧ cache w' = cache w ∧
  tree_same_except path w w' ∧
  ∃ f', tree w' !! path = Some f' ∧ kind f' = kind f ∧
        st_atime_ns f' = (st_atime_ns f + TIMESTAMP_DELTA)%Z ∧
        st_mtime_ns f' = (st_mtime_ns f + TIMESTAMP_DELTA)%Z ∧
        match r with
        | Ok (Some (crc, orig)) =>
            orig = content f ∧ crc = crc32 (content f') ∧
            kind f ≠ Directory
        | _ => content f' = content f
        end.
Proof.
  intros Hf. unfold _update_timestamp. rewrite Hf.
  destruct (_substitute_path path regex_iter w) as [r0 w0] eqn:Hsp.
  intros [= <- <-].
  apply _substitute_path_spec in Hsp as (He & Hc & Ht & Hp).
  rewrite Hf in Hp. destruct Hp as (f0 & Hf0 & (Hk & Ha & Hm) & Hres).
  split; [by rewrite os_utime_exists|].
  split; [by rewrite os_utime_cache|].
  split.
  { intros q Hq. rewrite os_utime_other by done. by apply Ht. }
  rewrite (os_utime_lookup _ _ _ _ Hf0). eexists. split; [done|]. simpl.
  split; [done|]. split; [done|]. split; [done|]. done.
Qed.

(** The outcomes of one turn of the loop of [apply_substitution]. *)
Lemma apply_entry_spec regex_pairs domainsub_cache relative_path idx w r w' :
  apply_entry regex_pairs domainsub_cache relative_path idx w = (r, w') →
  source_tree_exists w' = source_tree_exists w ∧
  tree_same_except relative_path w w' ∧
  (INDEX_HASH_DELIMITER ∈ relative_path →
     r = Raise (ValueError relative_path) ∧ tree w' = tree w ∧
     cache w' = if domainsub_cache then None else cache w) ∧
  (INDEX_HASH_DELIMITER ∉ relative_path →
     match tree w !! relative_path with
     | None => tree w' = tree w ∧ r = Ok idx ∧ cache w' = cache w
     | Some f =>
         match kind f with
         | Symlink => tree w' = tree w ∧ r = Ok idx ∧ cache w' = cache w
         | _ =>
             ∃ f', tree w' !! relative_path = Some f' ∧ kind f' = kind f ∧
               st_atime_ns f' = (st_atime_ns f + TIMESTAMP_DELTA)%Z ∧
               st_mtime_ns f' = (st_mtime_ns f + TIMESTAMP_DELTA)%Z ∧
               ((content f' = content f ∧ cache w' = cache w ∧
                 (r = Ok idx ∨ ∃ e, r = Raise e)) ∨
                (kind f ≠ Directory ∧ domainsub_cache = false ∧
                 r = Ok idx ∧ cache w' = cache w) ∨
                (kind f ≠ Directory ∧ domainsub_cache = true ∧
                 ∃ line,
                   str_encode ENCODING
                     (index_line relative_path (crc32 (content f'))) = Some line ∧
                   r = Ok (idx ++ line) ∧
                   cache w' = Some (default [] (cache w) ++
                     [(path_join ORIG_DIR_NAME relative_path, content f)])) ∨
                (kind f ≠ Directory ∧ domainsub_cache = true ∧
                 r = Raise UnicodeEncodeError ∧ cache w' = cache w))
         end
     end).
Proof.
  unfold apply_entry. case_bool_decide as Hd.
  { intros Hr. assert (r = Raise (ValueError relative_path) ∧ tree w' = tree w ∧
      source_tree_exists w' = source_tree_exists w ∧
      cache w' = if domainsub_cache then None else cache w) as (-> & Ht & He & Hc).
    { destruct domainsub_cache; unfold_M; simpl in Hr; by simplify_eq. }
    split; [done|]. split; [intros q _; by rewrite Ht|]. split; [done|].
    intros Hn. done. }
  unfold bind at 1, get_world.
  destruct (tree w !! relative_path) as [f|] eqn:Hf.
  2:{ unfold_M. intros [= <- <-]. simpl. split; [done|].
      split; [by apply tree_same_except_eq|]. split; done. }
  assert (Hsym : kind f = Symlink →
    (let! _ := logger WARNING (Skipping_symlink relative_path) in ret idx) w
      = (r, w') →
    source_tree_exists w' = source_tree_exists w ∧
    tree_same_except relative_path w w' ∧
    tree w' = tree w ∧ r = Ok idx ∧ cache w' = cache w).
  { intros _. unfold_M. intros [= <- <-]. simpl. split; [done|].
    split; [by apply tree_same_except_eq|]. done. }
  assert (Hmain : kind f ≠ Symlink →
    (let! r := _update_timestamp relative_path true
                 (_substitute_path relative_path regex_pairs) in
     match r with
     | None =>
         let! _ := logger INFO (Path_has_no_substitutions relative_path) in
         ret idx
     | Some (crc32_hash, orig_content) =>
         if domainsub_cache then
           match str_encode ENCODING (index_line relative_path crc32_hash) with
           | None => raise UnicodeEncodeError
           | Some line =>
               let! _ := tar_addfile (path_join ORIG_DIR_NAME relative_path)
                           orig_content in
               ret (idx ++ line)
           end
         else ret idx
     end) w = (r, w') →
    source_tree_exists w' = source_tree_exists w ∧
    tree_same_except relative_path w w' ∧
    ∃ f', tree w' !! relative_path = Some f' ∧ kind f' = kind f ∧
      st_atime_ns f' = (st_atime_ns f + TIMESTAMP_DELTA)%Z ∧
      st_mtime_ns f' = (st_mtime_ns f + TIMESTAMP_DELTA)%Z ∧
      ((content f' = content f ∧ cache w' = cache w ∧
        (r = Ok idx ∨ ∃ e, r = Raise e)) ∨
       (kind f ≠ Directory ∧ domainsub_cache = false ∧
        r = Ok idx ∧ cache w' = cache w) ∨
       (kind f ≠ Directory ∧ domainsub_cache = true ∧
        ∃ line,
          str_encode ENCODING
            (index_line relative_path (crc32 (content f'))) = Some line ∧
          r = Ok (idx ++ line) ∧
          cache w' = Some (default [] (cache w) ++
            [(path_join ORIG_DIR_NAME relative_path, content f)])) ∨
       (kind f ≠ Directory ∧ domainsub_cache = true ∧
        r = Raise UnicodeEncodeError ∧ cache w' = cache w))).
  { intros _. unfold bind at 1.
    destruct (_update_timestamp relative_path true
                (_substitute_path relative_path regex_pairs) w)
      as [r0 w0] eqn:Hup.
    apply (substitute_with_timestamp_spec _ _ _ _ _ _ Hf) in Hup
      as (He & Hc & Ht & f' & Hf' & Hk & Ha & Hm & Hres).
    destruct r0 as [[[crc orig]|]|e].
    - destruct Hres as (-> & -> & Hnd).
      destruct domainsub_cache.
      + destruct (str_encode ENCODING (index_line relative_path (crc32 (content f'))))
          as [line|] eqn:Henc.
        * unfold tar_addfile. unfold_M. intros [= <- <-]. simpl.
          split; [done|]. split; [done|]. exists f'.
          do 4 (split; [done|]). right. right. left.
          split; [done|]. split; [done|]. exists line.
          split; [done|]. split; [done|]. by rewrite Hc.
        * unfold_M. intros [= <- <-]. split; [done|]. split; [done|].
          exists f'. do 4 (split; [done|]). right. right. right. done.
      + unfold_M. intros [= <- <-]. split; [done|]. split; [done|].
        exists f'. do 4 (split; [done|]). right. left. done.
    - unfold_M. intros [= <- <-]. simpl. split; [done|]. split; [done|].
      exists f'. do 4 (split; [done|]). left. split; [done|]. split; [done|].
      by left.
    - intros [= <- <-]. split; [done|]. split; [done|].
      exists f'. do 4 (split; [done|]). left. split; [done|]. split; [done|].
      right. by exists e. }
  destruct (kind f) eqn:Hk; intros Hr.
  - destruct (Hmain ltac:(done) Hr) as (He & Ht & Hx).
    split; [done|]. split; [done|]. split; [done|]. intros _. exact Hx.
  - destruct (Hsym eq_refl Hr) as (He & Ht & Hx).
    split; [done|]. split; [done|]. split; [done|]. intros _. exact Hx.
  - destruct (Hmain ltac:(done) Hr) as (He & Ht & Hx).
    split; [done|]. split; [done|]. split; [done|]. intros _. exact Hx.
Qed.
End CacheWriterFacts.

(** ** Cache Writer: the loop over the substitution list *)

Section ApplyLoopFacts.
Context `{RegexEngine}.

Lemma apply_loop_app regex_pairs domainsub_cache l1 l2 idx w :
  apply_loop regex_pairs domainsub_cache (l1 ++ l2) idx w =
    match apply_loop regex_pairs domainsub_cache l1 idx w with
    | (Ok idx1, w1) => apply_loop regex_pairs domainsub_cache l2 idx1 w1
    | (Raise e, w1) => (Raise e, w1)
    end.
Proof.
  revert idx w. induction l1 as [|p l1 IH]; intros idx w; simpl; [done|].
  unfold bind.
  destruct (apply_entry regex_pairs domainsub_cache p idx w) as [[idx'|e] w0];
    [apply IH|done].
Qed.

(** The loop touches no path outside the entries it walks. *)
Lemma apply_loop_frame regex_pairs domainsub_cache paths idx w r w' :
  apply_loop regex_pairs domainsub_cache paths idx w = (r, w') →
  source_tree_exists w' = source_tree_exists w ∧
  ∀ q, q ∉ paths → tree w' !! q = tree w !! q.
Proof.
  revert idx w. induction paths as [|p paths IH]; intros idx w; simpl.
  { unfold ret. by intros [= <- <-]. }
  unfold bind.
  destruct (apply_entry regex_pairs domainsub_cache p idx w) as [[idx'|e] w0] eqn:He.
  - intros Hl. apply apply_entry_spec in He as (Hex & Ht & _).
    apply IH in Hl as [Hex' Ht']. split; [congruence|].
    intros q [Hq Hqs]%not_elem_of_cons. rewrite Ht' by done. by apply Ht.
  - intros [= <- <-]. apply apply_entry_spec in He as (Hex & Ht & _).
    split; [done|]. intros q [Hq Hqs]%not_elem_of_cons. by apply Ht.
Qed.

Lemma apply_loop_delimiter regex_pairs domainsub_cache bad post idx w :
  INDEX_HASH_DELIMITER ∈ bad →
  ∃ w', apply_loop regex_pairs domainsub_cache (bad :: post) idx w
          = (Raise (ValueError bad), w') ∧
        source_tree_exists w' = source_tree_exists w ∧
        tree w' = tree w ∧
        cache w' = if domainsub_cache then None else cache w.
Proof.
  intros Hbad. simpl. unfold bind.
  destruct (apply_entry regex_pairs domainsub_cache bad idx w) as [r w0] eqn:He.
  apply apply_entry_spec in He as (Hex & _ & Hd & _).
  destruct (Hd Hbad) as (-> & Ht & Hc). by exists w0.
Qed.

(** C3, as the code has it: the delimiter is looked for entry by entry
    inside the loop.  When an entry of the substitution list holds the
    delimiter, [apply_substitution] ends with an exception.  Unless one
    of the checks before the loop fails, in which case nothing is done,
    the entries listed before that entry are processed, in the order of
    the list and exactly as the loop processes them in any other run,
    and the tree is left as these entries made it: nothing is rolled
    back and nothing listed after them is touched.  The exception is the
    [ValueError] for that entry, or the exception of an earlier entry
    that failed first. *)
Theorem C3_delimiter_aborts_at_entry (regex_text files_text : text)
    (domainsub_cache : bool) (pre post : list text) (bad : text)
    (w w' : world) (r : outcome unit) :
  filter_len (splitlines files_text) = pre ++ bad :: post →
  INDEX_HASH_DELIMITER ∈ bad →
  apply_substitution (Some regex_text) (Some files_text) domainsub_cache w
    = (r, w') →
  (∃ e, r = Raise e ∧ precondition_error e ∧ w' = w) ∨
  (∃ pairs r1 w1,
     regex_pairs (filter_len (splitlines regex_text)) = Ok pairs ∧
     apply_loop pairs domainsub_cache pre []
       (if domainsub_cache then set_cache (Some []) w else w) = (r1, w1) ∧
     tree w' = tree w1 ∧
     match r1 with
     | Ok _ => r = Raise (ValueError bad)
     | Raise e => r = Raise e
     end).
Proof.
  intros Hfiles Hbad. unfold apply_substitution, bind at 1, get_world.
  destruct (negb (source_tree_exists w)).
  { intros [= <- <-]. left. eexists. split; [done|]. split; [by left|done]. }
  destruct (domainsub_cache && bool_decide (is_Some (cache w))).
  { intros [= <- <-]. left. eexists. split; [done|].
    split; [right; by left|done]. }
  simpl.
  destruct (regex_pairs (filter_len (splitlines regex_text))) as [pairs|e] eqn:Hp.
  2:{ intros [= <- <-]. left. exists e. split; [done|]. split; [|done].
      right. right. by eapply regex_pairs_raises_regex_error. }
  rewrite Hfiles. unfold bind at 1.
  assert (Hopen : (if domainsub_cache then modify (set_cache (Some [])) else ret ()) w
            = (Ok (), if domainsub_cache then set_cache (Some []) w else w))
    by (by destruct domainsub_cache).
  rewrite Hopen. unfold bind at 1. rewrite apply_loop_app.
  destruct (apply_loop pairs domainsub_cache pre []
              (if domainsub_cache then set_cache (Some []) w else w))
    as [[idx1|e] w2] eqn:Hpre.
  - destruct (apply_loop_delimiter pairs domainsub_cache bad post idx1 w2 Hbad)
      as (w3 & -> & _ & Ht3 & _).
    intros [= <- <-]. right. exists pairs, (Ok idx1), w2. done.
  - intros [= <- <-]. right. exists pairs, (Raise e), w2. done.
Qed.

(** C4: when the loop of [apply_substitution] comes to an entry of the
    substitution list that holds the delimiter, the call ends with the
    [ValueError] that names this entry; the cache archive, when a cache
    path was given, is no longer on disk; and the tree is the one the
    loop had produced up to that entry (nothing is rolled back). *)
Theorem C4_delimiter_removes_cache (regex_text files_text : text)
    (domainsub_cache : bool) (pairs : list (re_pattern * text))
    (pre post : list text) (bad : text) (w w1 : world) (idx : bytes) :
  source_tree_exists w = true →
  (domainsub_cache = true → cache w = None) →
  regex_pairs (filter_len (splitlines regex_text)) = Ok pairs →
  filter_len (splitlines files_text) = pre ++ bad :: post →
  INDEX_HASH_DELIMITER ∈ bad →
  apply_loop pairs domainsub_cache pre []
    (if domainsub_cache then set_cache (Some []) w else w) = (Ok idx, w1) →
  ∃ w', apply_substitution (Some regex_text) (Some files_text) domainsub_cache w
          = (Raise (ValueError bad), w') ∧
        (domainsub_cache = true → cache w' = None) ∧
        tree w' = tree w1.
Proof.
  intros Hex Hcache Hpairs Hfiles Hbad Hpre.
  unfold apply_substitution, bind at 1, get_world. rewrite Hex. simpl.
  assert (Hno : domainsub_cache && bool_decide (is_Some (cache w)) = false).
  { destruct domainsub_cache; [|done]. by rewrite Hcache. }
  rewrite Hno, Hpairs, Hfiles. unfold bind at 1.
  assert (Hopen : (if domainsub_cache then modify (set_cache (Some [])) else ret ()) w
            = (Ok (), if domainsub_cache then set_cache (Some []) w else w))
    by (by destruct domainsub_cache).
  rewrite Hopen. unfold bind at 1. rewrite apply_loop_app, Hpre.
  destruct (apply_loop_delimiter pairs domainsub_cache bad post idx w1 Hbad)
    as (w3 & -> & _ & Ht3 & Hc3).
  exists w3. split; [done|]. split; [|done].
  intros ->. exact Hc3.
Qed.
End ApplyLoopFacts.

(** C3, witness: the list [a], [b|c] over the tree with [a] and [b]: the
    call raises the [ValueError] for [b|c], and the tree is the one the
    loop over [a] alone leaves, with [a] rewritten and [b] as it was. *)
Lemma C3_delimiter_aborts_at_entry_witness :
  (∃ e, (apply_substitution (Some foo_bar_rules) (Some (lines [py "a"; py "b|c"]))
           true two_files_world).1 = Raise e ∧
        precondition_error e ∧
        (apply_substitution (Some foo_bar_rules) (Some (lines [py "a"; py "b|c"]))
           true two_files_world).2 = two_files_world) ∨
  (∃ pairs r1 w1,
     regex_pairs (filter_len (splitlines foo_bar_rules)) = Ok pairs ∧
     apply_loop pairs true [py "a"] [] (set_cache (Some []) two_files_world)
       = (r1, w1) ∧
     tree (apply_substitution (Some foo_bar_rules)
             (Some (lines [py "a"; py "b|c"])) true two_files_world).2 = tree w1 ∧
     match r1 with
     | Ok _ => (apply_substitution (Some foo_bar_rules)
                  (Some (lines [py "a"; py "b|c"])) true two_files_world).1
               = Raise (ValueError (py "b|c"))
     | Raise e => (apply_substitution (Some foo_bar_rules)
                     (Some (lines [py "a"; py "b|c"])) true two_files_world).1
                  = Raise e
     end).
Proof.
  assert (H1 : filter_len (splitlines (lines [py "a"; py "b|c"]))
                 = [py "a"] ++ py "b|c" :: []) by (vm_compute; reflexivity).
  assert (H2 : INDEX_HASH_DELIMITER ∈ py "b|c") by compute_done.
  exact (C3_delimiter_aborts_at_entry foo_bar_rules (lines [py "a"; py "b|c"])
           true [py "a"] [] (py "b|c") two_files_world _ _ H1 H2
           (surjective_pairing _)).
Defined.

(** C3, counterexample: with the list [a], [b|c] the call raises the
    [ValueError] for [b|c] after the file [a] has been rewritten from [foo]
    to [bar]. *)
Lemma C3_earlier_file_rewritten_counterexample :
  let res := apply_substitution (Some foo_bar_rules)
               (Some (lines [py "a"; py "b|c"])) true two_files_world in
  res.1 = Raise (ValueError (py "b|c")) ∧
  content <$> tree two_files_world !! py "a" = Some (pyb "foo") ∧
  content <$> tree res.2 !! py "a" = Some (pyb "bar") ∧
  tree res.2 ≠ tree two_files_world.
Proof.
  split; [vm_compute; reflexivity|]. split; [vm_compute; reflexivity|].
  split; [vm_compute; reflexivity|].
  intros Heq. apply (f_equal (λ t, content <$> t !! py "a")) in Heq.
  vm_compute in Heq. discriminate Heq.
Qed.

(** C4, witness: the same run; the archive is gone and the rewritten file
    [a] stays rewritten. *)
Lemma C4_delimiter_removes_cache_witness :
  ∃ w', apply_substitution (Some foo_bar_rules) (Some (lines [py "a"; py "b|c"]))
          true two_files_world = (Raise (ValueError (py "b|c")), w') ∧
        (true = true → cache w' = None) ∧
        content <$> tree w' !! py "a" = Some (pyb "bar").
Proof.
  assert (H0 : source_tree_exists two_files_world = true) by reflexivity.
  assert (H1 : true = true → cache two_files_world = None) by reflexivity.
  assert (H2 : regex_pairs (filter_len (splitlines foo_bar_rules))
                 = Ok [(py "foo", py "bar")]) by (vm_compute; reflexivity).
  assert (H3 : filter_len (splitlines (lines [py "a"; py "b|c"]))
                 = [py "a"] ++ py "b|c" :: []) by (vm_compute; reflexivity).
  assert (H4 : INDEX_HASH_DELIMITER ∈ py "b|c") by compute_done.
  assert (H5 : apply_loop [(py "foo", py "bar")] true [py "a"] []
                 (set_cache (Some []) two_files_world)
               = (Ok (pyb "a|76ff8caa" ++ [x0a]),
                  (apply_loop [(py "foo", py "bar")] true [py "a"] []
                     (set_cache (Some []) two_files_world)).2))
    by (vm_compute; reflexivity).
  destruct (C4_delimiter_removes_cache foo_bar_rules (lines [py "a"; py "b|c"])
              true _ [py "a"] [] (py "b|c") two_files_world _ _ H0 H1 H2 H3 H4 H5)
    as (w' & Hr & Hc & Ht).
  exists w'. split; [exact Hr|]. split; [exact Hc|].
  rewrite Ht. vm_compute. reflexivity.
Defined.

(** ** Cache Verifier *)

(** A verdict leaves the tree and the archive alone; a rejection adds one
    [ERROR] record to the log and leaves the set as it was. *)
Lemma _validate_index_entry_spec (entry : text) (s : gset (list N)) (w : world) :
  ∃ v s' w', _validate_index_entry entry s w = (Ok (v, s'), w') ∧
    source_tree_exists w' = source_tree_exists w ∧
    tree w' = tree w ∧ cache w' = cache w ∧
    (v = true → w' = w ∧ ∃ p, s' = {[p]} ∪ s) ∧
    (v = false → s' = s ∧ ∃ m, log w' = log w ++ [(ERROR, m)]).
Proof.
  unfold _validate_index_entry.
  assert (Hrej : ∀ m, ∃ v s' w',
    (let! _ := logger ERROR m in ret (false, s)) w = (Ok (v, s'), w') ∧
    source_tree_exists w' = source_tree_exists w ∧
    tree w' = tree w ∧ cache w' = cache w ∧
    (v = true → w' = w ∧ ∃ p, s' = {[p]} ∪ s) ∧
    (v = false → s' = s ∧ ∃ m, log w' = log w ++ [(ERROR, m)])).
  { intros m. unfold_M. eexists false, s, _. split; [done|]. simpl.
    do 3 (split; [done|]). split; [done|]. intros _. split; [done|]. by exists m. }
  destruct (str_split1 INDEX_HASH_DELIMITER entry)
    as [|relative_path [|file_hash [|? ?]]]; try apply Hrej.
  destruct (bool_decide (relative_path = []) || bool_decide (file_hash = []));
    [apply Hrej|].
  destruct (negb (crc32_regex_match file_hash)); [apply Hrej|].
  unfold bind at 1, get_world.
  destruct (tree w !! relative_path) as [f|]; [|apply Hrej].
  destruct (int_base16 file_hash) as [recorded|];
    [|destruct (kind f); apply Hrej].
  destruct (negb (crc32 (content f) =? recorded));
    [destruct (kind f); apply Hrej|].
  destruct (bool_decide (relative_path ∈ s));
    [destruct (kind f); apply Hrej|].
  assert (Hacc : ∃ v s' w',
    ret (true, {[relative_path]} ∪ s) w = (Ok (v, s'), w') ∧
    source_tree_exists w' = source_tree_exists w ∧
    tree w' = tree w ∧ cache w' = cache w ∧
    (v = true → w' = w ∧ ∃ p, s' = {[p]} ∪ s) ∧
    (v = false → s' = s ∧ ∃ m, log w' = log w ++ [(ERROR, m)])).
  { eexists true, _, w. unfold ret. split; [done|]. do 3 (split; [done|]).
    split; [|done]. intros _. split; [done|]. by eexists. }
  destruct (kind f); [apply Hacc|apply Hacc|apply Hrej].
Qed.

Lemma validate_entries_app (l1 l2 : list text) (flag : bool) (s : gset (list N)) (w : world) :
  validate_entries (l1 ++ l2) flag s w =
    match validate_entries l1 flag s w with
    | (Ok (flag1, s1), w1) => validate_entries l2 flag1 s1 w1
    | (Raise e, w1) => (Raise e, w1)
    end.
Proof.
  revert flag s w. induction l1 as [|e l1 IH]; intros flag s w; simpl; [done|].
  unfold bind.
  destruct (_validate_index_entry e s w) as [[[v s']|ex] w0]; [apply IH|done].
Qed.

(** The loop never raises, only reads the tree and the archive, only adds
    to the log, and its flag can only go down. *)
Lemma validate_entries_spec (entries : list text) (flag : bool) (s : gset (list N)) (w : world) :
  ∃ flag' s' w', validate_entries entries flag s w = (Ok (flag', s'), w') ∧
    source_tree_exists w' = source_tree_exists w ∧
    tree w' = tree w ∧ cache w' = cache w ∧
    log w `prefix_of` log w' ∧
    (flag' = true → flag = true).
Proof.
  revert flag s w. induction entries as [|e entries IH]; intros flag s w; simpl.
  { eexists flag, s, w. by unfold ret. }
  unfold bind.
  destruct (_validate_index_entry_spec e s w)
    as (v & s1 & w1 & -> & He & Ht & Hc & Hv & Hnv).
  destruct (IH (if v then flag else false) s1 w1)
    as (flag' & s' & w' & -> & He' & Ht' & Hc' & Hl' & Hf').
  exists flag', s', w'. split; [done|].
  split; [congruence|]. split; [congruence|]. split; [congruence|]. split.
  - etrans; [|exact Hl']. destruct v.
    + by destruct (Hv eq_refl) as [-> _].
    + destruct (Hnv eq_refl) as [_ [m ->]]. by apply prefix_app_r.
  - intros Hflag. specialize (Hf' Hflag). by destruct v.
Qed.

Lemma validate_entries_flag_false (entries : list text) (s : gset (list N)) (w : world) flag' s' w' :
  validate_entries entries false s w = (Ok (flag', s'), w') → flag' = false.
Proof.
  intros Hv. destruct (validate_entries_spec entries false s w)
    as (f & ? & ? & Heq & _ & _ & _ & _ & Hf).
  rewrite Heq in Hv. simplify_eq. destruct flag'; [|done]. by specialize (Hf eq_refl).
Qed.

(** C7: for every content index and every entry of it, whatever the
    verdicts on the entries before it, the Verifier gives the entry its own
    verdict, records a rejection as an [ERROR] in the log, goes on with all
    the entries after it, and returns its overall answer only after the
    last entry; the answer is a success only if no entry was rejected. *)
Theorem C7_verifier_scans_every_entry (index_file : bytes) (index_content : text)
    (pre post : list text) (entry : text) (s : gset (list N)) (w : world) :
  bytes_decode ENCODING index_file = Some index_content →
  splitlines index_content = pre ++ entry :: post →
  ∃ flag1 s1 w1 v s2 w2 flag s' w',
    validate_entries pre true s w = (Ok (flag1, s1), w1) ∧
    _validate_index_entry entry s1 w1 = (Ok (v, s2), w2) ∧
    validate_entries post (flag1 && v) s2 w2 = (Ok (flag, s'), w') ∧
    _validate_file_index index_file s w = (Ok (flag, s'), w') ∧
    (v = false →
       flag = false ∧
       ∃ m, log w2 = log w1 ++ [(ERROR, m)] ∧ (ERROR, m) ∈ log w') ∧
    (flag = true → flag1 = true ∧ v = true).
Proof.
  intros Hdec Hsplit.
  destruct (validate_entries_spec pre true s w)
    as (flag1 & s1 & w1 & Hpre & _).
  destruct (_validate_index_entry_spec entry s1 w1)
    as (v & s2 & w2 & Hentry & _ & _ & _ & _ & Hnv).
  destruct (validate_entries_spec post (flag1 && v) s2 w2)
    as (flag & s' & w' & Hpost & _ & _ & _ & Hlog & Hflag).
  exists flag1, s1, w1, v, s2, w2, flag, s', w'.
  split; [done|]. split; [done|]. split; [done|]. split.
  { unfold _validate_file_index. rewrite Hdec, Hsplit.
    rewrite validate_entries_app, Hpre. simpl. unfold bind. rewrite Hentry.
    rewrite <-Hpost. by destruct v, flag1. }
  split.
  - intros ->. rewrite andb_false_r in Hpost. split.
    + by eapply validate_entries_flag_false.
    + destruct (Hnv eq_refl) as [_ [m Hm]]. exists m. split; [done|].
      destruct Hlog as [k ->]. rewrite Hm.
      apply elem_of_app. left. apply elem_of_app. right. by apply list_elem_of_singleton.
  - intros Hf. specialize (Hflag Hf). by apply andb_true_iff in Hflag.
Qed.

(** ** Revert Engine *)

Lemma replace_file_spec (extracted : gmap (list N) (list byte)) (src dst : text) (w : world) r w' :
  replace_file extracted src dst w = (r, w') →
  source_tree_exists w' = source_tree_exists w ∧ cache w' = cache w ∧
  tree_same_except dst w w' ∧
  match r with
  | Ok extracted' =>
      ∃ data, extracted !! src = Some data ∧ extracted' = delete src extracted ∧
              tree w' !! dst = Some {| kind := Regular; content := data;
                                       st_atime_ns := 0; st_mtime_ns := 0;
                                       writable := true |}
  | Raise e => w' = w
  end.
Proof.
  unfold replace_file.
  destruct (extracted !! src) as [data|]; [|by intros [= <- <-]].
  unfold bind at 1, get_world.
  destruct (kind <$> tree w !! dst) as [[| |]|] eqn:Hk;
    try (by intros [= <- <-]).
  all: unfold_M; intros [= <- <-]; simpl.
  all: split; [done|]; split; [done|]; split;
    [intros q Hq; simpl; by rewrite lookup_insert_ne|].
  all: exists data; by rewrite lookup_insert_eq.
Qed.

(** One turn of the loop that moves the originals back. *)
Lemma revert_step_spec (extracted : gmap (list N) (list byte)) (relative_path : text) (w : world) r w' :
  _update_timestamp relative_path false
    (replace_file extracted (path_join ORIG_DIR_NAME relative_path) relative_path)
    w = (r, w') →
  source_tree_exists w' = source_tree_exists w ∧ cache w' = cache w ∧
  tree_same_except relative_path w w' ∧
  (∀ extracted', r = Ok extracted' →
     extracted' = delete (path_join ORIG_DIR_NAME relative_path) extracted) ∧
  ∀ f, tree w !! relative_path = Some f →
    ∃ f', tree w' !! relative_path = Some f' ∧
      st_atime_ns f' = (st_atime_ns f - TIMESTAMP_DELTA)%Z ∧
      st_mtime_ns f' = (st_mtime_ns f - TIMESTAMP_DELTA)%Z ∧
      match r with
      | Ok _ => extracted !! path_join ORIG_DIR_NAME relative_path = Some (content f')
      | Raise _ => content f' = content f
      end.
Proof.
  unfold _update_timestamp.
  destruct (tree w !! relative_path) as [f|] eqn:Hf.
  - destruct (replace_file extracted _ relative_path w) as [r0 w0] eqn:Hrep.
    intros [= <- <-]. apply replace_file_spec in Hrep as (He & Hc & Ht & Hres).
    split; [by rewrite os_utime_exists|]. split; [by rewrite os_utime_cache|].
    split; [intros q Hq; rewrite os_utime_other by done; by apply Ht|].
    split.
    { intros ex' ->. by destruct Hres as (data & _ & -> & _). }
    intros f0 [= <-]. destruct r0 as [ex'|e].
    + destruct Hres as (data & Hdata & -> & Hlk).
      rewrite (os_utime_lookup _ _ _ _ Hlk). eexists. split; [done|]. done.
    + subst w0. rewrite (os_utime_lookup _ _ _ _ Hf). eexists. split; [done|]. done.
  - intros Hrep. apply replace_file_spec in Hrep as (He & Hc & Ht & Hres).
    split; [done|]. split; [done|]. split.
    { intros q Hq. by rewrite Ht. }
    split; [|done].
    intros ex' ->. by destruct Hres as (data & _ & -> & _).
Qed.

Lemma revert_loop_spec (paths : list text) (extracted : gmap (list N) (list byte)) (w : world) extracted' w' :
  revert_loop paths extracted w = (Ok extracted', w') →
  source_tree_exists w' = source_tree_exists w ∧ cache w' = cache w ∧
  (∀ q, q ∉ paths → tree w' !! q = tree w !! q) ∧
  (∀ name, extracted' !! name =
     if bool_decide (name ∈ path_join ORIG_DIR_NAME <$> paths) then None
     else extracted !! name).
Proof.
  revert extracted w. induction paths as [|p paths IH]; intros extracted w; simpl.
  { unfold ret. intros [= <- <-]. done. }
  unfold bind.
  destruct (_update_timestamp p false _ w) as [[ex1|e] w1] eqn:Hstep; [|done].
  intros Hl. apply revert_step_spec in Hstep as (He & Hc & Ht & Hex & _).
  apply IH in Hl as (He' & Hc' & Ht' & Hex').
  split; [congruence|]. split; [congruence|]. split.
  { intros q [Hq Hqs]%not_elem_of_cons. rewrite Ht' by done. by apply Ht. }
  intros name. rewrite Hex', (Hex _ eq_refl).
  destruct (decide (name = path_join ORIG_DIR_NAME p)) as [->|Hne].
  - rewrite lookup_delete_eq. rewrite (bool_decide_eq_true_2 (_ ∈ _ :: _)).
    + by case_bool_decide.
    + apply elem_of_cons. by left.
  - rewrite lookup_delete_ne by done.
    do 2 case_bool_decide; try done.
    + exfalso. apply H0. apply elem_of_cons. by right.
    + apply elem_of_cons in H0 as [?|?]; done.
Qed.

Lemma warn_unused_spec (names : list text) (w : world) :
  ∃ w', warn_unused names w = (Ok (), w') ∧
    source_tree_exists w' = source_tree_exists w ∧
    tree w' = tree w ∧ cache w' = cache w.
Proof.
  revert w. induction names as [|n names IH]; intros w; simpl.
  { by exists w. }
  unfold_M. simpl.
  destruct (IH (add_log WARNING (Unused_file_from_cache n) w))
    as (w' & -> & ? & ? & ?). by exists w'.
Qed.

Lemma orig_files_nil (extracted : gmap (list N) (list byte)) :
  orig_files extracted = [] ↔
  ∀ name, is_Some (extracted !! name) →
          ¬ (ORIG_DIR_NAME ++ [47]) `prefix_of` name.
Proof.
  unfold orig_files. split.
  - intros Hnil name [data Hdata] Hpre.
    assert (Hin : name ∈ filter (λ name : list N, (ORIG_DIR_NAME ++ [47]) `prefix_of` name)
                    (map_to_list extracted).*1).
    { apply list_elem_of_filter. split; [done|].
      apply list_elem_of_fmap. exists (name, data). split; [done|].
      by apply elem_of_map_to_list. }
    rewrite Hnil in Hin. by apply elem_of_nil in Hin.
  - intros Hall.
    destruct (filter _ _) as [|x l] eqn:Hfil; [done|]. exfalso.
    assert (Hin : x ∈ x :: l) by (apply elem_of_cons; by left).
    rewrite <-Hfil in Hin. apply list_elem_of_filter in Hin as [Hpre Hin].
    apply list_elem_of_fmap in Hin as [[n d] [-> Hin]].
    apply elem_of_map_to_list in Hin. eapply Hall; [|exact Hpre]. by exists d.
Qed.

(** C7, witness: an index of the two lines [bad] and [alsobad]; the second
    line is examined after the first one was rejected. *)
Lemma C7_verifier_scans_every_entry_witness :
  ∃ flag1 s1 w1 v s2 w2 flag s' w',
    validate_entries [py "bad"] true ∅ two_files_world = (Ok (flag1, s1), w1) ∧
    _validate_index_entry (py "alsobad") s1 w1 = (Ok (v, s2), w2) ∧
    validate_entries [] (flag1 && v) s2 w2 = (Ok (flag, s'), w') ∧
    _validate_file_index broken_index ∅ two_files_world = (Ok (flag, s'), w') ∧
    (v = false →
       flag = false ∧
       ∃ m, log w2 = log w1 ++ [(ERROR, m)] ∧ (ERROR, m) ∈ log w') ∧
    (flag = true → flag1 = true ∧ v = true).
Proof.
  assert (H1 : bytes_decode ENCODING broken_index = Some (lines [py "bad"; py "alsobad"]))
    by (vm_compute; reflexivity).
  assert (H2 : splitlines (lines [py "bad"; py "alsobad"])
                 = [py "bad"] ++ py "alsobad" :: []) by (vm_compute; reflexivity).
  exact (C7_verifier_scans_every_entry broken_index _ [py "bad"] [] (py "alsobad")
           ∅ two_files_world H1 H2).
Defined.

Example verifier_logs_both_rejections :
  log (_validate_file_index broken_index ∅ two_files_world).2 =
    [(ERROR, Could_not_split_entry (py "bad"));
     (ERROR, Could_not_split_entry (py "alsobad"))].
Proof. vm_compute. reflexivity. Qed.

(** After a revert that went through all its replacements, the cache
    archive is gone from the disk exactly when every file of the extracted
    directory of originals is the original of a path the Verifier has put
    into its set; otherwise the archive is still the one that was there
    and the warning has been logged. *)
Lemma revert_archive_by_verified_set (w w' : world) :
  revert_substitution true w = (Ok (), w') →
  ∃ cache_tar index_file cache_index_files wv,
    cache w = Some cache_tar ∧
    extract_tar_file cache_tar !! INDEX_LIST_FILENAME = Some index_file ∧
    _validate_file_index index_file ∅
      (add_log DEBUG Validating_substituted_files (add_log DEBUG Extracting_cache w))
      = (Ok (true, cache_index_files), wv) ∧
    (cache w' = None ↔
     ∀ name, is_Some (extract_tar_file cache_tar !! name) →
             (ORIG_DIR_NAME ++ [47]) `prefix_of` name →
             ∃ p, p ∈ cache_index_files ∧ name = path_join ORIG_DIR_NAME p) ∧
    (cache w' ≠ None →
     cache w' = Some cache_tar ∧
     (WARNING, Cache_contains_unused_files) ∈ log w').
Proof.
  unfold revert_substitution. simpl. unfold bind at 1, get_world.
  destruct (cache w) as [cache_tar|] eqn:Hcache; [|done].
  destruct (negb (source_tree_exists w)); [done|].
  unfold bind at 1, logger at 1, modify at 1.
  unfold bind at 1, logger at 1, modify at 1.
  destruct (extract_tar_file cache_tar !! INDEX_LIST_FILENAME) as [index_file|] eqn:Hidx;
    [|done].
  unfold bind at 1.
  set (w0 := add_log DEBUG Validating_substituted_files (add_log DEBUG Extracting_cache w)).
  destruct (_validate_file_index index_file ∅ w0) as [[[valid files]|e] wv] eqn:Hval;
    [|done].
  assert (Hwv : cache wv = Some cache_tar).
  { unfold _validate_file_index in Hval.
    destruct (bytes_decode ENCODING index_file).
    - destruct (validate_entries_spec (splitlines l) true ∅ w0)
        as (? & ? & ? & Heq & _ & _ & Hc & _).
      rewrite Heq in Hval. simplify_eq. by rewrite Hc.
    - unfold_M. simpl in Hval. simplify_eq. exact Hcache. }
  destruct valid; [|done]. simpl.
  unfold bind at 1, logger at 1, modify at 1. unfold bind at 1.
  destruct (revert_loop (elements files) (extract_tar_file cache_tar) _)
    as [[extracted'|e] w2] eqn:Hloop; [|done].
  apply revert_loop_spec in Hloop as (_ & Hc2 & _ & Hex).
  simpl in Hc2. unfold bind at 1.
  destruct (warn_unused_spec (orig_files extracted') w2) as (w3 & -> & _ & _ & Hc3).
  assert (Hunused : orig_files extracted' = [] ↔
    ∀ name, is_Some (extract_tar_file cache_tar !! name) →
            (ORIG_DIR_NAME ++ [47]) `prefix_of` name →
            ∃ p, p ∈ files ∧ name = path_join ORIG_DIR_NAME p).
  { rewrite orig_files_nil. split.
    - intros Hall name Hsome Hpre.
      specialize (Hall name). rewrite Hex in Hall.
      case_bool_decide as Hin.
      + apply list_elem_of_fmap in Hin as (p & -> & Hp).
        exists p. split; [|done]. by apply elem_of_elements.
      + by destruct (Hall Hsome Hpre).
    - intros Hall name Hsome Hpre. rewrite Hex in Hsome.
      case_bool_decide as Hin; [by destruct Hsome|].
      destruct (Hall name Hsome Hpre) as (p & Hp & ->).
      apply Hin, list_elem_of_fmap. exists p. split; [done|].
      by apply elem_of_elements. }
  destruct (orig_files extracted') as [|n0 ns] eqn:Horig.
  - unfold_M. intros [= <-]. exists cache_tar, index_file, files, wv.
    do 3 (split; [done|]). simpl. split; [|done].
    split; [intros _; by apply Hunused|done].
  - unfold_M. intros [= <-]. exists cache_tar, index_file, files, wv.
    do 3 (split; [done|]). simpl. rewrite Hc3, Hc2, Hwv. split.
    + split; [done|]. intros Hall. by apply Hunused in Hall.
    + intros _. split; [done|]. apply elem_of_app. right.
      by apply list_elem_of_singleton.
Qed.

Example revert_keeps_archive_with_unused :
  let res := revert_substitution true substituted_a_world in
  res.1 = Ok () ∧ cache res.2 = Some archive_with_unused ∧
  content <$> tree res.2 !! py "a" = Some (pyb "foo").
Proof. vm_compute. done. Qed.

Example revert_removes_clean_archive :
  let applied := apply_substitution (Some config_rules) (Some (py "config.txt"))
                   true config_world in
  let res := revert_substitution true applied.2 in
  applied.1 = Ok () ∧ res.1 = Ok () ∧ cache res.2 = None ∧
  tree res.2 = tree config_world.
Proof. vm_compute. done. Qed.

(** ** Time stamps *)

Section TimestampFacts.
Context `{RegexEngine}.

(** C9, as the code has it: around the transform of each file that
    [apply_substitution] handles, both time stamps of the file are moved
    forward by [TIMESTAMP_DELTA]; the revert of a file moves both back
    by the same amount; and [TIMESTAMP_DELTA] is [10^9] nanoseconds,
    which is one second. *)
Theorem C9_timestamp_delta_one_second :
  (∀ regex_pairs domainsub_cache relative_path idx w f r w',
     INDEX_HASH_DELIMITER ∉ relative_path →
     tree w !! relative_path = Some f → kind f ≠ Symlink →
     apply_entry regex_pairs domainsub_cache relative_path idx w = (r, w') →
     ∃ f', tree w' !! relative_path = Some f' ∧
           st_atime_ns f' = (st_atime_ns f + 1000000000)%Z ∧
           st_mtime_ns f' = (st_mtime_ns f + 1000000000)%Z) ∧
  (∀ extracted relative_path w f r w',
     tree w !! relative_path = Some f →
     revert_loop [relative_path] extracted w = (r, w') →
     ∃ f', tree w' !! relative_path = Some f' ∧
           st_atime_ns f' = (st_atime_ns f - 1000000000)%Z ∧
           st_mtime_ns f' = (st_mtime_ns f - 1000000000)%Z) ∧
  TIMESTAMP_DELTA = (1 * ns_per_second)%Z.
Proof.
  split; [|split; [|reflexivity]].
  - intros regex_pairs domainsub_cache relative_path idx w f r w' Hd Hf Hk Hr.
    apply apply_entry_spec in Hr as (_ & _ & _ & Hmain).
    specialize (Hmain Hd). rewrite Hf in Hmain.
    destruct (kind f); [|done|].
    all: destruct Hmain as (f' & Hf' & _ & Ha & Hm & _); by exists f'.
  - intros extracted relative_path w f r w' Hf. simpl. unfold bind.
    destruct (_update_timestamp relative_path false _ w) as [r0 w0] eqn:Hstep.
    apply revert_step_spec in Hstep as (_ & _ & _ & _ & Hts).
    destruct (Hts f Hf) as (f' & Hf' & Ha & Hm & _).
    destruct r0; intros [= <- <-]; by exists f'.
Qed.
End TimestampFacts.

(** C9, witness: the file [config.txt] of the example scenario, on apply
    and on revert. *)
Lemma C9_timestamp_delta_one_second_witness :
  (∃ f', tree (apply_entry [(py "example.com", py "example.invalid")] true
                 (py "config.txt") [] config_world).2 !! py "config.txt" = Some f' ∧
         st_atime_ns f' = (7000 + 1000000000)%Z ∧
         st_mtime_ns f' = (5000 + 1000000000)%Z) ∧
  (∃ f', tree (revert_loop [py "a"] (extract_tar_file archive_with_unused)
                 substituted_a_world).2 !! py "a" = Some f' ∧
         st_atime_ns f' = (1000007000 - 1000000000)%Z ∧
         st_mtime_ns f' = (1000005000 - 1000000000)%Z).
Proof.
  destruct C9_timestamp_delta_one_second as (Happly & Hrevert & _).
  split.
  - assert (H1 : INDEX_HASH_DELIMITER ∉ py "config.txt") by compute_done.
    assert (H2 : tree config_world !! py "config.txt"
                 = Some (regular_file "Visit example.com today" 7000 5000))
      by (vm_compute; reflexivity).
    assert (H3 : kind (regular_file "Visit example.com today" 7000 5000) ≠ Symlink)
      by discriminate.
    exact (Happly _ true (py "config.txt") [] config_world _ _ _ H1 H2 H3
             (surjective_pairing _)).
  - assert (H1 : tree substituted_a_world !! py "a"
                 = Some (regular_file "bar" 1000007000 1000005000))
      by (vm_compute; reflexivity).
    exact (Hrevert _ (py "a") substituted_a_world _ _ _ H1 (surjective_pairing _)).
Defined.

(** C9, counterexample: apply moves the modification time of [config.txt]
    from 5000 to 1000005000 nanoseconds, a step of one second and nowhere
    near 31.7 years. *)
Lemma C9_delta_not_years_counterexample :
  let applied := apply_substitution (Some config_rules) (Some (py "config.txt"))
                   true config_world in
  st_mtime_ns <$> tree config_world !! py "config.txt" = Some 5000%Z ∧
  st_mtime_ns <$> tree applied.2 !! py "config.txt" = Some 1000005000%Z ∧
  (1000005000 - 5000 = ns_per_second)%Z ∧
  ¬ (31 * ns_per_year ≤ 1000005000 - 5000 ≤ 32 * ns_per_year)%Z.
Proof.
  split; [vm_compute; reflexivity|]. split; [vm_compute; reflexivity|].
  split; [reflexivity|]. vm_compute. intros [Hlo _]. by apply Hlo.
Qed.

(** ** Lines of text *)

Lemma splitlines_no_linebreak (s l : text) :
  l ∈ splitlines s → no_linebreak l.
Proof.
  remember (length s) as n eqn:Hn. revert s Hn l.
  induction n as [n IHn] using lt_wf_ind. intros s -> l.
  assert (IH : ∀ s0 : text, (length s0 < length s)%nat →
                 ∀ l0, l0 ∈ splitlines s0 → no_linebreak l0)
    by (intros s0 Hlt; by apply (IHn (length s0))).
  clear IHn. revert IH.
  destruct s as [|c s]; intros IH; simpl; [by intros ?%elem_of_nil|].
  destruct (is_linebreak c) eqn:Hc.
  - intros [->|Hin]%elem_of_cons; [by constructor|].
    destruct s as [|c' s']; [by apply elem_of_nil in Hin|].
    destruct ((c =? 13) && (c' =? 10)).
    + apply (IH s'); [simpl; lia|done].
    + apply (IH (c' :: s')); [simpl; lia|done].
  - destruct (splitlines s) as [|l0 ls] eqn:Hs.
    + intros ->%list_elem_of_singleton. by repeat constructor.
    + intros [->|Hin]%elem_of_cons.
      * constructor; [done|]. apply (IH s); [simpl; lia|]. rewrite Hs. by left.
      * apply (IH s); [simpl; lia|]. rewrite Hs. by right.
Qed.

Lemma splitlines_line (l rest : text) :
  no_linebreak l → splitlines (l ++ 10 :: rest) = l :: splitlines rest.
Proof.
  induction 1 as [|c l Hc _ IH]; simpl.
  - by destruct rest.
  - by rewrite Hc, IH.
Qed.

Lemma lines_cons (l : text) (ls : list text) :
  lines (l :: ls) = l ++ 10 :: lines ls.
Proof. unfold lines. simpl. by rewrite <-(assoc_L (++)). Qed.

Lemma splitlines_lines (ls : list text) :
  Forall no_linebreak ls → splitlines (lines ls) = ls.
Proof.
  induction 1 as [|l ls Hl _ IH]; [done|].
  by rewrite lines_cons, splitlines_line, IH.
Qed.

Lemma is_lower_hex_no_linebreak c : is_lower_hex c → is_linebreak c = false.
Proof.
  unfold is_lower_hex, is_linebreak. intros Hc.
  repeat match goal with
         | |- context [N.eqb ?a ?b] => destruct (N.eqb_spec a b); [lia|]
         end.
  done.
Qed.

Lemma entry_text_no_linebreak p c :
  no_linebreak p → no_linebreak (entry_text p c).
Proof.
  intros Hp. unfold entry_text, no_linebreak. apply Forall_app. split; [done|].
  apply Forall_cons. split; [done|].
  eapply Forall_impl; [apply format_08x_lower|]. apply is_lower_hex_no_linebreak.
Qed.

Lemma index_line_entry_text p c : index_line p c = entry_text p c ++ [10].
Proof. unfold index_line, entry_text. by rewrite <-!(assoc_L (++)). Qed.

Lemma format_08x_no_delimiter c : INDEX_HASH_DELIMITER ∉ format_08x c.
Proof.
  intros Hin. pose proof (format_08x_lower c) as Hl.
  rewrite Forall_forall in Hl. specialize (Hl _ Hin).
  unfold is_lower_hex, INDEX_HASH_DELIMITER in Hl. lia.
Qed.

Lemma str_split1_entry_text p c :
  INDEX_HASH_DELIMITER ∉ p →
  str_split1 INDEX_HASH_DELIMITER (entry_text p c) = [p; format_08x c].
Proof. intros Hp. unfold entry_text. by apply str_split1_first. Qed.

Lemma utf8_decode_lines (S : list index_entry) :
  Forall (λ e, str_encode ENCODING (index_line (ie_path e) (ie_crc e))
                 = Some (ie_line e)) S →
  bytes_decode ENCODING (concat (ie_line <$> S)) =
    Some (lines ((λ e, entry_text (ie_path e) (ie_crc e)) <$> S)).
Proof.
  intros HS. apply utf8_decode_encode.
  induction HS as [|e S He _ IH]; [done|].
  rewrite fmap_cons, lines_cons. cbn [fmap list_fmap concat].
  change (entry_text (ie_path e) (ie_crc e) ++ 10 :: ?r)
    with (entry_text (ie_path e) (ie_crc e) ++ [10] ++ r).
  rewrite (assoc_L (++)), <-index_line_entry_text. by apply utf8_encode_app.
Qed.

(** ** Cache Writer: what a successful apply leaves behind *)

Section ApplyInvariant.
Context `{RegexEngine}.

(** A turn of the loop that returns, with a cache path given: either no
    record is made and the bytes of the file stay, or the file was
    rewritten and one index line and one original were added. *)
Lemma apply_entry_ok_cases regex_pairs (p : text) (idx : bytes) (w : world) idx' w' :
  apply_entry regex_pairs true p idx w = (Ok idx', w') →
  (INDEX_HASH_DELIMITER ∉ p) ∧
  source_tree_exists w' = source_tree_exists w ∧
  tree_same_except p w w' ∧
  ((idx' = idx ∧ cache w' = cache w ∧
    content <$> tree w' !! p = content <$> tree w !! p) ∨
   (∃ f f' ln,
      tree w !! p = Some f ∧ tree w' !! p = Some f' ∧
      kind f' ≠ Directory ∧
      st_atime_ns f' = (st_atime_ns f + TIMESTAMP_DELTA)%Z ∧
      st_mtime_ns f' = (st_mtime_ns f + TIMESTAMP_DELTA)%Z ∧
      str_encode ENCODING (index_line p (crc32 (content f'))) = Some ln ∧
      idx' = idx ++ ln ∧
      cache w' = Some (default [] (cache w)
                       ++ [(path_join ORIG_DIR_NAME p, content f)]))).
Proof.
  intros Hr.
  pose proof (apply_entry_spec _ _ _ _ _ _ _ Hr) as (He & Ht & Hd & Hn).
  destruct (decide (INDEX_HASH_DELIMITER ∈ p)) as [Hin|Hnin].
  { by destruct (Hd Hin) as [? _]. }
  split; [done|]. split; [done|]. split; [done|].
  specialize (Hn Hnin).
  destruct (tree w !! p) as [f|] eqn:Hf.
  2:{ destruct Hn as (Ht' & [= ->] & Hc). left. by rewrite Ht', Hf. }
  destruct (kind f) eqn:Hk.
  2:{ destruct Hn as (Ht' & [= ->] & Hc). left. by rewrite Ht', Hf. }
  all: destruct Hn as (f' & Hf' & Hk' & Ha & Hm & Hcases).
  all: destruct Hcases as [(Hco & Hc & Hres)|[(_ & ? & _)
         |[(Hnd & _ & ln & Henc & Hres & Hc)|(_ & _ & ? & _)]]]; try done.
  all: try (left; destruct Hres as [[= ->]|[e ?]]; [|done];
            rewrite Hf'; simpl; by rewrite Hco).
  right. exists f, f', ln. injection Hres as ->.
  split; [done|]. split; [done|]. split; [by rewrite Hk'|]. done.
Qed.

Lemma matches_tree_same_content (S : list index_entry) (w w' : world) :
  (∀ q, content <$> tree w' !! q = content <$> tree w !! q) →
  matches_tree S w → matches_tree S w'.
Proof.
  intros Hsame HS e He. destruct (HS e He) as (e' & f & He' & Hp & Hf & Hcrc).
  specialize (Hsame (ie_path e)). rewrite Hf in Hsame.
  destruct (tree w' !! ie_path e) as [f'|] eqn:Hf'; [|done].
  exists e', f'. injection Hsame as Hco. by rewrite Hco.
Qed.

Lemma matches_tree_snoc (S : list index_entry) (w w' : world) (e : index_entry) f' :
  tree_same_except (ie_path e) w w' →
  tree w' !! ie_path e = Some f' → crc32 (content f') = ie_crc e →
  matches_tree S w → matches_tree (S ++ [e]) w'.
Proof.
  intros Ht Hf' Hcrc HS e0 [He0| ->%list_elem_of_singleton]%elem_of_app.
  - destruct (decide (ie_path e0 = ie_path e)) as [Heq|Hne].
    + exists e, f'. split; [apply elem_of_app; right; by apply list_elem_of_singleton|].
      by rewrite Heq.
    + destruct (HS e0 He0) as (e' & f & He' & Hp & Hf & Hc).
      exists e', f. split; [apply elem_of_app; by left|].
      split; [done|]. split; [|done]. by rewrite Ht.
  - exists e, f'. split; [apply elem_of_app; right; by apply list_elem_of_singleton|].
    done.
Qed.

(** The records of a run of the loop that returns. *)
Lemma apply_loop_inv regex_pairs (paths : list text) (idx : bytes) (w : world)
    (a : archive) idx' w' :
  cache w = Some a →
  apply_loop regex_pairs true paths idx w = (Ok idx', w') →
  ∃ S : list index_entry,
    idx' = idx ++ concat (ie_line <$> S) ∧
    cache w' = Some (a ++ (orig_member <$> S)) ∧
    source_tree_exists w' = source_tree_exists w ∧
    Forall (λ e, ie_path e ∈ paths ∧ (INDEX_HASH_DELIMITER ∉ ie_path e) ∧
                 str_encode ENCODING (index_line (ie_path e) (ie_crc e))
                   = Some (ie_line e)) S ∧
    (∀ S0, matches_tree S0 w → matches_tree (S0 ++ S) w') ∧
    (NoDup paths →
       NoDup (ie_path <$> S) ∧
       (∀ e, e ∈ S →
          ∃ f f', tree w !! ie_path e = Some f ∧ content f = ie_orig e ∧
                  tree w' !! ie_path e = Some f' ∧
                  crc32 (content f') = ie_crc e ∧ kind f' ≠ Directory ∧
                  st_atime_ns f' = (st_atime_ns f + TIMESTAMP_DELTA)%Z ∧
                  st_mtime_ns f' = (st_mtime_ns f + TIMESTAMP_DELTA)%Z) ∧
       (∀ q, q ∉ ie_path <$> S →
             (content <$> tree w' !! q) = (content <$> tree w !! q))).
Proof.
  revert idx w a. induction paths as [|p paths IH]; intros idx w a Ha; simpl.
  { unfold ret. intros [= <- <-]. exists []. simpl.
    split; [by rewrite app_nil_r|]. split; [by rewrite app_nil_r|].
    split; [done|]. split; [done|]. split.
    { intros S0. by rewrite app_nil_r. }
    intros _. split; [constructor|]. split; [|done].
    intros e He. by apply elem_of_nil in He. }
  unfold bind.
  destruct (apply_entry regex_pairs true p idx w) as [[idx1|e] w1] eqn:Hent; [|done].
  intros Hloop.
  apply apply_entry_ok_cases in Hent as (Hnd & Hex & Ht & Hcases).
  pose proof (apply_loop_frame _ _ _ _ _ _ _ Hloop) as [_ Hframe].
  destruct Hcases as [(-> & Hc & Hco)|(f & f' & ln & Hf & Hf' & Hk & Hat & Hmt & Henc & -> & Hc)].
  - rewrite Ha in Hc.
    destruct (IH _ _ _ Hc Hloop) as (S & -> & Hc' & Hex' & Hall & Hm & Hnodup).
    assert (Hsame : ∀ q, (content <$> tree w1 !! q) = (content <$> tree w !! q)).
    { intros q. destruct (decide (q = p)) as [->|Hq]; [done|]. by rewrite Ht. }
    exists S. split; [done|]. split; [done|]. split; [congruence|]. split.
    { eapply Forall_impl; [exact Hall|]. intros e (Hin & ? & ?).
      split; [apply elem_of_cons; by right|done]. }
    split.
    { intros S0 HS0. apply Hm. by eapply matches_tree_same_content. }
    intros [Hp Hnd']%NoDup_cons. destruct (Hnodup Hnd') as (HndS & Hrec & Hrest).
    split; [done|]. split.
    + intros e He. destruct (Hrec e He) as (f1 & f' & Hf1 & ?).
      exists f1, f'. split; [|done]. rewrite <-Ht; [done|].
      rewrite Forall_forall in Hall. destruct (Hall e He) as (Hin & _).
      intros Heq. by rewrite Heq in Hin.
    + intros q Hq. by rewrite Hrest, Hsame.
  - rewrite Ha in Hc. simpl in Hc.
    destruct (IH _ _ _ Hc Hloop) as (S & -> & Hc' & Hex' & Hall & Hm & Hnodup).
    set (e := {| ie_path := p; ie_orig := content f;
                 ie_crc := crc32 (content f'); ie_line := ln |}).
    exists (e :: S). split; [simpl; by rewrite <-(assoc_L (++))|].
    split; [rewrite Hc'; simpl; by rewrite <-(assoc_L (++))|].
    split; [congruence|]. split.
    { apply Forall_cons. split.
      - split; [apply elem_of_cons; by left|done].
      - eapply Forall_impl; [exact Hall|]. intros e0 (Hin & ? & ?).
        split; [apply elem_of_cons; by right|done]. }
    split.
    { intros S0 HS0.
      change (S0 ++ e :: S) with (S0 ++ [e] ++ S). rewrite (assoc_L (++)).
      apply Hm. by apply (matches_tree_snoc S0 w w1 e f'). }
    intros [Hp Hnd']%NoDup_cons. destruct (Hnodup Hnd') as (HndS & Hrec & Hrest).
    assert (HpS : p ∉ ie_path <$> S).
    { intros (e0 & -> & He0)%list_elem_of_fmap.
      rewrite Forall_forall in Hall. by destruct (Hall e0 He0) as (Hin & _). }
    split; [simpl; by apply NoDup_cons|]. split.
    + intros e0 [->|He0]%elem_of_cons.
      * exists f, f'. simpl. split; [done|]. split; [done|].
        split; [by rewrite Hframe|]. done.
      * destruct (Hrec e0 He0) as (f1 & f1' & Hf1 & ?).
        exists f1, f1'. split; [|done]. rewrite <-Ht; [done|].
        intros Heq. apply HpS. rewrite <-Heq. apply list_elem_of_fmap. eauto.
    + intros q [Hq HqS]%not_elem_of_cons. simpl in Hq.
      by rewrite Hrest, Ht.
Qed.
End ApplyInvariant.

(** ** Cache Verifier on the index written by apply *)


Lemma validate_entry_rejects_mismatch (p : text) (c : N) (s : gset (list N)) (w : world) :
  INDEX_HASH_DELIMITER ∉ p → c < 2 ^ 32 →
  (∀ f, tree w !! p = Some f → crc32 (content f) ≠ c) →
  ∃ w', _validate_index_entry (entry_text p c) s w = (Ok (false, s), w').
Proof.
  intros Hd Hc Hne. unfold _validate_index_entry.
  rewrite str_split1_entry_text by done.
  assert (Hrej : ∀ m, ∃ w',
    (let! _ := logger ERROR m in ret (false, s)) w = (Ok (false, s), w'))
    by (intros m; unfold_M; by eexists).
  destruct (bool_decide (p = []) || bool_decide (format_08x c = [])); [apply Hrej|].
  rewrite crc32_regex_match_format by done. simpl.
  unfold bind at 1, get_world.
  destruct (tree w !! p) as [f|] eqn:Hf; [|apply Hrej].
  rewrite int_base16_format by done.
  destruct (N.eqb_spec (crc32 (content f)) c) as [Heq|_]; [by destruct (Hne f)|].
  simpl. destruct (kind f); apply Hrej.
Qed.



Lemma validate_entries_rejects (entries : list text) (entry : text) (flag : bool)
    (s : gset (list N)) (w : world) :
  entry ∈ entries →
  (∀ s0 w0, tree w0 = tree w →
     ∃ w', _validate_index_entry entry s0 w0 = (Ok (false, s0), w')) →
  ∃ s' w', validate_entries entries flag s w = (Ok (false, s'), w') ∧
           tree w' = tree w ∧ cache w' = cache w.
Proof.
  intros (pre & post & ->)%list_elem_of_split Hrej.
  rewrite validate_entries_app.
  destruct (validate_entries_spec pre flag s w)
    as (flag1 & s1 & w1 & -> & _ & Ht1 & Hc1 & _).
  simpl. unfold bind.
  destruct (Hrej s1 w1 Ht1) as (w2 & Hent). rewrite Hent.
  destruct (_validate_index_entry_spec entry s1 w1)
    as (v2 & s2 & w2' & Hent' & _ & Ht2 & Hc2 & _).
  rewrite Hent in Hent'. injection Hent' as <- <- <-.
  destruct (validate_entries_spec post false s1 w2)
    as (flag' & s' & w' & Hpost & _ & Ht' & Hc' & _).
  pose proof (validate_entries_flag_false _ _ _ _ _ _ Hpost) as ->.
  exists s', w'. split; [done|]. split; congruence.
Qed.

(** ** Revert Engine: the two ways a revert ends after extraction *)

Lemma revert_raises_on_invalid (w : world) :
  verification_fails w →
  ∃ w', revert_substitution true w = (Raise KeyError, w') ∧
        tree w' = tree w ∧ cache w' = cache w.
Proof.
  intros (cache_tar & index_file & files & wv & Hc & He & Hidx & Hval).
  unfold revert_substitution. simpl. unfold bind at 1, get_world.
  rewrite Hc, He. simpl.
  unfold bind at 1, logger at 1, modify at 1.
  unfold bind at 1, logger at 1, modify at 1.
  rewrite Hidx. unfold bind at 1. rewrite Hval. simpl.
  exists wv. split; [done|].
  unfold _validate_file_index in Hval.
  destruct (bytes_decode ENCODING index_file) as [index_content|].
  - destruct (validate_entries_spec (splitlines index_content) true ∅
                (add_log DEBUG Validating_substituted_files
                   (add_log DEBUG Extracting_cache w)))
      as (? & ? & wv' & Heq & _ & Ht & Hc' & _).
    rewrite Heq in Hval. injection Hval as _ _ <-. simpl in Ht, Hc'.
    split; congruence.
  - unfold_M. simpl in Hval. injection Hval as _ <-. simpl. by rewrite Hc.
Qed.

(** ** The archive a successful apply writes, and its extraction *)

Lemma path_join_inj (a p q : text) : path_join a p = path_join a q → p = q.
Proof. unfold path_join. intros Heq. by simplify_list_eq. Qed.

Lemma orig_path_not_index (p : text) :
  path_join ORIG_DIR_NAME p ≠ INDEX_LIST_FILENAME.
Proof. intros Heq. vm_compute in Heq. discriminate Heq. Qed.


Lemma extract_index (members : archive) (index_file : bytes) :
  extract_tar_file (members ++ [(INDEX_LIST_FILENAME, index_file)])
    !! INDEX_LIST_FILENAME = Some index_file.
Proof.
  unfold extract_tar_file. rewrite reverse_snoc, list_to_map_cons.
  apply lookup_insert_eq.
Qed.




Lemma substituted_entry (S : list index_entry) (index_file : bytes) (w : world)
    (p : text) :
  cache w = Some ((orig_member <$> S) ++ [(INDEX_LIST_FILENAME, index_file)]) →
  substituted w p ↔ ∃ e, e ∈ S ∧ ie_path e = p.
Proof.
  intros Hc. unfold substituted. rewrite Hc. simpl. split.
  - intros [data [Hin|Hin%list_elem_of_singleton]%elem_of_app].
    + apply list_elem_of_fmap in Hin as (e & Heq & He).
      exists e. split; [done|]. unfold orig_member in Heq.
      apply (f_equal fst) in Heq. simpl in Heq. symmetry.
      by apply path_join_inj in Heq.
    + apply (f_equal fst) in Hin. simpl in Hin. by apply orig_path_not_index in Hin.
  - intros (e & He & <-). exists (ie_orig e). apply elem_of_app. left.
    apply list_elem_of_fmap. by exists e.
Qed.

Section ApplyResult.
Context `{RegexEngine}.

(** What a successful [apply_substitution] with a cache leaves behind. *)
Lemma apply_substitution_ok_inv (regex_text files_text : text) (w w1 : world) :
  apply_substitution (Some regex_text) (Some files_text) true w = (Ok (), w1) →
  ∃ S : list index_entry,
    source_tree_exists w1 = true ∧
    cache w1 = Some ((orig_member <$> S)
                     ++ [(INDEX_LIST_FILENAME, concat (ie_line <$> S))]) ∧
    Forall (λ e, ie_path e ∈ filter_len (splitlines files_text) ∧
                 (INDEX_HASH_DELIMITER ∉ ie_path e) ∧
                 str_encode ENCODING (index_line (ie_path e) (ie_crc e))
                   = Some (ie_line e)) S ∧
    matches_tree S w1 ∧
    (NoDup (filter_len (splitlines files_text)) →
       NoDup (ie_path <$> S) ∧
       (∀ e, e ∈ S →
          ∃ f f', tree w !! ie_path e = Some f ∧ content f = ie_orig e ∧
                  tree w1 !! ie_path e = Some f' ∧
                  crc32 (content f') = ie_crc e ∧ kind f' ≠ Directory ∧
                  st_atime_ns f' = (st_atime_ns f + TIMESTAMP_DELTA)%Z ∧
                  st_mtime_ns f' = (st_mtime_ns f + TIMESTAMP_DELTA)%Z) ∧
       (∀ q, q ∉ ie_path <$> S →
             (content <$> tree w1 !! q) = (content <$> tree w !! q))).
Proof.
  unfold apply_substitution, bind at 1, get_world.
  destruct (source_tree_exists w) eqn:Hex; simpl; [|done].
  destruct (bool_decide (is_Some (cache w))); [done|].
  destruct (regex_pairs (filter_len (splitlines regex_text))) as [pairs|e]; [|done].
  unfold bind at 1, modify at 1. unfold bind at 1.
  destruct (apply_loop pairs true (filter_len (splitlines files_text)) []
              (set_cache (Some []) w)) as [[idx|e] wl] eqn:Hloop; [|done].
  unfold tar_addfile, modify. intros [= <-].
  apply (apply_loop_inv _ _ _ _ []) in Hloop
    as (S & -> & Hc' & Hex' & Hall & Hm & Hnd); [|done].
  exists S. simpl. rewrite Hc'. simpl.
  split; [by rewrite Hex'|]. split; [done|]. split; [done|]. split.
  { apply (Hm []). intros e He. by apply elem_of_nil in He. }
  exact Hnd.
Qed.
End ApplyResult.

(** ** The index written by apply, read back by the Verifier *)

Lemma index_entries_no_linebreak (files_text : text) (S : list index_entry) :
  Forall (λ e, ie_path e ∈ filter_len (splitlines files_text)) S →
  Forall no_linebreak ((λ e, entry_text (ie_path e) (ie_crc e)) <$> S).
Proof.
  intros HS. apply Forall_fmap. eapply Forall_impl; [exact HS|].
  intros e [_ Hin]%elem_of_filter_len. simpl.
  by apply entry_text_no_linebreak, (splitlines_no_linebreak files_text).
Qed.


(** ** Corruption detection *)

Lemma mutate_byte_spec (p : text) (i : nat) (b' : byte) (w : world) f :
  tree w !! p = Some f →
  source_tree_exists (mutate_byte p i b' w) = source_tree_exists w ∧
  cache (mutate_byte p i b' w) = cache w ∧
  ∃ fm, tree (mutate_byte p i b' w) !! p = Some fm ∧
        content fm = <[i := b']> (content f).
Proof.
  intros Hf. unfold mutate_byte. rewrite Hf. simpl.
  split; [done|]. split; [done|]. rewrite lookup_insert_eq. by eexists.
Qed.

Section CorruptionDetection.
Context `{RegexEngine}.

Lemma mutated_verification_fails (w : world) :
  mutated_after_apply w → verification_fails w.
Proof.
  intros (regex_text & files_text & w0 & w1 & p & f & i & b & b'
          & Happly & Hsub & Hf & Hi & Hne & ->).
  apply apply_substitution_ok_inv in Happly
    as (S & Hex & Hc & Hall & Hmatch & _).
  apply (substituted_entry S _ w1 p Hc) in Hsub as (e & He & Hp).
  destruct (Hmatch e He) as (e' & f0 & He' & Hp' & Hf0 & Hcrc).
  rewrite Hp in Hp', Hf0. rewrite Hf in Hf0. injection Hf0 as <-.
  destruct (mutate_byte_spec p i b' w1 f Hf) as (Hexm & Hcm & fm & Hfm & Hcon).
  set (wm := mutate_byte p i b' w1) in *.
  set (wl := add_log DEBUG Validating_substituted_files
               (add_log DEBUG Extracting_cache wm)).
  assert (Hrej : ∃ s' w',
    validate_entries ((λ e, entry_text (ie_path e) (ie_crc e)) <$> S) true ∅ wl
      = (Ok (false, s'), w') ∧ tree w' = tree wl ∧ cache w' = cache wl).
  { apply (validate_entries_rejects _ (entry_text p (ie_crc e'))).
    - apply list_elem_of_fmap. exists e'. by rewrite Hp'.
    - intros s0 w2 Ht2. apply validate_entry_rejects_mismatch.
      + rewrite Forall_forall in Hall. destruct (Hall e' He') as (_ & Hd & _).
        by rewrite <-Hp'.
      + rewrite <-Hcrc. apply crc32_lt.
      + intros f1 Hf1. rewrite Ht2 in Hf1. simpl in Hf1.
        rewrite Hfm in Hf1. injection Hf1 as <-.
        rewrite Hcon, <-Hcrc. by apply (crc32_changed_byte _ _ b). }
  destruct Hrej as (s' & w' & Hval & _).
  exists ((orig_member <$> S) ++ [(INDEX_LIST_FILENAME, concat (ie_line <$> S))]),
    (concat (ie_line <$> S)), s', w'.
  split; [by rewrite Hcm|]. split; [by rewrite Hexm|].
  split; [apply extract_index|].
  unfold _validate_file_index. rewrite utf8_decode_lines.
  - rewrite splitlines_lines; [done|].
    apply (index_entries_no_linebreak files_text).
    eapply Forall_impl; [exact Hall|]. by intros ? [? _].
  - eapply Forall_impl; [exact Hall|]. by intros ? (_ & _ & ?).
Qed.

(** C2: whenever the Verifier answers "invalid" during a revert, the
    revert raises the integrity error ([KeyError]) and leaves the tree
    and the cache archive as they were; and a world that a successful
    apply left behind, with one byte of one rewritten file changed
    afterwards, is such a case. *)
Theorem C2_invalid_cache_leaves_all_untouched (w : world) :
  verification_fails w ∨ mutated_after_apply w →
  ∃ w', revert_substitution true w = (Raise KeyError, w') ∧
        tree w' = tree w ∧ cache w' = cache w.
Proof.
  intros [Hfail|Hmut].
  - by apply revert_raises_on_invalid.
  - by apply revert_raises_on_invalid, mutated_verification_fails.
Qed.
End CorruptionDetection.

(** C2, witness: an archive whose index is broken, and the example
    scenario with the first byte of [config.txt] changed after apply. *)
Lemma C2_invalid_cache_leaves_all_untouched_witness :
  (∃ w', revert_substitution true broken_cache_world = (Raise KeyError, w') ∧
         tree w' = tree broken_cache_world ∧
         cache w' = cache broken_cache_world) ∧
  (∃ w', revert_substitution true
           (mutate_byte (py "config.txt") 0 "X"%byte config_applied)
           = (Raise KeyError, w') ∧
         tree w' = tree (mutate_byte (py "config.txt") 0 "X"%byte config_applied) ∧
         cache w' = cache (mutate_byte (py "config.txt") 0 "X"%byte config_applied)).
Proof.
  split.
  - apply (C2_invalid_cache_leaves_all_untouched broken_cache_world). left.
    exists [(INDEX_LIST_FILENAME, broken_index)], broken_index, ∅,
      (_validate_file_index broken_index ∅
         (add_log DEBUG Validating_substituted_files
            (add_log DEBUG Extracting_cache broken_cache_world))).2.
    split; [reflexivity|]. split; [reflexivity|].
    split; [vm_compute; reflexivity|]. vm_compute. reflexivity.
  - apply (C2_invalid_cache_leaves_all_untouched
             (mutate_byte (py "config.txt") 0 "X"%byte config_applied)). right.
    exists config_rules, (py "config.txt"), config_world, config_applied,
      (py "config.txt"),
      {| kind := Regular; content := pyb "Visit example.invalid today";
         st_atime_ns := 1000007000; st_mtime_ns := 1000005000; writable := true |},
      0%nat, "V"%byte, "X"%byte.
    split; [vm_compute; reflexivity|]. split.
    { exists (pyb "Visit example.com today"). vm_compute. left. }
    split; [vm_compute; reflexivity|]. split; [reflexivity|].
    split; [discriminate|reflexivity].
Defined.

(** ** Round trip *)



Section RoundTrip.
Context `{RegexEngine}.

End RoundTrip.



(** ** The causes of a rejection *)

(** An index line that cannot be split, that has an empty part, whose
    hash is not eight letters or digits or is no hexadecimal number, whose
    file is missing or has another checksum, or whose path was seen
    before, is rejected. *)
Lemma validate_entry_rejects_causes (entry : text) (s : gset (list N)) (w : world) :
  INDEX_HASH_DELIMITER ∉ entry ∨
  (∃ p h, entry = p ++ INDEX_HASH_DELIMITER :: h ∧ (INDEX_HASH_DELIMITER ∉ p) ∧
     (p = [] ∨ h = [] ∨ crc32_regex_match h = false ∨ int_base16 h = None ∨
      tree w !! p = None ∨
      (∃ f, tree w !! p = Some f ∧ int_base16 h ≠ Some (crc32 (content f))) ∨
      p ∈ s)) →
  ∃ w', _validate_index_entry entry s w = (Ok (false, s), w').
Proof.
  assert (Hrej : ∀ m, ∃ w',
    (let! _ := logger ERROR m in ret (false, s)) w = (Ok (false, s), w'))
    by (intros m; unfold_M; by eexists).
  unfold _validate_index_entry.
  intros [Hn|(p & h & -> & Hp & Hcause)].
  { rewrite str_split1_absent by done. apply Hrej. }
  rewrite str_split1_first by done.
  case_bool_decide as H1; [apply Hrej|].
  case_bool_decide as H2; [apply Hrej|]. simpl.
  destruct (crc32_regex_match h) eqn:H3; [|apply Hrej]. simpl.
  unfold bind at 1, get_world.
  destruct (tree w !! p) as [f|] eqn:Hf; [|apply Hrej].
  destruct (int_base16 h) as [recorded|] eqn:H4; [|destruct (kind f); apply Hrej].
  destruct (N.eqb_spec (crc32 (content f)) recorded) as [Heq|_];
    [|destruct (kind f); apply Hrej]. simpl.
  case_bool_decide as H5; [destruct (kind f); apply Hrej|].
  exfalso. destruct Hcause as [?|[?|[?|[?|[?|[(f' & Hf' & Hne)|?]]]]]]; try done.
  injection Hf' as <-. by rewrite Heq in Hne.
Qed.

(** The pattern of the hash lets through eight letters or digits that
    [int(_, 16)] refuses, and the prefixed form [0x123456] that it reads as
    a number. *)
Example verifier_hash_forms :
  crc32_regex_match (py "zzzzzzzz") = true ∧ int_base16 (py "zzzzzzzz") = None ∧
  crc32_regex_match (py "0x123456") = true ∧
  int_base16 (py "0x123456") = Some 0x123456 ∧
  crc32_regex_match (py "1234567") = false.
Proof. repeat split; vm_compute; reflexivity. Qed.

(** * Further properties of the module *)

(** ** [str.split] *)

Lemma str_split1_inv (sep : N) (s a b : text) :
  str_split1 sep s = [a; b] → s = a ++ sep :: b ∧ sep ∉ a.
Proof.
  revert a. induction s as [|c s IH]; intros a; simpl; [done|].
  destruct (N.eqb_spec c sep) as [->|Hne].
  - intros [= <- <-]. split; [done|]. apply not_elem_of_nil.
  - destruct (str_split1 sep s) as [|a0 rest] eqn:Hs; [done|].
    intros [= <- ->]. destruct (IH a0 eq_refl) as [-> Hn].
    split; [done|]. apply not_elem_of_cons. by split; [intros ->|].
Qed.

Lemma str_split1_head (sep : N) (s a b : text) :
  str_split1 sep s = [a; b] → head (str_split1 sep s) = Some a.
Proof. by intros ->. Qed.

(** ** File Transformer: every outcome of the transform *)

Lemma decode_file_content_ok (content_bytes : bytes) :
  ∃ s, _decode_file_content content_bytes = Ok s.
Proof.
  unfold _decode_file_content, TREE_ENCODINGS. simpl.
  destruct (utf8_decode content_bytes); eauto.
Qed.

Lemma make_writable_id (f : node) : writable f = true → make_writable f = f.
Proof. destruct f as [k c a m wr]. simpl. by intros ->. Qed.

Lemma ensure_writable_full (path : text) (f : node) (w : world) :
  tree w !! path = Some f →
  ∃ wa, ensure_writable path f w = (Ok (), wa) ∧
    source_tree_exists wa = source_tree_exists w ∧ cache wa = cache w ∧
    tree wa = <[path := make_writable f]> (tree w).
Proof.
  intros Hf. unfold ensure_writable. destruct (writable f) eqn:Hw.
  - exists w. split; [done|]. split; [done|]. split; [done|].
    rewrite make_writable_id by done. by rewrite insert_id.
  - unfold chmod_add_write. unfold_M. simpl. rewrite Hf.
    eexists. split; [done|]. done.
Qed.

Section TransformCases.
Context `{RegexEngine}.

(** The block under the opened file either leaves the world as it was
    and reports why, or writes the UTF-8 bytes of the substituted text. *)
Lemma rewrite_opened_cases (path : text) (f fa : node)
    (regex_iter : list (re_pattern * text)) (wa : world) r w' :
  tree wa !! path = Some fa →
  rewrite_opened path f regex_iter wa = (r, w') →
  (w' = wa ∧
   ((r = Raise (FileProcessingError path) ∧ kind f = Directory) ∨
    r = Raise ReError ∨ r = Raise UnicodeEncodeError ∨ r = Ok None)) ∨
  (∃ s s' n enc,
     kind f ≠ Directory ∧ content f ≠ [] ∧
     _decode_file_content (content f) = Ok s ∧
     _apply_regex_substitutions s regex_iter = Some (s', n) ∧ (0 < n)%nat ∧
     str_encode UTF_8 s' = Some enc ∧
     r = Ok (Some (crc32 enc, content f)) ∧
     w' = set_tree (<[path := with_content fa enc]> (tree wa)) wa).
Proof.
  intros Hfa. unfold rewrite_opened.
  destruct (kind f) eqn:Hk.
  3:{ intros [= <- <-]. left. split; [done|]. by left. }
  all: destruct (content f) as [|b0 bs] eqn:Hc;
    [intros [= <- <-]; left; split; [done|]; by do 3 right|].
  all: destruct (decode_file_content_ok (b0 :: bs)) as [s Hs]; rewrite Hs.
  all: destruct (_apply_regex_substitutions s regex_iter) as [[s' n]|] eqn:Hsub;
    [|intros [= <- <-]; left; split; [done|]; right; by left].
  all: destruct (0 <? n)%nat eqn:Hn;
    [|intros [= <- <-]; left; split; [done|]; by do 3 right].
  all: destruct (str_encode UTF_8 s') as [enc|] eqn:Henc;
    [|intros [= <- <-]; left; split; [done|]; right; right; by left].
  all: unfold write_file; unfold_M; rewrite Hfa; intros [= <- <-].
  all: right; exists s, s', n, enc.
  all: split; [done|]; split; [done|]; split; [done|]; split; [done|].
  all: split; [by apply Nat.ltb_lt|]; done.
Qed.

(** [_substitute_path] on an existing path. *)
Lemma _substitute_path_cases (path : text)
    (regex_iter : list (re_pattern * text)) (w : world) (f : node) r w' :
  tree w !! path = Some f →
  _substitute_path path regex_iter w = (r, w') →
  source_tree_exists w' = source_tree_exists w ∧ cache w' = cache w ∧
  ((tree w' = <[path := make_writable f]> (tree w) ∧
    ((r = Raise (FileProcessingError path) ∧ kind f = Directory) ∨
     r = Raise ReError ∨ r = Raise UnicodeEncodeError ∨ r = Ok None)) ∨
   (∃ s s' n enc,
      kind f ≠ Directory ∧ content f ≠ [] ∧
      _decode_file_content (content f) = Ok s ∧
      _apply_regex_substitutions s regex_iter = Some (s', n) ∧ (0 < n)%nat ∧
      str_encode UTF_8 s' = Some enc ∧
      r = Ok (Some (crc32 enc, content f)) ∧
      tree w' = <[path := with_content (make_writable f) enc]> (tree w))).
Proof.
  intros Hf. unfold _substitute_path, bind at 1, get_world. rewrite Hf.
  destruct (ensure_writable_full path f w Hf) as (wa & Hew & He & Hc & Ht).
  unfold bind. rewrite Hew. intros Hr.
  assert (Hfa : tree wa !! path = Some (make_writable f))
    by (by rewrite Ht, lookup_insert_eq).
  destruct (rewrite_opened_cases _ _ _ _ _ _ _ Hfa Hr)
    as [[-> Hres]|(s & s' & n & enc & ? & ? & ? & ? & ? & ? & -> & ->)].
  - split; [done|]. split; [done|]. left. done.
  - simpl. split; [done|]. split; [done|]. right.
    exists s, s', n, enc. do 7 (split; [done|]).
    by rewrite Ht, insert_insert_eq.
Qed.
End TransformCases.

(** ** Cache Writer: every outcome of one entry *)

Lemma os_utime_insert (path : text) (ns : Z * Z) (w : world) (g : node)
    (t : gmap (list N) node) :
  tree w = <[path := g]> t →
  tree (os_utime path ns w) = <[path := with_times g ns.1 ns.2]> t.
Proof.
  intros Ht. unfold os_utime. rewrite Ht, lookup_insert_eq. simpl.
  by rewrite insert_insert_eq.
Qed.

Section EntryCases.
Context `{RegexEngine}.

Lemma apply_entry_cases (regex_pairs : list (re_pattern * text))
    (domainsub_cache : bool) (p : text) (idx : bytes) (w : world) r w' :
  apply_entry regex_pairs domainsub_cache p idx w = (r, w') →
  source_tree_exists w' = source_tree_exists w ∧
  ((INDEX_HASH_DELIMITER ∈ p ∧ r = Raise (ValueError p) ∧ tree w' = tree w ∧
    cache w' = if domainsub_cache then None else cache w) ∨
   ((INDEX_HASH_DELIMITER ∉ p) ∧
    (tree w !! p = None ∨ ∃ f, tree w !! p = Some f ∧ kind f = Symlink) ∧
    tree w' = tree w ∧ cache w' = cache w ∧ r = Ok idx) ∨
   ((INDEX_HASH_DELIMITER ∉ p) ∧
    ∃ f, tree w !! p = Some f ∧ kind f ≠ Symlink ∧
      ((tree w' = <[p := moved_times f (make_writable f) TIMESTAMP_DELTA]> (tree w) ∧
        cache w' = cache w ∧
        ((r = Raise (FileProcessingError p) ∧ kind f = Directory) ∨
         r = Raise ReError ∨ r = Raise UnicodeEncodeError ∨ r = Ok idx)) ∨
       (∃ s s' n enc,
          kind f ≠ Directory ∧ content f ≠ [] ∧
          _decode_file_content (content f) = Ok s ∧
          _apply_regex_substitutions s regex_pairs = Some (s', n) ∧ (0 < n)%nat ∧
          str_encode UTF_8 s' = Some enc ∧
          tree w' = <[p := moved_times f (with_content (make_writable f) enc)
                             TIMESTAMP_DELTA]> (tree w) ∧
          ((domainsub_cache = false ∧ r = Ok idx ∧ cache w' = cache w) ∨
           (domainsub_cache = true ∧
            ∃ line, str_encode ENCODING (index_line p (crc32 enc)) = Some line ∧
                    r = Ok (idx ++ line) ∧
                    cache w' = Some (default [] (cache w)
                                     ++ [(path_join ORIG_DIR_NAME p, content f)])) ∨
           (domainsub_cache = true ∧ r = Raise UnicodeEncodeError ∧
            cache w' = cache w)))))).
Proof.
  unfold apply_entry. case_bool_decide as Hd.
  { intros Hr. assert (r = Raise (ValueError p) ∧ tree w' = tree w ∧
      source_tree_exists w' = source_tree_exists w ∧
      cache w' = if domainsub_cache then None else cache w) as (-> & Ht & He & Hc).
    { destruct domainsub_cache; unfold_M; simpl in Hr; by simplify_eq. }
    split; [done|]. by left. }
  unfold bind at 1, get_world.
  destruct (tree w !! p) as [f|] eqn:Hf.
  2:{ unfold_M. intros [= <- <-]. simpl. split; [done|]. right. left.
      split; [done|]. split; [by left|]. done. }
  assert (Hmain :
    (let! r := _update_timestamp p true (_substitute_path p regex_pairs) in
     match r with
     | None => let! _ := logger INFO (Path_has_no_substitutions p) in ret idx
     | Some (crc32_hash, orig_content) =>
         if domainsub_cache then
           match str_encode ENCODING (index_line p crc32_hash) with
           | None => raise UnicodeEncodeError
           | Some line =>
               let! _ := tar_addfile (path_join ORIG_DIR_NAME p) orig_content in
               ret (idx ++ line)
           end
         else ret idx
     end) w = (r, w') →
    source_tree_exists w' = source_tree_exists w ∧
    ((tree w' = <[p := moved_times f (make_writable f) TIMESTAMP_DELTA]> (tree w) ∧
      cache w' = cache w ∧
      ((r = Raise (FileProcessingError p) ∧ kind f = Directory) ∨
       r = Raise ReError ∨ r = Raise UnicodeEncodeError ∨ r = Ok idx)) ∨
     (∃ s s' n enc,
        kind f ≠ Directory ∧ content f ≠ [] ∧
        _decode_file_content (content f) = Ok s ∧
        _apply_regex_substitutions s regex_pairs = Some (s', n) ∧ (0 < n)%nat ∧
        str_encode UTF_8 s' = Some enc ∧
        tree w' = <[p := moved_times f (with_content (make_writable f) enc)
                           TIMESTAMP_DELTA]> (tree w) ∧
        ((domainsub_cache = false ∧ r = Ok idx ∧ cache w' = cache w) ∨
         (domainsub_cache = true ∧
          ∃ line, str_encode ENCODING (index_line p (crc32 enc)) = Some line ∧
                  r = Ok (idx ++ line) ∧
                  cache w' = Some (default [] (cache w)
                                   ++ [(path_join ORIG_DIR_NAME p, content f)])) ∨
         (domainsub_cache = true ∧ r = Raise UnicodeEncodeError ∧
          cache w' = cache w))))).
  { unfold bind at 1, _update_timestamp. rewrite Hf.
    destruct (_substitute_path p regex_pairs w) as [r0 w0] eqn:Hsp.
    destruct (_substitute_path_cases _ _ _ _ _ _ Hf Hsp)
      as (He & Hc & [[Ht Hres]|(s & s' & n & enc & Hnd & Hne & Hdec & Hsub & Hn
                                & Henc & -> & Ht)]).
    - set (w1 := os_utime p _ w0).
      assert (Ht1 : tree w1 = <[p := moved_times f (make_writable f) TIMESTAMP_DELTA]>
                                (tree w)) by (by apply os_utime_insert).
      assert (Hc1 : cache w1 = cache w) by (subst w1; by rewrite os_utime_cache).
      assert (He1 : source_tree_exists w1 = source_tree_exists w)
        by (subst w1; by rewrite os_utime_exists).
      clearbody w1.
      destruct Hres as [[-> Hdir]|[->|[->| ->]]].
      + intros [= <- <-]. split; [done|]. left. split; [done|]. split; [done|].
        by left.
      + intros [= <- <-]. split; [done|]. left. split; [done|]. split; [done|].
        right. by left.
      + intros [= <- <-]. split; [done|]. left. split; [done|]. split; [done|].
        right. right. by left.
      + unfold_M. intros [= <- <-]. simpl. split; [done|]. left.
        split; [done|]. split; [done|]. by do 3 right.
    - set (w1 := os_utime p _ w0).
      assert (Ht1 : tree w1 = <[p := moved_times f (with_content (make_writable f) enc)
                                       TIMESTAMP_DELTA]> (tree w))
        by (by apply os_utime_insert).
      assert (Hc1 : cache w1 = cache w) by (subst w1; by rewrite os_utime_cache).
      assert (He1 : source_tree_exists w1 = source_tree_exists w)
        by (subst w1; by rewrite os_utime_exists).
      clearbody w1.
      destruct domainsub_cache.
      + destruct (str_encode ENCODING (index_line p (crc32 enc))) as [line|] eqn:Hl.
        * unfold tar_addfile. unfold_M. intros [= <- <-]. simpl.
          split; [done|]. right. exists s, s', n, enc.
          do 7 (split; [done|]). right. left. split; [done|].
          exists line. rewrite Hc1. done.
        * intros [= <- <-]. split; [done|]. right. exists s, s', n, enc.
          do 7 (split; [done|]). right. right. done.
      + unfold_M. intros [= <- <-]. split; [done|]. right. exists s, s', n, enc.
        do 7 (split; [done|]). left. done. }
  destruct (kind f) eqn:Hkf.
  2:{ unfold_M. intros [= <- <-]. simpl. split; [done|]. right. left.
      split; [done|]. split; [right; by exists f|]. done. }
  all: intros Hr; destruct (Hmain Hr) as [He Hcases]; split; [done|].
  all: right; right; split; [done|]; exists f; rewrite Hkf; done.
Qed.
End EntryCases.

(** ** Cache Writer: every outcome of the loop and of the call *)

Section ApplyOutcomes.
Context `{RegexEngine}.

Lemma apply_entry_kinds (regex_pairs : list (re_pattern * text))
    (domainsub_cache : bool) (p : text) (idx : bytes) (w : world) r w' :
  apply_entry regex_pairs domainsub_cache p idx w = (r, w') →
  ∀ q, (kind <$> tree w' !! q) = (kind <$> tree w !! q).
Proof.
  intros Hr q. apply apply_entry_cases in Hr as [_ Hcases].
  destruct Hcases as [(_ & _ & -> & _)|[(_ & _ & -> & _)|(_ & f & Hf & _ & Hc)]];
    [done..|].
  destruct Hc as [(-> & _)|(s & s' & n & enc & _ & _ & _ & _ & _ & _ & -> & _)].
  all: destruct (decide (q = p)) as [->|Hq];
    [by rewrite lookup_insert_eq, Hf|by rewrite lookup_insert_ne].
Qed.

Lemma apply_entry_no_cache (regex_pairs : list (re_pattern * text))
    (p : text) (idx : bytes) (w : world) r w' :
  apply_entry regex_pairs false p idx w = (r, w') → cache w' = cache w.
Proof.
  intros Hr. apply apply_entry_cases in Hr as [_ Hcases].
  destruct Hcases as [(_ & _ & _ & ->)|[(_ & _ & _ & -> & _)|(_ & f & Hf & _ & Hc)]];
    [done..|].
  destruct Hc as [(_ & -> & _)|(s & s' & n & enc & _ & _ & _ & _ & _ & _ & _ & Hc)];
    [done|].
  by destruct Hc as [(_ & _ & ->)|[(? & _)|(? & _)]].
Qed.

(** With a cache path: a delimiter removes the archive, anything else
    leaves an archive that holds originals only. *)
Lemma apply_entry_cache (regex_pairs : list (re_pattern * text))
    (p : text) (idx : bytes) (w : world) (a : archive) r w' :
  cache w = Some a → only_originals a →
  apply_entry regex_pairs true p idx w = (r, w') →
  (r = Raise (ValueError p) ∧ INDEX_HASH_DELIMITER ∈ p ∧ cache w' = None) ∨
  ((INDEX_HASH_DELIMITER ∉ p) ∧
   (∃ a', cache w' = Some a' ∧ only_originals a') ∧
   ∀ e, r = Raise e → transform_error e).
Proof.
  intros Ha Hoa Hr. apply apply_entry_cases in Hr as [_ Hcases].
  destruct Hcases as [(? & -> & _ & ->)|[(? & _ & _ & -> & ->)|(? & f & Hf & _ & Hc)]].
  - by left.
  - right. split; [done|]. split; [by exists a|]. done.
  - right. split; [done|].
    destruct Hc as [(_ & -> & Hres)|(s & s' & n & enc & _ & _ & _ & _ & _ & _ & _ & Hc)].
    + split; [by exists a|]. intros e ->.
      destruct Hres as [[[= ->] _]|[[= ->]|[[= ->]|?]]]; try done.
      * left. by eexists.
      * right. by left.
      * by do 2 right.
    + destruct Hc as [(? & _)|[(_ & line & _ & -> & ->)|(_ & -> & ->)]]; [done| |].
      * split; [|done]. rewrite Ha. simpl. eexists. split; [done|].
        apply Forall_app. split; [done|]. apply Forall_singleton. by eexists.
      * split; [by exists a|]. intros e [= <-]. by do 2 right.
Qed.

Lemma apply_loop_kinds (regex_pairs : list (re_pattern * text))
    (domainsub_cache : bool) (paths : list text) (idx : bytes) (w : world) r w' :
  apply_loop regex_pairs domainsub_cache paths idx w = (r, w') →
  ∀ q, (kind <$> tree w' !! q) = (kind <$> tree w !! q).
Proof.
  revert idx w. induction paths as [|p paths IH]; intros idx w; simpl.
  { unfold ret. by intros [= <- <-]. }
  unfold bind.
  destruct (apply_entry regex_pairs domainsub_cache p idx w) as [[idx'|e] w0] eqn:He.
  - intros Hl q. rewrite (IH _ _ Hl). by eapply apply_entry_kinds.
  - intros [= <- <-]. by eapply apply_entry_kinds.
Qed.

Lemma apply_loop_no_cache (regex_pairs : list (re_pattern * text))
    (paths : list text) (idx : bytes) (w : world) r w' :
  apply_loop regex_pairs false paths idx w = (r, w') → cache w' = cache w.
Proof.
  revert idx w. induction paths as [|p paths IH]; intros idx w; simpl.
  { unfold ret. by intros [= <- <-]. }
  unfold bind.
  destruct (apply_entry regex_pairs false p idx w) as [[idx'|e] w0] eqn:He.
  - intros Hl. rewrite (IH _ _ Hl). by eapply apply_entry_no_cache.
  - intros [= <- <-]. by eapply apply_entry_no_cache.
Qed.

Lemma apply_loop_raises (regex_pairs : list (re_pattern * text))
    (domainsub_cache : bool) (paths : list text) (idx : bytes) (w : world) e w' :
  apply_loop regex_pairs domainsub_cache paths idx w = (Raise e, w') →
  (∃ p, e = ValueError p ∧ p ∈ paths ∧ INDEX_HASH_DELIMITER ∈ p) ∨
  transform_error e.
Proof.
  revert idx w. induction paths as [|p paths IH]; intros idx w; simpl; [done|].
  unfold bind.
  destruct (apply_entry regex_pairs domainsub_cache p idx w) as [[idx'|e0] w0] eqn:He.
  - intros Hl. destruct (IH _ _ Hl) as [(q & -> & Hq & Hd)|?]; [|by right].
    left. exists q. split; [done|]. split; [apply elem_of_cons; by right|done].
  - intros [= <- <-]. apply apply_entry_cases in He as [_ Hcases].
    destruct Hcases as [(? & [= ->] & _)|[(_ & _ & _ & _ & ?)|(_ & f & _ & _ & Hc)]];
      [|done|].
    { left. exists p. split; [done|]. split; [apply elem_of_cons; by left|done]. }
    right.
    destruct Hc as [(_ & _ & Hres)|(s & s' & n & enc & _ & _ & _ & _ & _ & _ & _ & Hc)].
    + destruct Hres as [[[= ->] _]|[[= ->]|[[= ->]|?]]]; try done.
      * left. by eexists.
      * right. by left.
      * by do 2 right.
    + destruct Hc as [(_ & ? & _)|[(_ & line & _ & ? & _)|(_ & [= ->] & _)]];
        [done..|]. by do 2 right.
Qed.

Lemma apply_loop_cache (regex_pairs : list (re_pattern * text))
    (paths : list text) (idx : bytes) (w : world) (a : archive) r w' :
  cache w = Some a → only_originals a →
  apply_loop regex_pairs true paths idx w = (r, w') →
  (∃ p, r = Raise (ValueError p) ∧ cache w' = None) ∨
  (∃ a', cache w' = Some a' ∧ only_originals a').
Proof.
  revert idx w a. induction paths as [|p paths IH]; intros idx w a Ha Hoa; simpl.
  { unfold ret. intros [= <- <-]. right. by exists a. }
  unfold bind.
  destruct (apply_entry regex_pairs true p idx w) as [r0 w0] eqn:He.
  destruct (apply_entry_cache _ _ _ _ _ _ _ Ha Hoa He)
    as [(-> & _ & Hc)|(_ & (a' & Ha' & Hoa') & _)].
  - intros [= <- <-]. left. by exists p.
  - destruct r0 as [idx'|e].
    + by apply (IH _ _ a').
    + intros [= <- <-]. right. by exists a'.
Qed.

(** The two ways [apply_substitution] ends: at one of its checks, with
    the world as it was, or after its loop. *)
Lemma apply_substitution_inv (regex_path files_path : option text)
    (domainsub_cache : bool) (w : world) r w' :
  apply_substitution regex_path files_path domainsub_cache w = (r, w') →
  (w' = w ∧ ∃ e, r = Raise e ∧ precondition_error e) ∨
  (∃ pairs r0 wl,
     source_tree_exists w = true ∧
     (domainsub_cache = true → cache w = None) ∧
     apply_loop pairs domainsub_cache (listed_paths files_path) []
       (if domainsub_cache then set_cache (Some []) w else w) = (r0, wl) ∧
     match r0 with
     | Ok idx =>
         r = Ok () ∧
         w' = if domainsub_cache
              then set_cache (Some (default [] (cache wl)
                                    ++ [(INDEX_LIST_FILENAME, idx)])) wl
              else wl
     | Raise e => r = Raise e ∧ w' = wl
     end).
Proof.
  unfold apply_substitution, bind at 1, get_world, raise.
  destruct (source_tree_exists w) eqn:Hex; simpl.
  2:{ simpl. intros [= <- <-]. left. split; [done|]. eexists. split; [done|]. by left. }
  destruct regex_path as [regex_text|].
  2:{ simpl. intros [= <- <-]. left. split; [done|]. eexists. split; [done|]. by left. }
  destruct files_path as [files_text|].
  2:{ simpl. intros [= <- <-]. left. split; [done|]. eexists. split; [done|]. by left. }
  destruct (domainsub_cache && bool_decide (is_Some (cache w))) eqn:Hc.
  { simpl. intros [= <- <-]. left. split; [done|]. eexists. split; [done|]. right. by left. }
  simpl.
  destruct (regex_pairs (filter_len (splitlines regex_text))) as [pairs|e] eqn:Hp.
  2:{ simpl. intros [= <- <-]. left. split; [done|]. eexists. split; [done|].
      destruct (regex_pairs_raises_regex_error _ _ Hp) as [r0 ->].
      right. right. by eexists. }
  unfold bind at 1.
  assert (Hopen : (if domainsub_cache then modify (set_cache (Some [])) else ret ()) w
            = (Ok (), if domainsub_cache then set_cache (Some []) w else w))
    by (by destruct domainsub_cache).
  rewrite Hopen. unfold bind at 1.
  destruct (apply_loop pairs domainsub_cache (filter_len (splitlines files_text)) [] _)
    as [r0 wl] eqn:Hloop.
  intros Hr. right. exists pairs, r0, wl. split; [done|]. split.
  { intros ->. simpl in Hc. apply bool_decide_eq_false in Hc.
    destruct (cache w); [|done]. by destruct Hc. }
  split; [exact Hloop|].
  destruct r0 as [idx|e].
  - destruct domainsub_cache; unfold tar_addfile in Hr; unfold_M; by simplify_eq.
  - by simplify_eq.
Qed.

(** X1: whatever way [apply_substitution] ends, a regular file that no
    line of the substitution list names is in the tree exactly as before:
    its bytes, its time stamps and its mode.  The lines of the list and
    the file are taken by their keys in the tree. *)
Theorem X1_apply_touches_only_listed_paths (regex_path files_path : option text)
    (domainsub_cache : bool) (w w' : world) (r : outcome unit) (q : text)
    (f : node) :
  apply_substitution regex_path files_path domainsub_cache w = (r, w') →
  Forall (λ p, own_name w p = true) (listed_paths files_path) →
  own_name w q = true →
  q ∉ listed_paths files_path →
  tree w !! q = Some f → kind f = Regular →
  tree w' !! q = Some f.
Proof.
  intros Hr _ _ Hq Hf _. rewrite <-Hf. apply apply_substitution_inv in Hr
    as [[-> _]|(pairs & r0 & wl & _ & _ & Hloop & Hres)]; [done|].
  apply apply_loop_frame in Hloop as [_ Hframe].
  assert (Hwl : tree w' = tree wl).
  { destruct r0 as [idx|e]; destruct Hres as [_ ->]; [|done].
    by destruct domainsub_cache. }
  rewrite Hwl, (Hframe q Hq). by destruct domainsub_cache.
Qed.

(** X2: [apply_substitution] neither creates nor removes a path of the
    tree and never changes what kind of node a path is, however it
    ends. *)
Theorem X2_apply_keeps_tree_shape (regex_path files_path : option text)
    (domainsub_cache : bool) (w w' : world) (r : outcome unit) :
  apply_substitution regex_path files_path domainsub_cache w = (r, w') →
  ∀ q, (kind <$> tree w' !! q) = (kind <$> tree w !! q).
Proof.
  intros Hr q. apply apply_substitution_inv in Hr
    as [[-> _]|(pairs & r0 & wl & _ & _ & Hloop & Hres)]; [done|].
  pose proof (apply_loop_kinds _ _ _ _ _ _ _ Hloop q) as Hk.
  assert (Hwl : tree w' = tree wl).
  { destruct r0 as [idx|e]; destruct Hres as [_ ->]; [|done].
    by destruct domainsub_cache. }
  rewrite Hwl, Hk. by destruct domainsub_cache.
Qed.

(** X3: without a cache path [apply_substitution] leaves the file at the
    cache location alone, however it ends. *)
Theorem X3_apply_without_cache_keeps_cache_file (regex_path files_path : option text)
    (w w' : world) (r : outcome unit) :
  apply_substitution regex_path files_path false w = (r, w') →
  cache w' = cache w.
Proof.
  intros Hr. apply apply_substitution_inv in Hr
    as [[-> _]|(pairs & r0 & wl & _ & _ & Hloop & Hres)]; [done|].
  apply apply_loop_no_cache in Hloop.
  destruct r0 as [idx|e]; destruct Hres as [_ ->]; done.
Qed.

(** X5: when [apply_substitution] ends with [FileNotFoundError],
    [FileExistsError] or [DomainRegexError], nothing has been done: the
    tree, the cache location and the log are as before. *)
Theorem X5_apply_precondition_errors_change_nothing
    (regex_path files_path : option text) (domainsub_cache : bool)
    (w w' : world) (e : exn) :
  apply_substitution regex_path files_path domainsub_cache w = (Raise e, w') →
  precondition_error e → w' = w.
Proof.
  intros Hr Hpre. apply apply_substitution_inv in Hr
    as [[-> _]|(pairs & r0 & wl & _ & _ & Hloop & Hres)]; [done|].
  destruct r0 as [idx|e0]; destruct Hres as [Hr ->]; [done|].
  injection Hr as <-. exfalso.
  destruct (apply_loop_raises _ _ _ _ _ _ _ Hloop) as [(p & -> & _)|Ht].
  - by destruct Hpre as [?|[?|[? ?]]].
  - destruct Ht as [[p ->]|[->| ->]]; by destruct Hpre as [?|[?|[? ?]]].
Qed.

(** X6: when a file transform fails in the middle of an apply with a
    cache path, the archive written so far stays on disk; it holds
    originals only and no content index. *)
Theorem X6_transform_error_leaves_partial_archive
    (regex_path files_path : option text) (w w' : world) (e : exn) :
  apply_substitution regex_path files_path true w = (Raise e, w') →
  transform_error e →
  ∃ a, cache w' = Some a ∧ only_originals a ∧ INDEX_LIST_FILENAME ∉ a.*1.
Proof.
  intros Hr Ht. apply apply_substitution_inv in Hr
    as [[_ (e0 & [= <-] & Hpre)]|(pairs & r0 & wl & _ & _ & Hloop & Hres)].
  { exfalso. destruct Ht as [[p ->]|[->| ->]]; by destruct Hpre as [?|[?|[? ?]]]. }
  destruct r0 as [idx|e0]; destruct Hres as [Hr ->]; [done|].
  injection Hr as <-.
  assert (Hc0 : cache (set_cache (Some []) w) = Some []) by done.
  assert (Ho0 : only_originals []) by apply Forall_nil_2.
  destruct (apply_loop_cache _ _ _ _ _ _ _ Hc0 Ho0 Hloop)
    as [(p & [= ->] & _)|(a & Ha & Hoa)].
  { by destruct Ht as [[? ?]|[?|?]]. }
  exists a. split; [done|]. split; [done|].
  intros (m & Hm & Hin)%list_elem_of_fmap.
  unfold only_originals in Hoa. rewrite Forall_forall in Hoa.
  destruct (Hoa m Hin) as [p Hp]. rewrite Hp in Hm.
  by apply (orig_path_not_index p).
Qed.
End ApplyOutcomes.

(** X1, witness: the list names [a] only; the file [b] stays. *)
Lemma X1_apply_touches_only_listed_paths_witness :
  tree (apply_substitution (Some foo_bar_rules) (Some (py "a")) true
          two_files_world).2 !! py "b" = Some (regular_file "foo" 8000 6000).
Proof.
  assert (Hl : Forall (λ p, own_name two_files_world p = true)
                 (listed_paths (Some (py "a"))))
    by (vm_compute; repeat constructor).
  assert (Hn : own_name two_files_world (py "b") = true) by reflexivity.
  assert (Hq : py "b" ∉ listed_paths (Some (py "a"))) by compute_done.
  assert (Hf : tree two_files_world !! py "b" = Some (regular_file "foo" 8000 6000))
    by (vm_compute; reflexivity).
  exact (X1_apply_touches_only_listed_paths (Some foo_bar_rules) (Some (py "a")) true
           two_files_world _ _ (py "b") _ (surjective_pairing _) Hl Hn Hq Hf
           eq_refl).
Defined.

(** X2, witness: the run over the file and the directory of [dir_world];
    the directory is still one. *)
Lemma X2_apply_keeps_tree_shape_witness :
  (kind <$> tree (apply_substitution (Some foo_bar_rules)
                    (Some (lines [py "a"; py "d"])) true dir_world).2 !! py "d")
  = (kind <$> tree dir_world !! py "d").
Proof.
  exact (X2_apply_keeps_tree_shape (Some foo_bar_rules)
           (Some (lines [py "a"; py "d"])) true dir_world _ _
           (surjective_pairing _) (py "d")).
Defined.

(** X3, witness: an apply without cache path next to an existing
    archive. *)
Lemma X3_apply_without_cache_keeps_cache_file_witness :
  cache (apply_substitution (Some foo_bar_rules) (Some (py "a")) false
           substituted_a_world).2 = cache substituted_a_world.
Proof.
  exact (X3_apply_without_cache_keeps_cache_file (Some foo_bar_rules)
           (Some (py "a")) substituted_a_world _ _ (surjective_pairing _)).
Defined.

(** X5, witness: an apply onto an existing archive. *)
Lemma X5_apply_precondition_errors_change_nothing_witness :
  (apply_substitution (Some foo_bar_rules) (Some (py "a")) true
     substituted_a_world).2 = substituted_a_world.
Proof.
  assert (Hr : apply_substitution (Some foo_bar_rules) (Some (py "a")) true
                 substituted_a_world
               = (Raise FileExistsError,
                  (apply_substitution (Some foo_bar_rules) (Some (py "a")) true
                     substituted_a_world).2))
    by (vm_compute; reflexivity).
  assert (Hpre : precondition_error FileExistsError) by (right; by left).
  exact (X5_apply_precondition_errors_change_nothing _ _ _ _ _ _ Hr Hpre).
Defined.

(** X6, witness: after [a] was rewritten the directory [d] fails; the
    archive with the original of [a] stays. *)
Lemma X6_transform_error_leaves_partial_archive_witness :
  ∃ a, cache (apply_substitution (Some foo_bar_rules)
                (Some (lines [py "a"; py "d"])) true dir_world).2 = Some a ∧
       only_originals a ∧ INDEX_LIST_FILENAME ∉ a.*1.
Proof.
  assert (Hr : apply_substitution (Some foo_bar_rules)
                 (Some (lines [py "a"; py "d"])) true dir_world
               = (Raise (FileProcessingError (py "d")),
                  (apply_substitution (Some foo_bar_rules)
                     (Some (lines [py "a"; py "d"])) true dir_world).2))
    by (vm_compute; reflexivity).
  assert (Ht : transform_error (FileProcessingError (py "d")))
    by (left; by eexists).
  exact (X6_transform_error_leaves_partial_archive _ _ _ _ _ Hr Ht).
Defined.

Example partial_archive_after_directory :
  cache (apply_substitution (Some foo_bar_rules)
           (Some (lines [py "a"; py "d"])) true dir_world).2
    = Some [(py "orig/a", pyb "foo")].
Proof. vm_compute. reflexivity. Qed.

(** ** File Transformer: what a caller can rely on *)

Section TransformerProperties.
Context `{RegexEngine}.

(** X7: when [_substitute_path] returns a checksum and the original
    bytes, the file was no directory and not empty, the original bytes
    are the bytes it held, at least one substitution was made in their
    decoded text, the file now holds bytes that decode as UTF-8 to the
    substituted text (also when the original was read as ISO-8859-1),
    and the checksum is the CRC-32 of the bytes now in the file. *)
Theorem X7_rewritten_file_is_utf8 (path : text)
    (regex_iter : list (re_pattern * text)) (w w' : world)
    (crc : N) (orig : bytes) :
  _substitute_path path regex_iter w = (Ok (Some (crc, orig)), w') →
  ∃ f f' s s' n,
    tree w !! path = Some f ∧ tree w' !! path = Some f' ∧
    kind f ≠ Directory ∧ orig = content f ∧ orig ≠ [] ∧
    _decode_file_content orig = Ok s ∧
    _apply_regex_substitutions s regex_iter = Some (s', n) ∧ (0 < n)%nat ∧
    bytes_decode UTF_8 (content f') = Some s' ∧
    crc = crc32 (content f').
Proof.
  intros Hr. destruct (tree w !! path) as [f|] eqn:Hf.
  2:{ unfold _substitute_path, bind, get_world, raise in Hr.
      by rewrite Hf in Hr. }
  destruct (_substitute_path_cases _ _ _ _ _ _ Hf Hr)
    as (_ & _ & [[_ Hres]|(s & s' & n & enc & Hk & Hc & Hd & Hs & Hn & He & Hres & Ht)]).
  { destruct Hres as [[? _]|[?|[?|?]]]; done. }
  injection Hres as -> ->.
  exists f, (with_content (make_writable f) enc), s, s', n.
  split; [done|]. split; [by rewrite Ht, lookup_insert_eq|].
  do 6 (split; [done|]). split; [|done].
  simpl. by apply utf8_decode_encode.
Qed.


Lemma apply_regex_loop_total (regex_iter : list (re_pattern * text))
    (content : text) (k : nat) :
  apply_regex_loop regex_iter content k =
    match apply_regex_loop regex_iter content 0 with
    | Some (c, n) => Some (c, (k + n)%nat)
    | None => None
    end.
Proof.
  revert content k. induction regex_iter as [|[p rp] l IH]; intros c k; simpl.
  { by rewrite Nat.add_0_r. }
  destruct (re_subn p rp c) as [[c' m]|]; [|done].
  rewrite (IH c' (k + m)%nat), (IH c' m).
  destruct (apply_regex_loop l c' 0) as [[c2 n]|]; [|done].
  by rewrite Nat.add_assoc.
Qed.

(** X9: substituting with the rules [l1 ++ l2] is substituting with
    [l1] and then, in the text that gives, with [l2]; the counts of
    the two runs add up, and an [re.error] of either run is one of the
    whole. *)
Theorem X9_substitutions_compose (content : text)
    (l1 l2 : list (re_pattern * text)) :
  _apply_regex_substitutions content (l1 ++ l2) =
    match _apply_regex_substitutions content l1 with
    | Some (c1, n1) =>
        match _apply_regex_substitutions c1 l2 with
        | Some (c2, n2) => Some (c2, (n1 + n2)%nat)
        | None => None
        end
    | None => None
    end.
Proof.
  unfold _apply_regex_substitutions. generalize 0%nat at 1 2 as k.
  revert content. induction l1 as [|[p rp] l1 IH]; intros c k; simpl.
  { rewrite apply_regex_loop_total. by destruct (apply_regex_loop l2 c 0) as [[]|]. }
  destruct (re_subn p rp c) as [[c' m]|]; [|done]. apply IH.
Qed.
End TransformerProperties.

(** X7, witness: the file [a] of [two_files_world] under the rule
    [foo -> bar]. *)
Lemma X7_rewritten_file_is_utf8_witness :
  ∃ f f' s s' n,
    tree two_files_world !! py "a" = Some f ∧
    tree (_substitute_path (py "a") [(py "foo", py "bar")] two_files_world).2
      !! py "a" = Some f' ∧
    kind f ≠ Directory ∧ pyb "foo" = content f ∧ pyb "foo" ≠ [] ∧
    _decode_file_content (pyb "foo") = Ok s ∧
    _apply_regex_substitutions s [(py "foo", py "bar")] = Some (s', n) ∧
    (0 < n)%nat ∧
    bytes_decode UTF_8 (content f') = Some s' ∧
    crc32 (pyb "bar") = crc32 (content f').
Proof.
  assert (Hr : _substitute_path (py "a") [(py "foo", py "bar")] two_files_world
               = (Ok (Some (crc32 (pyb "bar"), pyb "foo")),
                  (_substitute_path (py "a") [(py "foo", py "bar")]
                     two_files_world).2))
    by (vm_compute; reflexivity).
  exact (X7_rewritten_file_is_utf8 _ _ _ _ _ _ Hr).
Defined.


Example readonly_file_without_match :
  (_substitute_path (py "a") [(py "zzz", py "y")] readonly_world).1 = Ok None.
Proof. vm_compute. reflexivity. Qed.

(** ** [_update_timestamp] *)

Lemma update_timestamp_spec {A} (path : text) (set_new : bool) (body : M A)
    (w w0 w' : world) (f g : node) (r0 r : outcome A) :
  tree w !! path = Some f →
  body w = (r0, w0) → tree w0 !! path = Some g →
  _update_timestamp path set_new body w = (r, w') →
  r = r0 ∧
  tree w' = <[path := moved_times f g
                        (if set_new then TIMESTAMP_DELTA else - TIMESTAMP_DELTA)]>
              (tree w0) ∧
  cache w' = cache w0 ∧ log w' = log w0.
Proof.
  intros Hf Hb Hg. unfold _update_timestamp. rewrite Hf, Hb.
  intros [= <- <-]. split; [done|]. unfold os_utime. rewrite Hg. simpl.
  split; [|done]. f_equal. unfold moved_times, with_times.
  destruct set_new; simpl; f_equal; lia.
Qed.


(** X11: a block run under [_update_timestamp] with [set_new=True] and
    afterwards any block run under it with [set_new=False], both leaving
    the path in place, give the file the time stamps it had before the
    first, whatever the two blocks returned, raised or did to the time
    stamps. *)
Theorem X11_timestamps_round_trip {A B} (path : text) (b1 : M A) (b2 : M B)
    (w w1 w2 : world) (f : node) (r1 : outcome A) (r2 : outcome B) :
  tree w !! path = Some f →
  is_Some (tree (b1 w).2 !! path) →
  _update_timestamp path true b1 w = (r1, w1) →
  is_Some (tree (b2 w1).2 !! path) →
  _update_timestamp path false b2 w1 = (r2, w2) →
  ∃ f2, tree w2 !! path = Some f2 ∧
        st_atime_ns f2 = st_atime_ns f ∧ st_mtime_ns f2 = st_mtime_ns f.
Proof.
  intros Hf [g1 Hg1] H1 [g2 Hg2] H2.
  destruct (update_timestamp_spec path true b1 w _ w1 f g1 _ r1 Hf
              (surjective_pairing _) Hg1 H1) as (_ & Ht1 & _).
  assert (Hf1 : tree w1 !! path = Some (moved_times f g1 TIMESTAMP_DELTA))
    by (by rewrite Ht1, lookup_insert_eq).
  destruct (update_timestamp_spec path false b2 w1 _ w2 _ g2 _ r2 Hf1
              (surjective_pairing _) Hg2 H2) as (_ & Ht2 & _).
  eexists. split; [by rewrite Ht2, lookup_insert_eq|]. simpl. lia.
Qed.


(** X11, witness: two blocks that write the file [a]. *)
Lemma X11_timestamps_round_trip_witness :
  ∃ f2,
    tree (_update_timestamp (py "a") false (write_file (py "a") (pyb "foo"))
            (_update_timestamp (py "a") true (write_file (py "a") (pyb "bar"))
               two_files_world).2).2 !! py "a" = Some f2 ∧
    st_atime_ns f2 = 7000%Z ∧ st_mtime_ns f2 = 5000%Z.
Proof.
  assert (Hf : tree two_files_world !! py "a" = Some (regular_file "foo" 7000 5000))
    by (vm_compute; reflexivity).
  assert (H1 : is_Some (tree (write_file (py "a") (pyb "bar") two_files_world).2
                          !! py "a"))
    by (vm_compute; eauto).
  assert (H2 : is_Some
                 (tree (write_file (py "a") (pyb "foo")
                          (_update_timestamp (py "a") true
                             (write_file (py "a") (pyb "bar")) two_files_world).2).2
                    !! py "a"))
    by (vm_compute; eauto).
  exact (X11_timestamps_round_trip (py "a") _ _ two_files_world _ _ _ _ _
           Hf H1 (surjective_pairing _) H2 (surjective_pairing _)).
Defined.

(** ** The text of a checksum *)

(** X12: the text that apply writes for a checksum, [format(crc, '08x')]
    of a [zlib.crc32], has eight characters, all of them lower-case
    hexadecimal digits; it holds no [INDEX_HASH_DELIMITER] and no line
    break, it passes the pattern [CRC32_REGEX_PATTERN] of the Verifier,
    and [int(text, 16)] gives the checksum back. *)
Theorem X12_checksum_text_round_trip (data : bytes) :
  length (format_08x (crc32 data)) = 8%nat ∧
  Forall is_lower_hex (format_08x (crc32 data)) ∧
  (INDEX_HASH_DELIMITER ∉ format_08x (crc32 data)) ∧
  no_linebreak (format_08x (crc32 data)) ∧
  crc32_regex_match (format_08x (crc32 data)) = true ∧
  int_base16 (format_08x (crc32 data)) = Some (crc32 data).
Proof.
  pose proof (crc32_lt data) as Hlt.
  split; [by apply format_08x_length|].
  split; [apply format_08x_lower|].
  split; [apply format_08x_no_delimiter|].
  split.
  { eapply Forall_impl; [apply format_08x_lower|].
    intros c Hc. by apply is_lower_hex_no_linebreak. }
  split; [by apply crc32_regex_match_format|by apply int_base16_format].
Qed.

(** ** Cache Verifier: what its answer means *)

Lemma validate_entry_accepted (entry : text) (s s' : gset (list N))
    (w w' : world) :
  _validate_index_entry entry s w = (Ok (true, s'), w') →
  ∃ p, entry_matches w entry p ∧ (p ∉ s) ∧ s' = {[p]} ∪ s ∧ w' = w.
Proof.
  unfold _validate_index_entry.
  destruct (str_split1 INDEX_HASH_DELIMITER entry)
    as [|p [|h [|? ?]]] eqn:Hsp; try (unfold_M; by intros [=]).
  apply str_split1_inv in Hsp as [-> Hnp].
  destruct (decide (p = [])) as [->|Hp]; [unfold_M; by intros [=]|].
  rewrite (bool_decide_eq_false_2 (p = [])) by done. simpl.
  destruct (bool_decide (h = [])); [unfold_M; by intros [=]|].
  destruct (crc32_regex_match h) eqn:Hm; simpl; [|unfold_M; by intros [=]].
  unfold bind at 1, get_world.
  destruct (tree w !! p) as [f|] eqn:Hf; [|unfold_M; by intros [=]].
  destruct (kind f) eqn:Hk; [| |unfold_M; by intros [=]].
  all: destruct (int_base16 h) as [recorded|] eqn:Hh; [|unfold_M; by intros [=]].
  all: destruct (N.eqb_spec (crc32 (content f)) recorded) as [<-|_]; simpl;
    [|unfold_M; by intros [=]].
  all: destruct (decide (p ∈ s)) as [Hin|Hin];
    [rewrite (bool_decide_eq_true_2 _ Hin); unfold_M; by intros [=]|].
  all: rewrite (bool_decide_eq_false_2 _ Hin); unfold ret; intros [= <- <-].
  all: exists p; split; [|done].
  all: exists h, f; rewrite Hk; done.
Qed.

Lemma validate_entries_accepted (entries : list text) (flag : bool)
    (s s' : gset (list N)) (w w' : world) :
  validate_entries entries flag s w = (Ok (true, s'), w') →
  ∃ paths, Forall2 (entry_matches w) entries paths ∧ NoDup paths ∧
           (∀ p, p ∈ paths → p ∉ s) ∧ s' = list_to_set paths ∪ s ∧
           w' = w ∧ flag = true.
Proof.
  revert flag s w. induction entries as [|e entries IH]; intros flag s w; simpl.
  { unfold ret. intros [= -> <- <-]. exists []. split; [constructor|].
    split; [constructor|]. split; [by intros p Hp%elem_of_nil|].
    split; [|done]. simpl. by rewrite (left_id_L ∅ (∪)). }
  unfold bind.
  destruct (_validate_index_entry e s w) as [[[v s1]|ex] w1] eqn:He; [|done].
  destruct v.
  2:{ intros Hv. by apply validate_entries_flag_false in Hv. }
  apply validate_entry_accepted in He as (p & Hm & Hp & -> & ->).
  intros Hv. apply IH in Hv as (paths & Hall & Hnd & Hfresh & -> & -> & ->).
  exists (p :: paths). split; [by constructor|]. split.
  { constructor; [|done]. intros Hin. apply (Hfresh p Hin).
    apply elem_of_union. left. by apply elem_of_singleton. }
  split.
  { intros q [->|Hq]%elem_of_cons; [done|]. intros Hqs. apply (Hfresh q Hq).
    apply elem_of_union. by right. }
  split; [|done]. simpl. apply set_eq. intros x.
  rewrite !elem_of_union. tauto.
Qed.

Lemma validate_entries_log (entries : list text) (flag flag' : bool)
    (s s' : gset (list N)) (w w' : world) :
  validate_entries entries flag s w = (Ok (flag', s'), w') →
  s ⊆ s' ∧ (flag' = true → w' = w) ∧
  (flag = true → flag' = false →
   ∃ m rest, log w' = log w ++ (ERROR, m) :: rest).
Proof.
  revert flag s w. induction entries as [|e entries IH]; intros flag s w; simpl.
  { unfold ret. intros [= -> <- <-]. split; [done|]. split; [done|].
    by intros ->. }
  unfold bind.
  destruct (_validate_index_entry_spec e s w)
    as (v & s1 & w1 & -> & _ & _ & _ & Hv & Hnv).
  intros Hrest.
  pose proof (validate_entries_spec entries (if v then flag else false) s1 w1)
    as (f2 & s2 & w2 & Heq & _ & _ & _ & Hpre & _).
  rewrite Hrest in Heq. injection Heq as <- <- <-.
  pose proof Hrest as Hrun.
  apply IH in Hrest as (Hsub & Hsame & Hlog).
  destruct v.
  - destruct (Hv eq_refl) as [-> [p ->]].
    split; [|split; [done|done]].
    etrans; [|exact Hsub]. apply union_subseteq_r.
  - destruct (Hnv eq_refl) as [-> [m Hm]].
    split; [done|]. split.
    { intros ->. by apply validate_entries_flag_false in Hrun. }
    intros _ _. destruct Hpre as [k ->]. exists m, k.
    by rewrite Hm, <-(assoc_L (++)).
Qed.

Lemma validate_file_index_reads (index_file : bytes)
    (s : gset (list N)) (w : world) :
  ∃ v s' w', _validate_file_index index_file s w = (Ok (v, s'), w') ∧
    source_tree_exists w' = source_tree_exists w ∧
    tree w' = tree w ∧ cache w' = cache w ∧ s ⊆ s' ∧
    (v = true → log w' = log w) ∧
    (v = false → ∃ m rest, log w' = log w ++ (ERROR, m) :: rest).
Proof.
  unfold _validate_file_index.
  destruct (bytes_decode ENCODING index_file) as [index_content|].
  - destruct (validate_entries_spec (splitlines index_content) true s w)
      as (v & s' & w' & Heq & He & Ht & Hc & _).
    exists v, s', w'. split; [done|]. do 3 (split; [done|]).
    apply validate_entries_log in Heq as (Hsub & Hsame & Hlog).
    split; [done|]. split.
    + intros Hv. by rewrite (Hsame Hv).
    + intros Hv. by apply Hlog.
  - unfold_M. eexists false, s, _. split; [done|]. simpl.
    do 4 (split; [done|]). split; [done|]. intros _.
    by exists Cannot_read_or_decode_index, [].
Qed.

Lemma validate_file_index_accepted (index_file : bytes) (w w' : world)
    (files : gset (list N)) :
  _validate_file_index index_file ∅ w = (Ok (true, files), w') →
  ∃ index_content paths,
    bytes_decode ENCODING index_file = Some index_content ∧
    Forall2 (entry_matches w) (splitlines index_content) paths ∧
    NoDup paths ∧ files = list_to_set paths ∧ w' = w.
Proof.
  unfold _validate_file_index.
  destruct (bytes_decode ENCODING index_file) as [index_content|];
    [|unfold_M; by intros [=]].
  intros Hv. apply validate_entries_accepted in Hv
    as (paths & Hall & Hnd & _ & -> & -> & _).
  exists index_content, paths. do 3 (split; [done|]).
  split; [|done]. by rewrite (right_id_L ∅ (∪)).
Qed.

(** X13: the Verifier never raises and changes neither the tree nor the
    archive; it only adds paths to the set it was given; an answer
    "valid" comes without any log record, and an answer "invalid" always
    comes with an [ERROR] record that tells why. *)
Theorem X13_verifier_reads_and_reports (index_file : bytes)
    (s : gset (list N)) (w : world) :
  ∃ v s' w', _validate_file_index index_file s w = (Ok (v, s'), w') ∧
    source_tree_exists w' = source_tree_exists w ∧
    tree w' = tree w ∧ cache w' = cache w ∧ s ⊆ s' ∧
    (v = true → log w' = log w) ∧
    (v = false → ∃ m rest, log w' = log w ++ (ERROR, m) :: rest).
Proof. apply validate_file_index_reads. Qed.

(** X14: when the Verifier, started with the empty set, answers "valid",
    the index decodes as UTF-8 and every one of its lines is
    [path|hash] with a non-empty path without [|] that names an
    existing file which is no directory, and a hash that passes
    [CRC32_REGEX_PATTERN] and reads as the CRC-32 of the bytes now in
    that file; no path is named by two lines, and the set holds exactly
    the paths of the lines. *)
Theorem X14_valid_answer_is_sound (index_file : bytes) (w w' : world)
    (files : gset (list N)) :
  _validate_file_index index_file ∅ w = (Ok (true, files), w') →
  ∃ index_content paths,
    bytes_decode ENCODING index_file = Some index_content ∧
    Forall2 (entry_matches w) (splitlines index_content) paths ∧
    NoDup paths ∧ files = list_to_set paths ∧ w' = w.
Proof. apply validate_file_index_accepted. Qed.

(** X14, witness: the index of [substituted_a_world] against its tree. *)
Lemma X14_valid_answer_is_sound_witness :
  ∃ index_content paths,
    bytes_decode ENCODING (pyb "a|76ff8caa" ++ [x0a]) = Some index_content ∧
    Forall2 (entry_matches substituted_a_world) (splitlines index_content) paths ∧
    NoDup paths ∧ ({[py "a"]} : gset (list N)) = list_to_set paths.
Proof.
  assert (Hr : _validate_file_index (pyb "a|76ff8caa" ++ [x0a]) ∅
                 substituted_a_world
               = (Ok (true, {[py "a"]}), substituted_a_world))
    by (vm_compute; reflexivity).
  destruct (X14_valid_answer_is_sound _ _ _ _ Hr)
    as (index_content & paths & Hd & Hall & Hnd & Hfiles & _).
  exists index_content, paths.
  split; [exact Hd|]. split; [exact Hall|]. split; [exact Hnd|exact Hfiles].
Defined.

(** ** Revert Engine: every outcome *)

(** The loop over the indexed paths, whatever it ends with. *)
Lemma revert_loop_any (paths : list text)
    (extracted : gmap (list N) (list byte)) (w w' : world)
    (r : outcome (gmap (list N) (list byte))) :
  revert_loop paths extracted w = (r, w') →
  source_tree_exists w' = source_tree_exists w ∧ cache w' = cache w ∧
  (∀ q, q ∉ paths → tree w' !! q = tree w !! q).
Proof.
  revert extracted w. induction paths as [|p paths IH]; intros extracted w; simpl.
  { unfold ret. by intros [= <- <-]. }
  unfold bind.
  destruct (_update_timestamp p false _ w) as [[ex1|e] w1] eqn:Hstep.
  - apply revert_step_spec in Hstep as (He & Hc & Ht & _).
    intros Hl. apply IH in Hl as (He' & Hc' & Ht').
    split; [congruence|]. split; [congruence|].
    intros q [Hq Hqs]%not_elem_of_cons. rewrite Ht' by done. by apply Ht.
  - apply revert_step_spec in Hstep as (He & Hc & Ht & _).
    intros [= <- <-]. split; [done|]. split; [done|].
    intros q [Hq _]%not_elem_of_cons. by apply Ht.
Qed.

(** Over files that are no directories the loop can only fail for an
    original that the archive does not hold. *)
Lemma revert_loop_raises (paths : list text)
    (extracted : gmap (list N) (list byte)) (w w' : world) (e : exn) :
  NoDup paths →
  (∀ p, p ∈ paths → ∃ f, tree w !! p = Some f ∧ kind f ≠ Directory) →
  revert_loop paths extracted w = (Raise e, w') →
  e = FileNotFoundError.
Proof.
  revert extracted w. induction paths as [|p paths IH]; intros extracted w Hnd Hall;
    simpl; [done|].
  apply NoDup_cons in Hnd as [Hp Hnd].
  destruct (Hall p) as (f & Hf & Hk); [apply elem_of_cons; by left|].
  unfold bind.
  destruct (_update_timestamp p false _ w) as [[ex1|e1] w1] eqn:Hstep.
  - apply revert_step_spec in Hstep as (_ & _ & Ht & _).
    apply IH; [done|]. intros q Hq.
    destruct (Hall q) as (fq & Hfq & Hkq); [apply elem_of_cons; by right|].
    exists fq. split; [|done]. rewrite Ht; [done|]. by intros ->.
  - intros [= <- <-]. unfold _update_timestamp in Hstep. rewrite Hf in Hstep.
    unfold replace_file in Hstep.
    destruct (extracted !! path_join ORIG_DIR_NAME p); [|by injection Hstep as <- _].
    unfold bind at 1, get_world in Hstep. rewrite Hf in Hstep. simpl in Hstep.
    destruct (kind f); [| |done]; unfold_M; simpl in Hstep; done.
Qed.

(** A loop that ends well has given every path the original the archive
    holds for it and has moved its time stamps back. *)
Lemma revert_loop_ok_inv (paths : list text)
    (extracted extracted' : gmap (list N) (list byte)) (w w' : world) :
  NoDup paths →
  revert_loop paths extracted w = (Ok extracted', w') →
  ∀ p f, p ∈ paths → tree w !! p = Some f →
    ∃ f', tree w' !! p = Some f' ∧
          extracted !! path_join ORIG_DIR_NAME p = Some (content f') ∧
          st_atime_ns f' = (st_atime_ns f - TIMESTAMP_DELTA)%Z ∧
          st_mtime_ns f' = (st_mtime_ns f - TIMESTAMP_DELTA)%Z.
Proof.
  revert extracted w. induction paths as [|p0 paths IH]; intros extracted w Hnd;
    simpl.
  { intros _ p f Hp. by apply elem_of_nil in Hp. }
  apply NoDup_cons in Hnd as [Hp0 Hnd]. unfold bind.
  destruct (_update_timestamp p0 false _ w) as [[ex1|e] w1] eqn:Hstep; [|done].
  intros Hloop.
  apply revert_step_spec in Hstep as (_ & _ & Ht & Hex & Hts).
  specialize (Hex _ eq_refl). subst ex1.
  intros p f [->|Hp]%elem_of_cons Hf.
  - destruct (Hts f Hf) as (f' & Hf' & Ha & Hm & Hcon).
    apply revert_loop_any in Hloop as (_ & _ & Hframe).
    exists f'. by rewrite Hframe.
  - assert (Hne : p ≠ p0) by (by intros ->).
    rewrite <-(Ht p Hne) in Hf.
    destruct (IH _ _ Hnd Hloop p f Hp Hf) as (f' & Hf' & Hcon & Ha & Hm).
    exists f'. split; [done|]. split; [|done].
    rewrite lookup_delete_ne in Hcon; [done|].
    intros Heq. by apply path_join_inj in Heq.
Qed.

Lemma entry_matches_index_path (w : world) (entry p : text) :
  entry_matches w entry p →
  default [] (head (str_split1 INDEX_HASH_DELIMITER entry)) = p.
Proof.
  intros (h & f & -> & Hn & _). by rewrite (str_split1_first _ _ _ Hn).
Qed.

Lemma Forall2_entry_paths (w : world) (entries paths : list text) :
  Forall2 (entry_matches w) entries paths →
  (λ entry, default [] (head (str_split1 INDEX_HASH_DELIMITER entry))) <$> entries
    = paths.
Proof.
  induction 1 as [|e p es ps Hm _ IH]; [done|].
  by rewrite fmap_cons, (entry_matches_index_path _ _ _ Hm), IH.
Qed.

(** What a revert with a cache path does once archive and tree are found
    to exist. *)
Lemma revert_substitution_inv (w w' : world) (r : outcome ()) :
  revert_substitution true w = (r, w') →
  source_tree_exists w' = source_tree_exists w ∧
  (∀ q, q ∉ index_paths w → tree w' !! q = tree w !! q) ∧
  match r with
  | Ok _ =>
      ∃ cache_tar, cache w = Some cache_tar ∧ NoDup (index_paths w) ∧
        ∀ p, p ∈ index_paths w →
          ∃ f f', tree w !! p = Some f ∧ tree w' !! p = Some f' ∧
                  extract_tar_file cache_tar !! path_join ORIG_DIR_NAME p
                    = Some (content f') ∧
                  st_atime_ns f' = (st_atime_ns f - TIMESTAMP_DELTA)%Z ∧
                  st_mtime_ns f' = (st_mtime_ns f - TIMESTAMP_DELTA)%Z
  | Raise e =>
      cache w' = cache w ∧
      (e = FileNotFoundError ∨ e = KeyError ∧ tree w' = tree w)
  end.
Proof.
  unfold revert_substitution. simpl.
  unfold bind at 1, get_world.
  destruct (cache w) as [cache_tar|] eqn:Hc.
  2:{ intros [= <- <-]. split; [done|]. split; [done|]. split; [done|]. by left. }
  destruct (source_tree_exists w) eqn:Hex; simpl.
  2:{ intros [= <- <-]. split; [done|]. split; [done|]. split; [done|]. by left. }
  unfold bind at 1, logger at 1, modify at 1.
  unfold bind at 1, logger at 1, modify at 1.
  destruct (extract_tar_file cache_tar !! INDEX_LIST_FILENAME)
    as [index_file|] eqn:Hidx.
  2:{ intros [= <- <-]. split; [done|]. split; [done|]. split; [done|]. by left. }
  set (w0 := add_log DEBUG Validating_substituted_files
               (add_log DEBUG Extracting_cache w)).
  unfold bind at 1.
  destruct (_validate_file_index index_file ∅ w0) as [[[v files]|ex] wv] eqn:Hval.
  2:{ destruct (validate_file_index_reads index_file ∅ w0)
        as (? & ? & ? & Heq & _). rewrite Hval in Heq. done. }
  destruct v; simpl.
  2:{ intros [= <- <-].
      destruct (validate_file_index_reads index_file ∅ w0)
        as (? & ? & ? & Heq & He & Ht & Hcv & _).
      rewrite Hval in Heq. injection Heq as _ _ <-. simpl in He, Ht, Hcv.
      split; [congruence|]. split; [intros q _; by rewrite Ht|].
      split; [congruence|]. right. done. }
  apply validate_file_index_accepted in Hval
    as (index_content & paths & Hdec & Hall & Hnd & -> & ->).
  assert (Hip : index_paths w = paths).
  { unfold index_paths. rewrite Hc, Hidx, Hdec. exact (Forall2_entry_paths _ _ _ Hall). }
  rewrite Hip.
  unfold bind at 1, logger at 1, modify at 1. unfold bind at 1.
  destruct (revert_loop (elements (list_to_set paths : gset (list N))) _ _)
    as [[ex'|e] wl] eqn:Hloop.
  - pose proof (revert_loop_ok_inv _ _ _ _ _ (NoDup_elements _) Hloop) as Hback.
    apply revert_loop_any in Hloop as (Hel & Hcl & Htl).
    destruct (warn_unused_spec (orig_files ex') wl) as (wu & Hwu & Heu & Htu & Hcu).
    unfold bind. rewrite Hwu.
    assert (Hframe : ∀ q, q ∉ paths → tree wu !! q = tree w !! q).
    { intros q Hq. rewrite Htu, Htl; [done|].
      intros Hin. apply Hq. apply elem_of_elements in Hin.
      by apply elem_of_list_to_set in Hin. }
    assert (Hres : ∀ p, p ∈ paths →
              ∃ f f', tree w !! p = Some f ∧ tree wu !! p = Some f' ∧
                      extract_tar_file cache_tar !! path_join ORIG_DIR_NAME p
                        = Some (content f') ∧
                      st_atime_ns f' = (st_atime_ns f - TIMESTAMP_DELTA)%Z ∧
                      st_mtime_ns f' = (st_mtime_ns f - TIMESTAMP_DELTA)%Z).
    { intros p Hp.
      pose proof Hp as Hin. apply (list_elem_of_lookup_1 paths) in Hin as [i Hi].
      destruct (Forall2_lookup_r _ _ _ _ _ Hall Hi)
        as (entry & _ & (h & f & _ & _ & _ & _ & Hf & _)).
      destruct (Hback p f) as (f' & Hf' & Hcon & Ha & Hm); [|done|].
      { by apply elem_of_elements, elem_of_list_to_set. }
      exists f, f'. rewrite Htu. done. }
    destruct (orig_files ex'); unfold_M; intros [= <- <-]; simpl.
    + split; [by rewrite Heu, Hel|]. split; [done|]. by exists cache_tar.
    + split; [by rewrite Heu, Hel|]. split; [done|]. by exists cache_tar.
  - intros [= <- <-].
    pose proof Hloop as Hany.
    apply revert_loop_any in Hany as (Hel & Hcl & Htl).
    split; [by rewrite Hel|]. split.
    { intros q Hq. rewrite Htl; [done|].
      intros Hin. apply Hq. apply elem_of_elements in Hin.
      by apply elem_of_list_to_set in Hin. }
    split; [by rewrite Hcl|]. left.
    eapply revert_loop_raises; [| |exact Hloop].
    + apply NoDup_elements.
    + intros p Hp. apply elem_of_elements, elem_of_list_to_set in Hp.
      apply (list_elem_of_lookup_1 paths) in Hp as [i Hi].
      destruct (Forall2_lookup_r _ _ _ _ _ Hall Hi)
        as (entry & _ & (h & f & _ & _ & _ & _ & Hf & Hk & _)).
      exists f. done.
Qed.



(** C8: after a revert that went through all its replacements, the cache
    archive is gone from the disk exactly when every file of the extracted
    directory of originals is the original of a path that a line of the
    content index names; otherwise, when an original is left that the
    index does not refer to, the archive is still the one that was there
    and the warning has been logged.  The member names of the archive are
    plain and the lines of the index are taken by their keys in the
    tree. *)
Theorem C8_archive_removed_iff_no_unused (w w' : world) :
  plain_archive w = true →
  revert_substitution true w = (Ok (), w') →
  ∃ cache_tar,
    cache w = Some cache_tar ∧
    (cache w' = None ↔
     ∀ name, is_Some (extract_tar_file cache_tar !! name) →
             (ORIG_DIR_NAME ++ [47]) `prefix_of` name →
             ∃ p, p ∈ index_paths w ∧ name = path_join ORIG_DIR_NAME p) ∧
    (cache w' ≠ None →
     cache w' = Some cache_tar ∧
     (WARNING, Cache_contains_unused_files) ∈ log w').
Proof.
  intros _ Hr. apply revert_archive_by_verified_set in Hr
    as (cache_tar & index_file & files & wv & Hc & Hidx & Hval & Hiff & Hkept).
  apply validate_file_index_accepted in Hval
    as (index_content & paths & Hdec & Hall & _ & -> & _).
  assert (Hip : index_paths w = paths).
  { unfold index_paths. rewrite Hc, Hidx, Hdec. exact (Forall2_entry_paths _ _ _ Hall). }
  exists cache_tar. split; [done|]. split; [|done].
  rewrite Hiff, Hip. split.
  - intros Hall' name Hsome Hpre. destruct (Hall' name Hsome Hpre) as (p & Hp & ->).
    exists p. split; [|done]. by apply elem_of_list_to_set in Hp.
  - intros Hall' name Hsome Hpre. destruct (Hall' name Hsome Hpre) as (p & Hp & ->).
    exists p. split; [|done]. by apply elem_of_list_to_set.
Qed.

(** X16: a [revert_substitution] that raises leaves the archive where it
    was.  It raises [AttributeError] (no cache path), [FileNotFoundError]
    (no archive, no tree, no index in the archive, or an indexed file
    without its original in the archive) or [KeyError] (the Verifier's
    answer), and in all but the [FileNotFoundError] case the tree is as
    it was. *)
Theorem X16_failed_revert_keeps_archive (domainsub_cache : bool)
    (w w' : world) (e : exn) :
  revert_substitution domainsub_cache w = (Raise e, w') →
  cache w' = cache w ∧ source_tree_exists w' = source_tree_exists w ∧
  (e = AttributeError ∨ e = FileNotFoundError ∨ e = KeyError) ∧
  (e ≠ FileNotFoundError → tree w' = tree w).
Proof.
  destruct domainsub_cache.
  - intros Hr. apply revert_substitution_inv in Hr as (He & _ & Hc & Hcase).
    split; [done|]. split; [done|]. destruct Hcase as [->|[-> Ht]].
    + split; [right; by left|done].
    + split; [by do 2 right|done].
  - unfold revert_substitution. simpl. unfold_M. intros [= <- <-]. simpl.
    split; [done|]. split; [done|]. split; [by left|done].
Qed.


(** X16, witness: the archive of [missing_original_world] holds no
    original for the indexed file [b]. *)
Lemma X16_failed_revert_keeps_archive_witness :
  cache (revert_substitution true missing_original_world).2
    = cache missing_original_world ∧
  source_tree_exists (revert_substitution true missing_original_world).2
    = source_tree_exists missing_original_world ∧
  (FileNotFoundError = AttributeError ∨ FileNotFoundError = FileNotFoundError ∨
   FileNotFoundError = KeyError) ∧
  (FileNotFoundError ≠ FileNotFoundError →
   tree (revert_substitution true missing_original_world).2
     = tree missing_original_world).
Proof.
  assert (Hr : revert_substitution true missing_original_world
               = (Raise FileNotFoundError,
                  (revert_substitution true missing_original_world).2))
    by (vm_compute; reflexivity).
  exact (X16_failed_revert_keeps_archive true missing_original_world _ _ Hr).
Defined.


(** C8, witness: the archive with the spare original [orig/extra] is kept
    by the revert of [a]. *)
Lemma C8_archive_removed_iff_no_unused_witness :
  ∃ cache_tar,
    cache substituted_a_world = Some cache_tar ∧
    (cache (revert_substitution true substituted_a_world).2 = None ↔
     ∀ name, is_Some (extract_tar_file cache_tar !! name) →
             (ORIG_DIR_NAME ++ [47]) `prefix_of` name →
             ∃ p, p ∈ index_paths substituted_a_world ∧
                  name = path_join ORIG_DIR_NAME p) ∧
    (cache (revert_substitution true substituted_a_world).2 ≠ None →
     cache (revert_substitution true substituted_a_world).2 = Some cache_tar ∧
     (WARNING, Cache_contains_unused_files)
       ∈ log (revert_substitution true substituted_a_world).2).
Proof.
  assert (Ha : plain_archive substituted_a_world = true) by reflexivity.
  assert (Hr : revert_substitution true substituted_a_world
               = (Ok (), (revert_substitution true substituted_a_world).2))
    by (vm_compute; reflexivity).
  exact (C8_archive_removed_iff_no_unused substituted_a_world _ Ha Hr).
Defined.

(** ** Cache Writer: the archive of a successful apply *)

Section ArchiveLayout.
Context `{RegexEngine}.





(** X18: after a successful [apply_substitution] with a cache path,
    another call with the same cache path, whatever its rule file and
    substitution list, raises [FileExistsError] and changes nothing. *)
Theorem X18_second_apply_is_refused (regex_text files_text : text)
    (w w1 : world) :
  apply_substitution (Some regex_text) (Some files_text) true w = (Ok (), w1) →
  ∀ regex_text' files_text',
    apply_substitution (Some regex_text') (Some files_text') true w1
      = (Raise FileExistsError, w1).
Proof.
  intros Happly regex_text' files_text'.
  apply apply_substitution_ok_inv in Happly as (S & Hex & Hc & _).
  unfold apply_substitution, bind, get_world. rewrite Hex, Hc. done.
Qed.
End ArchiveLayout.


Example archive_of_two_files :
  cache (apply_substitution (Some foo_bar_rules) (Some (lines [py "a"; py "b"]))
           true two_files_world).2
    = Some [(py "orig/a", pyb "foo"); (py "orig/b", pyb "foo");
            (py "cache_index.list",
             pyb "a|76ff8caa" ++ [x0a] ++ pyb "b|76ff8caa" ++ [x0a])].
Proof. vm_compute. reflexivity. Qed.

(** X18, witness: the example scenario applied twice. *)
Lemma X18_second_apply_is_refused_witness :
  apply_substitution (Some config_rules) (Some (py "config.txt")) true
    config_applied = (Raise FileExistsError, config_applied).
Proof.
  assert (Hr : apply_substitution (Some config_rules) (Some (py "config.txt")) true
                 config_world = (Ok (), config_applied))
    by (vm_compute; reflexivity).
  exact (X18_second_apply_is_refused _ _ _ _ Hr config_rules (py "config.txt")).
Defined.

(** ** Pattern Table: the pairs and the rules *)

Section PatternTablePairs.
Context `{RegexEngine}.

Lemma _compile_regex_ok (line : text) (pr : re_pattern * text) :
  _compile_regex line = Ok pr →
  ∃ pattern, line = pattern ++ PATTERN_REPLACE_DELIMITER :: pr.2 ∧
             (PATTERN_REPLACE_DELIMITER ∉ pattern) ∧
             re_compile pattern = Some pr.1 ∧
             head (str_split1 PATTERN_REPLACE_DELIMITER line) = Some pattern.
Proof.
  unfold _compile_regex.
  destruct (str_split1 PATTERN_REPLACE_DELIMITER line)
    as [|pattern [|replacement [|? ?]]] eqn:Hsp; try done.
  destruct (re_compile pattern) as [c|] eqn:Hc; [|done].
  intros [= <-]. apply str_split1_inv in Hsp as [-> Hn].
  exists pattern. by do 3 (split; [done|]).
Qed.

(** X19: when [regex_pairs] returns, it returns one pair per rule and
    in the order of the rules; the pattern of a pair is the compiled
    text before the first [#] of its rule and the replacement is all
    the text after that [#]; and the alternatives of [search_regex]
    are, in the same order, the texts those patterns were compiled
    from. *)
Theorem X19_pairs_follow_rules (_data : list text)
    (pairs : list (re_pattern * text)) :
  regex_pairs _data = Ok pairs →
  Forall2 (λ line pr,
             ∃ pattern, line = pattern ++ PATTERN_REPLACE_DELIMITER :: pr.2 ∧
                        (PATTERN_REPLACE_DELIMITER ∉ pattern) ∧
                        re_compile pattern = Some pr.1) _data pairs ∧
  Forall2 (λ pattern pr, re_compile pattern = Some pr.1)
          (pattern_strings _data) pairs.
Proof.
  revert pairs. induction _data as [|line rest IH]; intros pairs Hr;
    simpl in Hr.
  { injection Hr as <-. split; constructor. }
  destruct (_compile_regex line) as [pr|e] eqn:Hc; [|done].
  destruct (regex_pairs rest) as [ps|e]; [|done].
  injection Hr as <-. destruct (IH ps eq_refl) as [H1 H2].
  apply _compile_regex_ok in Hc as (pattern & Hl & Hn & Hre & Hh).
  split.
  - constructor; [|done]. by exists pattern.
  - unfold pattern_strings. rewrite fmap_cons. constructor; [|done].
    by rewrite Hh.
Qed.

(** X20: when [regex_pairs] raises, the exception is that of the first
    rule, in the order of the file, that has no [#] or whose text
    before the first [#] does not compile; every rule before it
    compiles. *)
Theorem X20_first_bad_rule_is_reported (_data : list text) (e : exn) :
  regex_pairs _data = Raise e →
  ∃ pre line post,
    _data = pre ++ line :: post ∧
    Forall (λ l, ∃ pr, _compile_regex l = Ok pr) pre ∧
    (((PATTERN_REPLACE_DELIMITER ∉ line) ∧
      e = DomainRegexError (Invalid_regex_line_format line)) ∨
     (∃ pattern replacement,
        line = pattern ++ PATTERN_REPLACE_DELIMITER :: replacement ∧
        (PATTERN_REPLACE_DELIMITER ∉ pattern) ∧
        re_compile pattern = None ∧
        e = DomainRegexError (Failed_to_compile pattern))).
Proof.
  induction _data as [|line rest IH]; simpl; [done|].
  destruct (_compile_regex line) as [pr|e'] eqn:Hc.
  - destruct (regex_pairs rest) as [ps|e'']; [done|].
    intros [= <-]. destruct (IH eq_refl) as (pre & l & post & -> & Hpre & Hl).
    exists (line :: pre), l, post. split; [done|]. split; [|done].
    constructor; [by exists pr|done].
  - intros [= <-]. exists [], line, rest. split; [done|]. split; [constructor|].
    unfold _compile_regex in Hc.
    destruct (decide (PATTERN_REPLACE_DELIMITER ∈ line)) as [Hin|Hnin].
    + right. apply list_elem_of_split_l in Hin as (pattern & replacement & -> & Hn).
      rewrite (str_split1_first _ _ _ Hn) in Hc.
      destruct (re_compile pattern) eqn:Hre; [done|]. injection Hc as <-.
      by exists pattern, replacement.
    + left. rewrite (str_split1_absent _ _ Hnin) in Hc. injection Hc as <-.
      done.
Qed.
End PatternTablePairs.

(** X19, witness: two literal rules, the second with a [#] in its
    replacement. *)
Lemma X19_pairs_follow_rules_witness :
  Forall2 (λ line pr,
             ∃ pattern, line = pattern ++ PATTERN_REPLACE_DELIMITER :: pr.2 ∧
                        (PATTERN_REPLACE_DELIMITER ∉ pattern) ∧
                        re_compile pattern = Some pr.1)
          [py "foo#bar"; py "a#b#c"] [(py "foo", py "bar"); (py "a", py "b#c")] ∧
  Forall2 (λ pattern pr, re_compile pattern = Some pr.1)
          (pattern_strings [py "foo#bar"; py "a#b#c"])
          [(py "foo", py "bar"); (py "a", py "b#c")].
Proof.
  assert (Hr : regex_pairs [py "foo#bar"; py "a#b#c"]
               = Ok [(py "foo", py "bar"); (py "a", py "b#c")])
    by (vm_compute; reflexivity).
  exact (X19_pairs_follow_rules _ _ Hr).
Defined.

(** X20, witness: a rule without [#] after a good rule. *)
Lemma X20_first_bad_rule_is_reported_witness :
  ∃ pre line post,
    [py "foo#bar"; py "nodelimiter"; py "x#y"] = pre ++ line :: post ∧
    Forall (λ l, ∃ pr, _compile_regex l = Ok pr) pre ∧
    (((PATTERN_REPLACE_DELIMITER ∉ line) ∧
      DomainRegexError (Invalid_regex_line_format (py "nodelimiter"))
        = DomainRegexError (Invalid_regex_line_format line)) ∨
     (∃ pattern replacement,
        line = pattern ++ PATTERN_REPLACE_DELIMITER :: replacement ∧
        (PATTERN_REPLACE_DELIMITER ∉ pattern) ∧
        re_compile pattern = None ∧
        DomainRegexError (Invalid_regex_line_format (py "nodelimiter"))
          = DomainRegexError (Failed_to_compile pattern))).
Proof.
  assert (Hr : regex_pairs [py "foo#bar"; py "nodelimiter"; py "x#y"]
               = Raise (DomainRegexError
                          (Invalid_regex_line_format (py "nodelimiter"))))
    by (vm_compute; reflexivity).
  exact (X20_first_bad_rule_is_reported _ _ Hr).
Defined.

(** ** Cache Writer: time stamps and symbolic links *)

Section ApplyTimes.
Context `{RegexEngine}.




End ApplyTimes.


Example archive_without_the_link :
  cache (apply_substitution (Some foo_bar_rules)
           (Some (lines [py "a"; py "l"])) true symlink_world).2
    = Some [(py "orig/a", pyb "foo");
            (py "cache_index.list", pyb "a|76ff8caa" ++ [x0a])].
Proof. vm_compute. reflexivity. Qed.

